(** * Remimazolam TCI V3.3: bolus + continuous infusion optimisation

    A shallow embedding of the numerical core of the repository
    (classes [MasuiModelConstants], [Patient], [PKParameters],
    [PKParameterCalculator], [BolusOptimizer], [BolusThresholdSimulator]
    and [BolusProtocolCalculator]) and the properties of its
    specification.

    JavaScript numbers are IEEE 754 binary64 values; they are modelled by
    Rocq's primitive [float], which is the same format with the same
    round-to-nearest-even operations, so every definition below computes
    exactly what the script computes. The patient ID, the one string
    the script inspects, is a sequence of 16-bit code units; the texts
    it only builds are strings of bytes. *)

From Stdlib Require Import String Ascii ZArith List Bool Lia Floats.
Import ListNotations.

Set Warnings "-inexact-float".
Local Open Scope float_scope.

(** ** JavaScript number primitives *)

Module JS.

Definition number := float.

(** [x < y], [x <= y], [x > y], [x >= y]: all false when an operand is NaN. *)
Definition lt (x y : number) : bool := PrimFloat.ltb x y.
Definition le (x y : number) : bool := PrimFloat.leb x y.
Definition gt (x y : number) : bool := PrimFloat.ltb y x.
Definition ge (x y : number) : bool := PrimFloat.leb y x.

Definition Infinity : number := infinity.
Definition NaN : number := nan.

Definition isNaN (x : number) : bool := PrimFloat.is_nan x.

(** [Math.abs]. *)
Definition Math_abs (x : number) : number := PrimFloat.abs x.

(** [Math.max] of two arguments: NaN if either is NaN, and [+0] is
    larger than [-0]. *)
Definition Math_max (x y : number) : number :=
  if isNaN x || isNaN y then NaN
  else if lt x y then y
  else if lt y x then x
  else match classify x with
       | NZero => y
       | _ => x
       end.

(** An integer as a number (exact below 2^53). *)
Definition of_Z (z : Z) : number :=
  SF2Prim (binary_normalize prec emax z 0 false).

Definition of_nat (n : nat) : number := of_Z (Z.of_nat n).

(** The integer part, rounded down, of a finite number. *)
Definition floorZ (x : number) : option Z :=
  match Prim2SF x with
  | S754_zero _ => Some 0%Z
  | S754_finite s m e => Some (Z.shiftl (cond_Zopp s (Zpos m)) e)
  | _ => None
  end.

(** [Math.floor]: NaN, the infinities and the zeros are returned as
    they are. *)
Definition Math_floor (x : number) : number :=
  match Prim2SF x with
  | S754_finite _ _ _ =>
      match floorZ x with
      | Some z => of_Z z
      | None => x
      end
  | _ => x
  end.

(** The number of iterations of [for (let i = 0; i < n; i++)], where
    [i] is a number: [None] when the loop does not end, which is the
    case for [n = Infinity] and for [n] above 2^53, where [i++] stops
    growing. *)
Definition for_count (n : number) : option nat :=
  match Prim2SF n with
  | S754_finite false m e =>
      let c := (- Z.shiftl (- Zpos m) e)%Z in
      if (c <=? 2 ^ 53)%Z then Some (Z.to_nat c) else None
  | S754_infinity false => None
  | _ => Some O
  end.

(** [parseFloat(x.toFixed(1))] for a finite [x >= 0]: [toFixed(1)]
    prints [n / 10] for the integer [n] nearest to the exact value of
    [10 * x] (the larger one of two), and [parseFloat] reads that
    decimal back as the nearest number, which is what the division of
    [n] by [10] returns. Other numbers are not needed: the script
    applies it to simulation times only. *)
Definition tenthsZ (x : number) : option Z :=
  match Prim2SF x with
  | S754_zero _ => Some 0%Z
  | S754_finite false m e =>
      Some (Z.shiftl (2 * (10 * Zpos m) * 2 ^ Z.max 0 e
                      + 2 ^ Z.max 0 (- e)) (- (Z.max 0 (- e) + 1)))%Z
  | _ => None
  end.

Definition toFixed1 (x : number) : number :=
  match tenthsZ x with
  | Some n => of_Z n / 10
  | None => x
  end.

(** A string is a sequence of 16-bit code units. *)
Definition codeUnit := N.
Definition jsString := list codeUnit.

(** The code units of a text of ASCII characters. *)
Definition codeUnits (s : string) : jsString :=
  map N_of_ascii (list_ascii_of_string s).

(** The code points [String.prototype.trim] strips from both ends:
    [WhiteSpace] (TAB, VT, FF, SP, NBSP, ZWNBSP and the space separators
    U+1680, U+2000 to U+200A, U+202F, U+205F, U+3000) and
    [LineTerminator] (LF, CR, LS, PS). All of them are in the basic
    plane, so each one is one code unit. *)
Definition isWhiteSpace (c : codeUnit) : bool :=
  ((0x9 <=? c) && (c <=? 0xD)
   || (c =? 0x20) || (c =? 0xA0) || (c =? 0x1680)
   || (0x2000 <=? c) && (c <=? 0x200A)
   || (c =? 0x2028) || (c =? 0x2029) || (c =? 0x202F) || (c =? 0x205F)
   || (c =? 0x3000) || (c =? 0xFEFF))%N.

Fixpoint trimStart (s : jsString) : jsString :=
  match s with
  | [] => []
  | c :: rest => if isWhiteSpace c then trimStart rest else s
  end.

Definition trimEnd (s : jsString) : jsString :=
  rev (trimStart (rev s)).

(** [s.trim()]. *)
Definition trim (s : jsString) : jsString :=
  trimEnd (trimStart s).

End JS.

Import JS.

(** ** [MasuiModelConstants] *)

Module MasuiModelConstants.
Definition THETA_1 : number := 3.57.
Definition THETA_2 : number := 11.3.
Definition THETA_3 : number := 27.2.
Definition THETA_4 : number := 1.03.
Definition THETA_5 : number := 1.10.
Definition THETA_6 : number := 0.401.
Definition THETA_8 : number := 0.308.
Definition THETA_9 : number := 0.146.
Definition THETA_10 : number := -0.184.

Definition STANDARD_WEIGHT : number := 67.3.
Definition STANDARD_AGE : number := 54.0.

Definition DEFAULT_TARGET_REACH_TIME : number := 20.0.
Definition DEFAULT_UPPER_THRESHOLD_RATIO : number := 1.2.
Definition OPTIMIZED_REDUCTION_FACTOR : number := 0.70.
Definition SIMULATION_DURATION : number := 180.0.
Definition TIME_STEP : number := 0.1.

Definition MIN_INFUSION_RATE : number := 0.1.
Definition MAX_INFUSION_RATE : number := 6.0.
Definition MIN_BOLUS_DOSE : number := 1.0.
Definition MAX_BOLUS_DOSE : number := 15.0.

Definition OPTIMIZATION_STEP : number := 0.1.
Definition OPTIMIZATION_MIN_RATE : number := 0.3.
Definition OPTIMIZATION_MAX_RATE : number := 4.0.
End MasuiModelConstants.

Import MasuiModelConstants.

(** ** [Patient] and [PKParameters] *)

Record Patient := {
  patientId : jsString;
  age : number;
  weight : number;
  height : number;
  sex : number;    (* 0 = male, 1 = female *)
  asaPS : number   (* 0 = ASA I-II, 1 = ASA III-IV *)
}.

Record PKParameters := {
  v1 : number;
  v2 : number;
  v3 : number;
  cl : number;
  q2 : number;
  q3 : number;
  ke0 : number
}.

Definition getK10 (pk : PKParameters) : number := cl pk / v1 pk.
Definition getK12 (pk : PKParameters) : number := q2 pk / v1 pk.
Definition getK21 (pk : PKParameters) : number := q2 pk / v2 pk.
Definition getK13 (pk : PKParameters) : number := q3 pk / v1 pk.
Definition getK31 (pk : PKParameters) : number := q3 pk / v3 pk.

(** ** [BolusOptimizer] *)

(** The compartment masses [{a1, a2, a3}]. *)
Record SystemState := {
  a1 : number;
  a2 : number;
  a3 : number
}.

Record BolusState := {
  bolus_a1 : number;
  bolus_a2 : number;
  bolus_a3 : number;
  plasmaConc : number;
  effectSiteConc : number
}.

Record Derivatives := {
  da1dt : number;
  da2dt : number;
  da3dt : number
}.

Record OptimizationEntry := {
  entry_rate : number;
  entry_ceAtTarget : number;
  entry_error : number;
  entry_relativeError : number
}.

Record OptimizationResult := {
  optimalRate : number;
  predictedCe : number;
  opt_error : number;
  opt_relativeError : number;
  allResults : list OptimizationEntry
}.

(** The loop [for (rate = MIN; rate <= MAX; rate += STEP) push(rate)];
    [None] when the fuel runs out before the loop ends. *)
Fixpoint scanRates (fuel : nat) (rate : number) : option (list number) :=
  match fuel with
  | O => None
  | S k =>
      if le rate OPTIMIZATION_MAX_RATE
      then option_map (cons rate) (scanRates k (rate + OPTIMIZATION_STEP))
      else Some []
  end.

(** The candidates the optimizer scans. The loop ends by itself (see
    [scanRates_returns]), so the fuel is never what stops it. *)
Definition testRates : list number :=
  match scanRates 64 OPTIMIZATION_MIN_RATE with
  | Some l => l
  | None => []
  end.

Section BolusOptimizer.

Variable patient : Patient.
Variable pkParams : PKParameters.

Definition timeStep : number := TIME_STEP.

Definition calculateBolusInitialState (bolusDoseMg : number) : BolusState :=
  let initialA1 := bolusDoseMg in
  let initialPlasmaConc := initialA1 / v1 pkParams in
  {| bolus_a1 := initialA1;
     bolus_a2 := 0.0;
     bolus_a3 := 0.0;
     plasmaConc := initialPlasmaConc;
     effectSiteConc := 0.0 |}.

Definition derivatives (infusionRateMgMin : number) (s : SystemState)
  : Derivatives :=
  let k10 := getK10 pkParams in
  let k12 := getK12 pkParams in
  let k21 := getK21 pkParams in
  let k13 := getK13 pkParams in
  let k31 := getK31 pkParams in
  {| da1dt := infusionRateMgMin - (k10 + k12 + k13) * a1 s
              + k21 * a2 s + k31 * a3 s;
     da2dt := k12 * a1 s - k21 * a2 s;
     da3dt := k13 * a1 s - k31 * a3 s |}.

Definition updateSystemStateRK4 (state : SystemState)
           (infusionRateMgMin dt : number) : SystemState :=
  let k1 := derivatives infusionRateMgMin state in
  let k2 := derivatives infusionRateMgMin
              {| a1 := a1 state + 0.5 * dt * da1dt k1;
                 a2 := a2 state + 0.5 * dt * da2dt k1;
                 a3 := a3 state + 0.5 * dt * da3dt k1 |} in
  let k3 := derivatives infusionRateMgMin
              {| a1 := a1 state + 0.5 * dt * da1dt k2;
                 a2 := a2 state + 0.5 * dt * da2dt k2;
                 a3 := a3 state + 0.5 * dt * da3dt k2 |} in
  let k4 := derivatives infusionRateMgMin
              {| a1 := a1 state + dt * da1dt k3;
                 a2 := a2 state + dt * da2dt k3;
                 a3 := a3 state + dt * da3dt k3 |} in
  {| a1 := a1 state + (dt / 6.0)
             * (da1dt k1 + 2 * da1dt k2 + 2 * da1dt k3 + da1dt k4);
     a2 := a2 state + (dt / 6.0)
             * (da2dt k1 + 2 * da2dt k2 + 2 * da2dt k3 + da2dt k4);
     a3 := a3 state + (dt / 6.0)
             * (da3dt k1 + 2 * da3dt k2 + 2 * da3dt k3 + da3dt k4) |}.

(** One pass of the body of the open-loop simulation: the effect site
    is advanced from the plasma concentration of the state before the
    RK4 step. *)
Definition openLoopStep (infusionRateMgMin : number)
           (sc : SystemState * number) : SystemState * number :=
  let '(state, currentCe) := sc in
  let plasmaConc := a1 state / v1 pkParams in
  let dCedt := ke0 pkParams * (plasmaConc - currentCe) in
  let currentCe := currentCe + timeStep * dCedt in
  (updateSystemStateRK4 state infusionRateMgMin timeStep, currentCe).

Fixpoint openLoop (n : nat) (infusionRateMgMin : number)
         (sc : SystemState * number) : SystemState * number :=
  match n with
  | O => sc
  | S k => openLoop k infusionRateMgMin (openLoopStep infusionRateMgMin sc)
  end.

(** [None]: the loop over the steps does not end. *)
Definition simulateBolusAndContinuous
           (bolusDoseMg continuousRate targetTime : number) : option number :=
  let bolusState := calculateBolusInitialState bolusDoseMg in
  let state := {| a1 := bolus_a1 bolusState;
                  a2 := bolus_a2 bolusState;
                  a3 := bolus_a3 bolusState |} in
  let currentCe := effectSiteConc bolusState in
  let infusionRateMgMin := (continuousRate * weight patient) / 60.0 in
  let numSteps := Math_floor (targetTime / timeStep) in
  match for_count numSteps with
  | Some n => Some (snd (openLoop n infusionRateMgMin (state, currentCe)))
  | None => None
  end.

(** The state [(bestRate, bestError, optimizationResults)] of the scan. *)
Definition ScanState : Type := number * number * list OptimizationEntry.

Definition scanStep (targetCe : number) (st : ScanState)
           (testRate ceAtTarget : number) : ScanState :=
  let '(bestRate, bestError, optimizationResults) := st in
  let error := Math_abs (ceAtTarget - targetCe) in
  let relativeError := (error / targetCe) * 100 in
  let optimizationResults :=
    optimizationResults ++
      [{| entry_rate := testRate;
          entry_ceAtTarget := ceAtTarget;
          entry_error := error;
          entry_relativeError := relativeError |}] in
  if lt error bestError
  then (testRate, error, optimizationResults)
  else (bestRate, bestError, optimizationResults).

Fixpoint scan (bolusDoseMg targetCe targetReachTime : number)
         (rates : list number) (st : ScanState) : option ScanState :=
  match rates with
  | [] => Some st
  | testRate :: rest =>
      match simulateBolusAndContinuous bolusDoseMg testRate targetReachTime with
      | Some ceAtTarget =>
          scan bolusDoseMg targetCe targetReachTime rest
               (scanStep targetCe st testRate ceAtTarget)
      | None => None
      end
  end.

Definition optimizeContinuousRate
           (bolusDoseMg targetCe targetReachTime : number)
  : option OptimizationResult :=
  match scan bolusDoseMg targetCe targetReachTime testRates
             (1.0, Infinity, []) with
  | Some (bestRate, bestError, optimizationResults) =>
      match simulateBolusAndContinuous bolusDoseMg bestRate targetReachTime with
      | Some predictedCe =>
          Some {| optimalRate := bestRate;
                  predictedCe := predictedCe;
                  opt_error := bestError;
                  opt_relativeError := (bestError / targetCe) * 100;
                  allResults := optimizationResults |}
      | None => None
      end
  | None => None
  end.

End BolusOptimizer.

(** ** [BolusThresholdSimulator] *)

Record ThresholdParams := {
  targetReachTime : number;
  upperThresholdRatio : number;
  reductionFactor : number;
  targetCe : number
}.

Variant AdjustmentType := threshold_reduction.

(** An entry of [dosageAdjustments]. [adjustmentNumber] is a counter
    that starts at 0 and grows by one; it is kept as a natural number. *)
Record DosageAdjustment := {
  adj_time : number;
  adj_type : AdjustmentType;
  oldRate : number;
  newRate : number;
  ceAtEvent : number;
  reductionPercent : number;
  adj_adjustmentNumber : nat
}.

(** An entry of [timeSeriesData]. *)
Record DataPoint := {
  time : number;
  ce : number;
  plasma : number;
  infusionRate : number;
  dp_targetCe : number;
  dp_upperThreshold : number;
  adjustmentNumber : nat;
  isBolus : bool;
  timeSinceLastAdjustment : number
}.

Record PerformanceMetrics := {
  finalCe : number;
  maxCe : number;
  avgDeviation : number;
  targetAccuracy : number;
  stabilityIndex : number;
  convergenceTime : number
}.

Record SimulationResult := {
  timeSeriesData : list DataPoint;
  dosageAdjustments : list DosageAdjustment;
  performance : PerformanceMetrics;
  sim_bolusDose : number;
  initialContinuousRate : number;
  thresholdParams : ThresholdParams
}.

(** *** [evaluatePerformance] *)

Definition sumNumbers (l : list number) : number :=
  fold_left (fun sum dev => sum + dev) l 0.

(** [totalVariation] of the loop over [maintenanceData[i]],
    [maintenanceData[i-1]]. *)
Fixpoint totalVariationFrom (acc : number) (prev : DataPoint)
         (l : list DataPoint) : number :=
  match l with
  | [] => acc
  | p :: rest =>
      totalVariationFrom (acc + Math_abs (ce p - ce prev)) p rest
  end.

Fixpoint firstConvergence (threshold targetCe : number)
         (l : list DataPoint) : number :=
  match l with
  | [] => Infinity
  | point :: rest =>
      if le (Math_abs (ce point - targetCe)) threshold
      then time point
      else firstConvergence threshold targetCe rest
  end.

Definition evaluatePerformance (timeSeriesData : list DataPoint)
           (targetCe : number) : PerformanceMetrics :=
  let maintenanceData := filter (fun point => ge (time point) 60) timeSeriesData in
  match maintenanceData with
  | [] =>
      {| finalCe := 0; maxCe := 0; avgDeviation := Infinity;
         targetAccuracy := 0; stabilityIndex := 0;
         convergenceTime := Infinity |}
  | first :: others =>
      let finalCe := ce (last timeSeriesData first) in
      let maxCe := fold_left Math_max (map ce timeSeriesData) neg_infinity in
      let deviations :=
        map (fun point => Math_abs (ce point - targetCe)) maintenanceData in
      let avgDeviation :=
        sumNumbers deviations / of_nat (length deviations) in
      let tolerance := targetCe * 0.1 in
      let withinTolerance :=
        length (filter (fun point =>
                          le (Math_abs (ce point - targetCe)) tolerance)
                       maintenanceData) in
      let targetAccuracy :=
        (of_nat withinTolerance / of_nat (length maintenanceData)) * 100 in
      let totalVariation := totalVariationFrom 0 first others in
      let avgVariation :=
        totalVariation / (of_nat (length maintenanceData) - 1) in
      let stabilityIndex := Math_max 0 (100 - (avgVariation * 1000)) in
      let convergenceThreshold := targetCe * 0.05 in
      let convergenceTime :=
        firstConvergence convergenceThreshold targetCe timeSeriesData in
      {| finalCe := finalCe; maxCe := maxCe; avgDeviation := avgDeviation;
         targetAccuracy := targetAccuracy; stabilityIndex := stabilityIndex;
         convergenceTime := convergenceTime |}
  end.

(** *** [simulateCompleteProtocol] *)

(** The variables the loop of [simulateCompleteProtocol] updates. *)
Record LoopState := {
  ls_state : SystemState;
  ls_currentCe : number;
  ls_currentRate : number;
  ls_lastAdjustmentTime : number;
  ls_adjustmentCount : nat;
  ls_timeSeriesData : list DataPoint;
  ls_dosageAdjustments : list DosageAdjustment
}.

Definition minimumInterval : number := 5.0.

(** [Math.floor(SIMULATION_DURATION / this.timeStep) + 1]. *)
Definition numSteps : number :=
  Math_floor (SIMULATION_DURATION / timeStep) + 1.

Section BolusThresholdSimulator.

Variable patient : Patient.
Variable pkParams : PKParameters.

Section Run.

Variable bolusDoseMg : number.
Variable initialRate : number.
Variable params : ThresholdParams.

Definition upperThreshold : number :=
  targetCe params * upperThresholdRatio params.

(** The trigger of a reduction, at time [currentTime]. *)
Definition thresholdReached (currentCe currentTime lastAdjustmentTime
                             currentRate : number) : bool :=
  ge currentCe upperThreshold
  && ge (currentTime - lastAdjustmentTime) minimumInterval
  && gt currentRate MIN_INFUSION_RATE.

(** The body of the loop, at index [i]. *)
Definition protocolStep (st : LoopState) (i : nat) : LoopState :=
  let currentTime := of_nat i * timeStep in
  let infusionRateMgMin := (ls_currentRate st * weight patient) / 60.0 in
  let plasmaConc := a1 (ls_state st) / v1 pkParams in
  let currentCe :=
    if (0 <? i)%nat
    then let dCedt := ke0 pkParams * (plasmaConc - ls_currentCe st) in
         ls_currentCe st + timeStep * dCedt
    else ls_currentCe st in
  let adjust :=
    thresholdReached currentCe currentTime (ls_lastAdjustmentTime st)
                     (ls_currentRate st) in
  let oldRate := ls_currentRate st in
  let currentRate :=
    if adjust
    then Math_max MIN_INFUSION_RATE (ls_currentRate st * reductionFactor params)
    else ls_currentRate st in
  let adjustmentCount :=
    if adjust then S (ls_adjustmentCount st) else ls_adjustmentCount st in
  let dosageAdjustments :=
    if adjust
    then ls_dosageAdjustments st ++
           [{| adj_time := currentTime;
               adj_type := threshold_reduction;
               oldRate := oldRate;
               newRate := currentRate;
               ceAtEvent := currentCe;
               reductionPercent := ((oldRate - currentRate) / oldRate) * 100;
               adj_adjustmentNumber := adjustmentCount |}]
    else ls_dosageAdjustments st in
  let lastAdjustmentTime :=
    if adjust then currentTime else ls_lastAdjustmentTime st in
  let timeSeriesData :=
    ls_timeSeriesData st ++
      [{| time := toFixed1 currentTime;
          ce := currentCe;
          plasma := plasmaConc;
          infusionRate := currentRate;
          dp_targetCe := targetCe params;
          dp_upperThreshold := upperThreshold;
          adjustmentNumber := adjustmentCount;
          isBolus := (i =? 0)%nat;
          timeSinceLastAdjustment := currentTime - lastAdjustmentTime |}] in
  let state :=
    if lt (of_nat i) (numSteps - 1)
    then updateSystemStateRK4 pkParams (ls_state st) infusionRateMgMin timeStep
    else ls_state st in
  {| ls_state := state;
     ls_currentCe := currentCe;
     ls_currentRate := currentRate;
     ls_lastAdjustmentTime := lastAdjustmentTime;
     ls_adjustmentCount := adjustmentCount;
     ls_timeSeriesData := timeSeriesData;
     ls_dosageAdjustments := dosageAdjustments |}.

Definition initialLoopState : LoopState :=
  let bolusState := calculateBolusInitialState pkParams bolusDoseMg in
  {| ls_state := {| a1 := bolus_a1 bolusState;
                    a2 := bolus_a2 bolusState;
                    a3 := bolus_a3 bolusState |};
     ls_currentCe := effectSiteConc bolusState;
     ls_currentRate := initialRate;
     ls_lastAdjustmentTime := - minimumInterval;
     ls_adjustmentCount := O;
     ls_timeSeriesData := [];
     ls_dosageAdjustments := [] |}.

(** The loop [for (let i = 0; i < n; i++)] over the body. *)
Definition protocolLoop (n : nat) : LoopState :=
  fold_left protocolStep (seq 0 n) initialLoopState.

(** [None]: the loop does not end (it always does, see
    [simulateCompleteProtocol_returns]). *)
Definition simulateCompleteProtocol : option SimulationResult :=
  match for_count numSteps with
  | Some n =>
      let final := protocolLoop n in
      Some {| timeSeriesData := ls_timeSeriesData final;
              dosageAdjustments := ls_dosageAdjustments final;
              performance :=
                evaluatePerformance (ls_timeSeriesData final)
                                    (targetCe params);
              sim_bolusDose := bolusDoseMg;
              initialContinuousRate := initialRate;
              thresholdParams := params |}
  | None => None
  end.

End Run.

End BolusThresholdSimulator.

(** ** [Patient.validate] *)

(** The reasons [validate] pushes to [errors], in the order of the
    checks; the last one carries the value of the BMI its message
    prints. *)
Inductive ValidationError :=
  | MissingPatientId
  | AgeOutOfRange
  | WeightOutOfRange
  | BmiOutOfRange (bmi : number).

Record Validation := {
  isValid : bool;
  errors : list ValidationError
}.

Section BolusProtocolCalculator.

(** [Math.pow], which the language leaves to the implementation. *)
Variable Math_pow : number -> number -> number.

(** [MasuiKe0Calculator.calculateKe0(age, weight, height, sex, asaPS).ke0],
    which is not part of these sources. *)
Variable calculateKe0 : number -> number -> number -> number -> number -> number.

Definition getBMI (p : Patient) : number :=
  weight p / Math_pow (height p / 100) 2.

Definition validate (p : Patient) : Validation :=
  let errors := [] in
  let errors :=
    if (length (patientId p) =? 0)%nat
       || (length (trim (patientId p)) =? 0)%nat
    then errors ++ [MissingPatientId] else errors in
  let errors :=
    if lt (age p) 18 || gt (age p) 80
    then errors ++ [AgeOutOfRange] else errors in
  let errors :=
    if lt (weight p) 40.0 || gt (weight p) 120.0
    then errors ++ [WeightOutOfRange] else errors in
  let bmi := getBMI p in
  let errors :=
    if lt bmi 16.0 || gt bmi 40.0
    then errors ++ [BmiOutOfRange bmi] else errors in
  {| isValid := (length errors =? 0)%nat; errors := errors |}.

(** ** [PKParameterCalculator] *)

Definition calculatePKParameters (p : Patient) : PKParameters :=
  let weightRatio := weight p / STANDARD_WEIGHT in
  let ageRatio := age p / STANDARD_AGE in
  let v1 := THETA_1 * Math_pow weightRatio 0.75 * (1 + THETA_8 * sex p) in
  let v2 := THETA_2 * Math_pow weightRatio THETA_4
            * (1 + THETA_9 * (ageRatio - 1)) in
  let v3 := THETA_3 * Math_pow weightRatio THETA_5 in
  let cl := THETA_6 * Math_pow weightRatio 0.75 * (1 + THETA_10 * asaPS p) in
  let q2 := 0.8 * cl in
  let q3 := 0.3 * cl in
  let ke0 := calculateKe0 (age p) (weight p) (height p) (sex p) (asaPS p) in
  {| v1 := v1; v2 := v2; v3 := v3; cl := cl; q2 := q2; q3 := q3; ke0 := ke0 |}.

(** ** [BolusProtocolCalculator] *)

(** The optional [protocolParams]: the properties that are present
    replace the defaults. *)
Record ProtocolParams := {
  pp_targetReachTime : option number;
  pp_upperThresholdRatio : option number;
  pp_reductionFactor : option number;
  pp_targetCe : option number
}.

Definition noProtocolParams : ProtocolParams :=
  {| pp_targetReachTime := None; pp_upperThresholdRatio := None;
     pp_reductionFactor := None; pp_targetCe := None |}.

Definition override (d : number) (o : option number) : number :=
  match o with
  | Some x => x
  | None => d
  end.

(** [{ ...defaultParams, ...protocolParams }]. *)
Definition finalParamsOf (targetCe : number) (pp : ProtocolParams)
  : ThresholdParams :=
  {| targetReachTime :=
       override DEFAULT_TARGET_REACH_TIME (pp_targetReachTime pp);
     upperThresholdRatio :=
       override DEFAULT_UPPER_THRESHOLD_RATIO (pp_upperThresholdRatio pp);
     reductionFactor :=
       override OPTIMIZED_REDUCTION_FACTOR (pp_reductionFactor pp);
     targetCe := override targetCe (pp_targetCe pp) |}.

(** The errors [calculateBolusProtocol] throws. *)
Inductive ProtocolError :=
  | PatientValidationFailed (errors : list ValidationError)
  | BolusDoseOutOfRange
  | TargetCeOutOfRange.

(** What a call does: it returns, throws, or does not end. *)
Inductive Outcome (A : Type) :=
  | Returned (a : A)
  | Thrown (e : ProtocolError)
  | Diverged.
Arguments Returned {A} a.
Arguments Thrown {A} e.
Arguments Diverged {A}.

Definition bind {A B : Type} (o : Outcome A) (k : A -> Outcome B)
  : Outcome B :=
  match o with
  | Returned a => k a
  | Thrown e => Thrown e
  | Diverged => Diverged
  end.

Definition ended {A : Type} (o : option A) : Outcome A :=
  match o with
  | Some a => Returned a
  | None => Diverged
  end.

Notation "x <- c ;; k" := (bind c (fun x => k))
  (at level 61, c at next level, right associativity).

Inductive Recommendation := Recommended | Good | Acceptable | NeedsReview.

Definition getRecommendationLevel (performance : PerformanceMetrics)
           (adjustmentCount : nat) : Recommendation :=
  let targetDeviation := Math_abs (finalCe performance - 1.0) in
  let accuracy := targetAccuracy performance in
  let score := accuracy in
  let score := if (adjustmentCount =? 1)%nat then score + 10 else score in
  let score := if lt targetDeviation 0.1 then score + 15 else score in
  if ge score 90 then Recommended
  else if ge score 75 then Good
  else if ge score 60 then Acceptable
  else NeedsReview.

Record ComparisonEntry := {
  cmp_bolusDose : number;
  cmp_optimalRate : number;
  cmp_finalCe : number;
  cmp_targetAccuracy : number;
  cmp_adjustmentCount : nat;
  cmp_recommendation : Recommendation
}.

Definition testBolusDoses : list number := [3; 5; 7; 10].

(** The sweep catches and skips a dose whose computation throws; the
    computation throws nothing, so only its not ending is left. *)
Fixpoint bolusComparison (p : Patient) (pk : PKParameters)
         (targetCe : number) (protocolParams : ThresholdParams)
         (doses : list number) : Outcome (list ComparisonEntry) :=
  match doses with
  | [] => Returned []
  | testBolus :: rest =>
      optimizationResult <-
        ended (optimizeContinuousRate p pk testBolus targetCe
                 (targetReachTime protocolParams)) ;;
      simulationResult <-
        ended (simulateCompleteProtocol p pk testBolus
                 (optimalRate optimizationResult) protocolParams) ;;
      let adjustmentCount := length (dosageAdjustments simulationResult) in
      let recommendation :=
        getRecommendationLevel (performance simulationResult)
                               adjustmentCount in
      others <- bolusComparison p pk targetCe protocolParams rest ;;
      Returned
        ({| cmp_bolusDose := testBolus;
            cmp_optimalRate := optimalRate optimizationResult;
            cmp_finalCe := finalCe (performance simulationResult);
            cmp_targetAccuracy := targetAccuracy (performance simulationResult);
            cmp_adjustmentCount := adjustmentCount;
            cmp_recommendation := recommendation |} :: others)
  end.

Definition generateBolusComparison (p : Patient) (targetCe : number)
           (protocolParams : ThresholdParams)
  : Outcome (list ComparisonEntry) :=
  let pkParams := calculatePKParameters p in
  bolusComparison p pkParams targetCe protocolParams testBolusDoses.

(** The result of [calculateBolusProtocol], without the printed
    [clinicalProtocol] and the measured [calculationTimeMs]. *)
Record ProtocolResult := {
  res_patient : Patient;
  res_pkParams : PKParameters;
  res_bolusDose : number;
  res_targetCe : number;
  optimalContinuousRate : number;
  optimizationResult : OptimizationResult;
  simulationData : list DataPoint;
  res_dosageAdjustments : list DosageAdjustment;
  res_performance : PerformanceMetrics;
  comparisonData : list ComparisonEntry;
  protocolParams : ThresholdParams
}.

(** The three checks at the head of [calculateBolusProtocol]: the
    error that is thrown, if one is. *)
Definition validateInputs (p : Patient) (bolusDoseMg targetCe : number)
  : option ProtocolError :=
  let validation := validate p in
  if negb (isValid validation)
  then Some (PatientValidationFailed (errors validation))
  else if lt bolusDoseMg MIN_BOLUS_DOSE || gt bolusDoseMg MAX_BOLUS_DOSE
  then Some BolusDoseOutOfRange
  else if lt targetCe 0.5 || gt targetCe 3.0
  then Some TargetCeOutOfRange
  else None.

Definition calculateBolusProtocol (p : Patient)
           (bolusDoseMg targetCe : number) (pp : ProtocolParams)
  : Outcome ProtocolResult :=
  match validateInputs p bolusDoseMg targetCe with
  | Some e => Thrown e
  | None =>
      let finalParams := finalParamsOf targetCe pp in
      let pkParams := calculatePKParameters p in
      optimizationResult <-
        ended (optimizeContinuousRate p pkParams bolusDoseMg targetCe
                 (targetReachTime finalParams)) ;;
      simulationResult <-
        ended (simulateCompleteProtocol p pkParams bolusDoseMg
                 (optimalRate optimizationResult) finalParams) ;;
      comparisonData <- generateBolusComparison p targetCe finalParams ;;
      Returned
        {| res_patient := p;
           res_pkParams := pkParams;
           res_bolusDose := bolusDoseMg;
           res_targetCe := targetCe;
           optimalContinuousRate := optimalRate optimizationResult;
           optimizationResult := optimizationResult;
           simulationData := timeSeriesData simulationResult;
           res_dosageAdjustments := dosageAdjustments simulationResult;
           res_performance := performance simulationResult;
           comparisonData := comparisonData;
           protocolParams := finalParams |}
  end.

End BolusProtocolCalculator.

Arguments Returned {A} a.
Arguments Thrown {A} e.
Arguments Diverged {A}.

(** ** [generateClinicalProtocol] and [BolusAlertManager] *)

(** An entry of the clinical protocol. *)
Record ClinicalStep := {
  step : nat;
  method : string;
  dose : string;
  totalDose : string;
  timing : string;
  notes : string
}.

(** The [type] of an alert: 'bolus', 'continuous_start', 'warning' or
    'adjustment'. *)
Variant AlertType :=
  type_bolus | type_continuous_start | type_warning | type_adjustment.

(** An alert; it carries the protocol entry or the adjustment it is
    about. *)
Record Alert := {
  alert_time : number;
  alert_type : AlertType;
  title : string;
  message : string;
  alert_protocol : option ClinicalStep;
  alert_adjustment : option DosageAdjustment
}.

(** The fields of a [BolusAlertManager], without the audio context of
    the browser. *)
Record BolusAlertManager := {
  alerts : list Alert;
  isAudioEnabled : bool;
  isBolusAlertEnabled : bool
}.

(** What [generateBolusAlerts] does: it returns the alerts, or the read
    of [.dose] on a missing protocol entry throws a [TypeError]. *)
Variant AlertOutcome := AlertsReturned (l : list Alert) | TypeErrorThrown.

Section Printing.

(** The decimal text of a number in a template literal, and
    [Number.prototype.toFixed], which the language provides. *)
Variable Number_toString : number -> string.
Variable toFixed : number -> nat -> string.

Local Open Scope string_scope.

Definition adjustmentStep (patient : Patient) (index : nat)
           (adjustment : DosageAdjustment) : ClinicalStep :=
  {| step := index + 3;
     method := "閾値ベース減量";
     dose := toFixed (newRate adjustment) 2 ++ " mg/kg/hr";
     totalDose :=
       toFixed (newRate adjustment * weight patient) 1 ++ " mg/hr";
     timing := toFixed (adj_time adjustment) 0 ++ "分後";
     notes := toFixed (reductionPercent adjustment) 0 ++ "%減量" |}.

(** [adjustments.forEach((adjustment, index) => protocol.push(...))],
    from [index] on. *)
Fixpoint pushAdjustmentSteps (patient : Patient) (index : nat)
         (adjustments : list DosageAdjustment) (protocol : list ClinicalStep)
  : list ClinicalStep :=
  match adjustments with
  | [] => protocol
  | adjustment :: rest =>
      pushAdjustmentSteps patient (S index) rest
        (protocol ++ [adjustmentStep patient index adjustment])%list
  end.

Definition generateClinicalProtocol (bolusDoseMg continuousRate : number)
           (adjustments : list DosageAdjustment) (patient : Patient)
  : list ClinicalStep :=
  let protocol := [] in
  let protocol :=
    (protocol ++
      [{| step := 1;
          method := "ボーラス投与";
          dose := Number_toString bolusDoseMg ++ " mg";
          totalDose := Number_toString bolusDoseMg ++ " mg";
          timing := "麻酔導入時（即座）";
          notes := "瞬時静脈内投与" |}])%list in
  let protocol :=
    (protocol ++
      [{| step := 2;
          method := "持続投与開始";
          dose := toFixed continuousRate 2 ++ " mg/kg/hr";
          totalDose :=
            toFixed (continuousRate * weight patient) 1 ++ " mg/hr";
          timing := "ボーラス投与直後";
          notes := "最適化された投与量" |}])%list in
  pushAdjustmentSteps patient 0 adjustments protocol.

(** The constructor, and [enableBolusAlerts(enable = true)]. *)
Definition newBolusAlertManager : BolusAlertManager :=
  {| alerts := []; isAudioEnabled := false; isBolusAlertEnabled := false |}.

Definition enableBolusAlerts (m : BolusAlertManager) (enable : bool)
  : BolusAlertManager :=
  {| alerts := alerts m; isAudioEnabled := isAudioEnabled m;
     isBolusAlertEnabled := enable |}.

Definition pushAlert (m : BolusAlertManager) (a : Alert) : BolusAlertManager :=
  {| alerts := (alerts m ++ [a])%list; isAudioEnabled := isAudioEnabled m;
     isBolusAlertEnabled := isBolusAlertEnabled m |}.

Definition warningAlert (adjustment : DosageAdjustment) : Alert :=
  {| alert_time := adj_time adjustment - 2;
     alert_type := type_warning;
     title := "投与量変更予告";
     message := "2分後に投与量を" ++ toFixed (newRate adjustment) 2
                ++ " mg/kg/hrに減量してください。";
     alert_protocol := None;
     alert_adjustment := Some adjustment |}.

Definition adjustmentAlert (adjustment : DosageAdjustment) : Alert :=
  {| alert_time := adj_time adjustment;
     alert_type := type_adjustment;
     title := "投与量減量実行";
     message := "投与量を" ++ toFixed (newRate adjustment) 2
                ++ " mg/kg/hrに変更してください（"
                ++ toFixed (reductionPercent adjustment) 0 ++ "%減量）。";
     alert_protocol := None;
     alert_adjustment := Some adjustment |}.

(** [dosageAdjustments.forEach(adjustment => { push; push })]. *)
Fixpoint pushAdjustmentAlerts (adjustments : list DosageAdjustment)
         (m : BolusAlertManager) : BolusAlertManager :=
  match adjustments with
  | [] => m
  | adjustment :: rest =>
      pushAdjustmentAlerts rest
        (pushAlert (pushAlert m (warningAlert adjustment))
                   (adjustmentAlert adjustment))
  end.

Definition bolusAlert (entry : ClinicalStep) : Alert :=
  {| alert_time := 0;
     alert_type := type_bolus;
     title := "ボーラス投与実行";
     message := dose entry ++ "を瞬時静脈内投与してください。";
     alert_protocol := Some entry;
     alert_adjustment := None |}.

Definition continuousStartAlert (entry : ClinicalStep) : Alert :=
  {| alert_time := 0.5;
     alert_type := type_continuous_start;
     title := "持続投与開始";
     message := dose entry ++ "で持続投与を開始してください。";
     alert_protocol := Some entry;
     alert_adjustment := None |}.

(** The manager after the call, and what the call does. *)
Definition generateBolusAlerts (m : BolusAlertManager)
           (dosageAdjustments : list DosageAdjustment)
           (clinicalProtocol : list ClinicalStep)
  : BolusAlertManager * AlertOutcome :=
  let m := {| alerts := []; isAudioEnabled := isAudioEnabled m;
              isBolusAlertEnabled := isBolusAlertEnabled m |} in
  let finish (m : BolusAlertManager) :=
    let m := pushAdjustmentAlerts dosageAdjustments m in
    (m, AlertsReturned (alerts m)) in
  if isBolusAlertEnabled m
  then match nth_error clinicalProtocol 0 with
       | None => (m, TypeErrorThrown)
       | Some first =>
           let m := pushAlert m (bolusAlert first) in
           match nth_error clinicalProtocol 1 with
           | None => (m, TypeErrorThrown)
           | Some second =>
               finish (pushAlert m (continuousStartAlert second))
           end
       end
  else finish m.

End Printing.

(** The grid of the specification: [min + i * step] for [i = 0..37]. *)
Definition indexGrid : list number :=
  map (fun i => OPTIMIZATION_MIN_RATE + of_nat i * OPTIMIZATION_STEP)
      (seq 0 38).

(** The standard patient of the model (67.3 kg class, 54 years), with
    the parameters of the fixed-ke0 reference case. *)
Definition refPatient : Patient :=
  {| patientId := codeUnits "P1"; age := 54; weight := 70; height := 170;
     sex := 0; asaPS := 0 |}.

Definition refPK : PKParameters :=
  {| v1 := 3.57; v2 := 11.3; v3 := 27.2; cl := 0.401;
     q2 := 0.8 * 0.401; q3 := 0.3 * 0.401; ke0 := 0.12 |}.

(** The same patient with a weight that is not a number, and the same
    parameters with a central volume of zero. *)
Definition noWeightPatient : Patient :=
  {| patientId := codeUnits "P1"; age := 54; weight := NaN; height := 170;
     sex := 0; asaPS := 0 |}.

Definition noVolumePK : PKParameters :=
  {| v1 := 0; v2 := 11.3; v3 := 27.2; cl := 0.401;
     q2 := 0.8 * 0.401; q3 := 0.3 * 0.401; ke0 := 0.12 |}.

(** [Math.pow] and the ke0 oracle are parameters of the model; the
    examples take a square, which is what the call [Math.pow(x, 2)] of
    [getBMI] computes, and the ke0 of the reference case. *)
Definition square : number -> number -> number := fun x _ => x * x.

Definition refKe0 : number -> number -> number -> number -> number -> number :=
  fun _ _ _ _ _ => 0.12.

Definition refParams : ThresholdParams :=
  {| targetReachTime := DEFAULT_TARGET_REACH_TIME;
     upperThresholdRatio := DEFAULT_UPPER_THRESHOLD_RATIO;
     reductionFactor := OPTIMIZED_REDUCTION_FACTOR;
     targetCe := 1.0 |}.

(** * The vocabulary of the properties *)

(** An entry of [allResults] records the simulation of its rate. *)
Definition candidateOf (patient : Patient) (pkParams : PKParameters)
           (bolusDoseMg target reach : number) (e : OptimizationEntry)
  : Prop :=
  simulateBolusAndContinuous patient pkParams bolusDoseMg (entry_rate e) reach
    = Some (entry_ceAtTarget e)
  /\ entry_error e = Math_abs (entry_ceAtTarget e - target).

(** What the scan keeps true of [bestRate], [bestError] and the entries
    pushed so far: no entry has an error below [bestError], and either
    the initial values are still there and no error has been below
    [Infinity], or they are the rate and error of an entry whose error is
    below that of every earlier entry with a number as its error. *)
Definition ScanInv (st : ScanState) : Prop :=
  let '(bestRate, bestError, res) := st in
  (forall e, In e res -> lt (entry_error e) bestError = false)
  /\ ((bestError = Infinity /\ bestRate = 1
       /\ forall e, In e res -> lt (entry_error e) Infinity = false)
      \/ (lt bestError Infinity = true
          /\ exists k e,
               nth_error res k = Some e
               /\ bestRate = entry_rate e /\ bestError = entry_error e
               /\ forall j e', (j < k)%nat -> nth_error res j = Some e' ->
                    isNaN (entry_error e') = false ->
                    lt bestError (entry_error e') = true)).

(** The time of step [i]. *)
Definition stepTime (i : nat) : number := of_nat i * timeStep.

(** The rate in force after the first [k] adjustments, and the time of
    the last of them. *)
Definition rateAfter (initialRate : number) (evs : list DosageAdjustment)
           (k : nat) : number :=
  last (map newRate (firstn k evs)) initialRate.

Definition timeAfter (evs : list DosageAdjustment) (k : nat) : number :=
  last (map adj_time (firstn k evs)) (- minimumInterval).

(** What the log says of its [k]-th entry (from 0): its number, the
    rates, the trigger that held, and the data point stored at the same
    step. *)
Definition EventAt (initialRate : number) (params : ThresholdParams)
           (evs : list DosageAdjustment) (samples : list DataPoint)
           (k : nat) (ev : DosageAdjustment) : Prop :=
  adj_adjustmentNumber ev = S k
  /\ oldRate ev = rateAfter initialRate evs k
  /\ newRate ev
     = Math_max MIN_INFUSION_RATE (oldRate ev * reductionFactor params)
  /\ gt (oldRate ev) MIN_INFUSION_RATE = true
  /\ ge (ceAtEvent ev) (upperThreshold params) = true
  /\ ge (adj_time ev - timeAfter evs k) minimumInterval = true
  /\ exists j dp,
       nth_error samples j = Some dp
       /\ adj_time ev = stepTime j
       /\ time dp = toFixed1 (adj_time ev)
       /\ infusionRate dp = newRate ev
       /\ adjustmentNumber dp = S k
       /\ ce dp = ceAtEvent ev.

(** What the series says of the data point of step [j]. *)
Definition SampleAt (initialRate : number) (params : ThresholdParams)
           (evs : list DosageAdjustment) (j : nat) (dp : DataPoint)
  : Prop :=
  time dp = toFixed1 (stepTime j)
  /\ (adjustmentNumber dp <= length evs)%nat
  /\ infusionRate dp = rateAfter initialRate evs (adjustmentNumber dp)
  /\ ((j < 1801)%nat -> adjustmentNumber dp = O ->
      ge (ce dp) (upperThreshold params) = true -> gt initialRate MIN_INFUSION_RATE = false).

(** What the loop keeps true of its variables after [n] steps. *)
Record RunInv (initialRate : number) (params : ThresholdParams)
       (n : nat) (st : LoopState) : Prop := {
  inv_length : length (ls_timeSeriesData st) = n;
  inv_count : ls_adjustmentCount st = length (ls_dosageAdjustments st);
  inv_rate :
    ls_currentRate st
    = rateAfter initialRate (ls_dosageAdjustments st)
                (length (ls_dosageAdjustments st));
  inv_time :
    ls_lastAdjustmentTime st
    = timeAfter (ls_dosageAdjustments st) (length (ls_dosageAdjustments st));
  inv_events :
    forall k ev, nth_error (ls_dosageAdjustments st) k = Some ev ->
                 EventAt initialRate params (ls_dosageAdjustments st)
                         (ls_timeSeriesData st) k ev;
  inv_samples :
    forall j dp, nth_error (ls_timeSeriesData st) j = Some dp ->
                 SampleAt initialRate params (ls_dosageAdjustments st) j dp;
  inv_monotone :
    forall j j' dp dp', (j <= j')%nat ->
      nth_error (ls_timeSeriesData st) j = Some dp ->
      nth_error (ls_timeSeriesData st) j' = Some dp' ->
      (adjustmentNumber dp <= adjustmentNumber dp')%nat
}.

(** The state in which the loop ends. *)
Definition finalState (patient : Patient) (pkParams : PKParameters)
           (bolusDoseMg initialRate : number) (params : ThresholdParams)
  : LoopState :=
  protocolLoop patient pkParams bolusDoseMg initialRate params 1801.

(** Tests on the result of a run, for the runs that are evaluated. *)
Definition someAdjustment (test : DosageAdjustment -> bool)
           (o : option SimulationResult) : bool :=
  match o with
  | Some r => existsb test (dosageAdjustments r)
  | None => false
  end.

Definition allAdjustments (test : DosageAdjustment -> bool)
           (o : option SimulationResult) : bool :=
  match o with
  | Some r => forallb test (dosageAdjustments r)
  | None => false
  end.

Definition someDataPoint (test : DataPoint -> bool)
           (o : option SimulationResult) : bool :=
  match o with
  | Some r => existsb test (timeSeriesData r)
  | None => false
  end.

Definition someAdjustmentAndDataPoint
           (test : DosageAdjustment -> DataPoint -> bool)
           (o : option SimulationResult) : bool :=
  match o with
  | Some r =>
      existsb (fun ev => existsb (test ev) (timeSeriesData r))
              (dosageAdjustments r)
  | None => false
  end.

(** A test on the result of a call of [calculateBolusProtocol] that
    returns. *)
Definition returnedWith (test : ProtocolResult -> bool)
           (o : Outcome ProtocolResult) : bool :=
  match o with
  | Returned r => test r
  | _ => false
  end.

(** The largest count a loop [for (let i = 0; i < n; i++)] reaches:
    2^53, from where [i++] returns [i]. *)
Definition countLimit : number := 9007199254740992.

(** A rate within the limits [MIN_INFUSION_RATE], [MAX_INFUSION_RATE]. *)
Definition withinLimits (rate : number) : Prop :=
  le MIN_INFUSION_RATE rate = true /\ le rate MAX_INFUSION_RATE = true.

(** [x === 0]: one of the two zeros. *)
Definition isZero (x : number) : bool :=
  match classify x with
  | PZero | NZero => true
  | _ => false
  end.

(** Neither NaN nor an infinity. *)
Definition isFinite (x : number) : bool :=
  match classify x with
  | FloatClass.NaN | PInf | NInf => false
  | _ => true
  end.

(** Neither NaN nor a zero. *)
Definition nonZero (x : number) : bool :=
  match classify x with
  | FloatClass.NaN | PZero | NZero => false
  | _ => true
  end.

Definition zeroState (s : SystemState) : bool :=
  isZero (a1 s) && isZero (a2 s) && isZero (a3 s).

(** The parameters of a patient model the integration can run on: the
    rate constants that multiply the masses, the equilibration constant
    and the weight are finite, and the central volume is a number other
    than zero. *)
Definition finiteModel (patient : Patient) (pk : PKParameters) : bool :=
  isFinite (getK10 pk + getK12 pk + getK13 pk)
  && isFinite (getK12 pk) && isFinite (getK21 pk)
  && isFinite (getK13 pk) && isFinite (getK31 pk)
  && isFinite (ke0 pk) && isFinite (weight patient)
  && nonZero (v1 pk).

(** What the closed loop keeps true of its variables when nothing is
    given. *)
Definition ZeroInv (rate : number) (st : LoopState) : Prop :=
  zeroState (ls_state st) = true
  /\ isZero (ls_currentCe st) = true
  /\ ls_currentRate st = rate
  /\ ls_dosageAdjustments st = []
  /\ forall dp, In dp (ls_timeSeriesData st) ->
       isZero (ce dp) = true /\ isZero (plasma dp) = true
       /\ infusionRate dp = rate.

(** The four checks of [validate]. *)
Definition idMissing (p : Patient) : bool :=
  (length (patientId p) =? 0)%nat
  || (length (trim (patientId p)) =? 0)%nat.

Definition ageOutOfRange (p : Patient) : bool :=
  lt (age p) 18 || gt (age p) 80.

Definition weightOutOfRange (p : Patient) : bool :=
  lt (weight p) 40.0 || gt (weight p) 120.0.

Definition bmiOutOfRange (Math_pow : number -> number -> number)
           (p : Patient) : bool :=
  lt (getBMI Math_pow p) 16.0 || gt (getBMI Math_pow p) 40.0.

(** What [k] shifts to the right keep of a mantissa [M]. *)
Definition ShiftInv (M : Z) (k : nat) (mrs : shr_record) : Prop :=
  (shr_m mrs = M / 2 ^ Z.of_nat k)%Z
  /\ (shr_r mrs || shr_s mrs = true -> (M mod 2 ^ Z.of_nat k)%Z <> 0%Z).

(** Every number of the list is less than the minimum interval below
    each of the 49 numbers that follow it. *)
Fixpoint closeSteps (ts : list number) : bool :=
  match ts with
  | [] => true
  | t :: rest =>
      forallb (fun t' => negb (ge (t' - t) minimumInterval)) (firstn 49 rest)
      && closeSteps rest
  end.

(** The test of the maintenance period, and the fallback values. *)
Definition inMaintenance (point : DataPoint) : bool := ge (time point) 60.

Definition noPerformance : PerformanceMetrics :=
  {| finalCe := 0; maxCe := 0; avgDeviation := Infinity;
     targetAccuracy := 0; stabilityIndex := 0; convergenceTime := Infinity |}.

(** The test of the convergence loop. *)
Definition converged (targetCe : number) (point : DataPoint) : bool :=
  le (Math_abs (ce point - targetCe)) (targetCe * 0.05).

(** The quotients for which the loop of [simulateBolusAndContinuous]
    makes no pass. *)
Definition noPass (targetTime : number) : Prop :=
  isNaN targetTime = true \/ isZero targetTime = true
  \/ (lt 0 (targetTime / TIME_STEP) = true
      /\ lt (targetTime / TIME_STEP) 1 = true).

(** An entry of [allResults] holds the error of its concentration and
    that error as a percentage of the target. *)
Definition entryOf (target : number) (e : OptimizationEntry) : Prop :=
  entry_error e = Math_abs (entry_ceAtTarget e - target)
  /\ entry_relativeError e = (entry_error e / target) * 100.

(** A row of the comparison is the optimization and the run of its
    dose. *)
Definition rowOf (p : Patient) (pk : PKParameters) (target : number)
           (params : ThresholdParams) (row : ComparisonEntry) : Prop :=
  exists opt sim,
    optimizeContinuousRate p pk (cmp_bolusDose row) target
                           (targetReachTime params) = Some opt
    /\ simulateCompleteProtocol p pk (cmp_bolusDose row) (optimalRate opt)
                                params = Some sim
    /\ cmp_optimalRate row = optimalRate opt
    /\ cmp_finalCe row = finalCe (performance sim)
    /\ cmp_targetAccuracy row = targetAccuracy (performance sim)
    /\ cmp_adjustmentCount row = length (dosageAdjustments sim)
    /\ cmp_recommendation row
       = getRecommendationLevel (performance sim)
                                (length (dosageAdjustments sim)).

(** A value the range check [x < lo || x > hi] lets through. *)
Definition accepted (x lo hi : number) : Prop :=
  isNaN x = true \/ (le lo x = true /\ le x hi = true).

(** The level of a score. *)
Definition levelOfScore (score : number) : Recommendation :=
  if ge score 90 then Recommended
  else if ge score 75 then Good
  else if ge score 60 then Acceptable
  else NeedsReview.

(** The level of a number of points within tolerance, out of 1201, the
    bonuses counted in points. *)
Definition levelOfPoints (points : nat) : Recommendation :=
  if (1081 <=? points)%nat then Recommended
  else if (901 <=? points)%nat then Good
  else if (721 <=? points)%nat then Acceptable
  else NeedsReview.

Definition sameLevel (a b : Recommendation) : bool :=
  match a, b with
  | Recommended, Recommended | Good, Good | Acceptable, Acceptable
  | NeedsReview, NeedsReview => true
  | _, _ => false
  end.

(** * The order of numbers *)

Module FloatOrder.

Definition cmp (x y : number) : option comparison :=
  SFcompare (Prim2SF x) (Prim2SF y).

Definition cmp_seq (c1 c2 : comparison) : comparison :=
  match c1, c2 with
  | Eq, Eq => Eq
  | _, _ => Lt
  end.

Ltac cases_compare :=
  repeat match goal with
    | H : context [Pos.compare_cont Eq ?a ?b] |- _ =>
        change (Pos.compare_cont Eq a b) with (Pos.compare a b) in H
    | |- context [Pos.compare_cont Eq ?a ?b] =>
        change (Pos.compare_cont Eq a b) with (Pos.compare a b)
    | H : context [Z.compare ?a ?b] |- _ => destruct (Z.compare_spec a b)
    | |- context [Z.compare ?a ?b] => destruct (Z.compare_spec a b)
    | H : context [Pos.compare ?a ?b] |- _ => destruct (Pos.compare_spec a b)
    | |- context [Pos.compare ?a ?b] => destruct (Pos.compare_spec a b)
    end.

Lemma SFcompare_antisym (x y : spec_float) :
  SFcompare y x = option_map CompOpp (SFcompare x y).
Proof.
  destruct x as [sx|sx| |sx mx ex], y as [sy|sy| |sy my ey];
    try destruct sx; try destruct sy; simpl; try reflexivity;
    cases_compare; simpl; try reflexivity; try lia.
Qed.

Lemma SFcompare_trans (x y z : spec_float) (c1 c2 : comparison) :
  SFcompare x y = Some c1 -> SFcompare y z = Some c2 ->
  c1 <> Gt -> c2 <> Gt ->
  SFcompare x z = Some (cmp_seq c1 c2).
Proof.
  intros H1 H2 N1 N2.
  destruct c1, c2; try congruence; clear N1 N2;
    destruct x as [sx|sx| |sx mx ex], y as [sy|sy| |sy my ey],
             z as [sz|sz| |sz mz ez];
    try destruct sx; try destruct sy; try destruct sz; simpl in *;
    try discriminate; try reflexivity;
    cases_compare; simpl in *; try discriminate; try reflexivity; try lia.
Qed.

Lemma SFcompare_refl (x : spec_float) :
  x <> S754_nan -> SFcompare x x = Some Eq.
Proof.
  destruct x as [sx|sx| |sx mx ex]; try destruct sx; simpl;
    try congruence; intros _;
    cases_compare; simpl; try reflexivity; try lia.
Qed.

Lemma SFcompare_nan (x y : spec_float) :
  x = S754_nan \/ y = S754_nan <-> SFcompare x y = None.
Proof.
  destruct x as [sx|sx| |sx mx ex], y as [sy|sy| |sy my ey];
    try destruct sx; try destruct sy; simpl;
    split; intros H; try discriminate; try tauto;
    destruct H; discriminate.
Qed.

Lemma lt_cmp (x y : number) : lt x y = true <-> cmp x y = Some Lt.
Proof.
  unfold lt, cmp. rewrite ltb_spec. unfold SFltb.
  destruct (SFcompare _ _) as [[]|]; split; congruence.
Qed.

Lemma le_cmp (x y : number) :
  le x y = true <-> cmp x y = Some Lt \/ cmp x y = Some Eq.
Proof.
  unfold le, cmp. rewrite leb_spec. unfold SFleb.
  destruct (SFcompare _ _) as [[]|]; split; intros H;
    try discriminate; try tauto; destruct H; discriminate.
Qed.

Lemma isNaN_spec (x : number) : isNaN x = true <-> Prim2SF x = S754_nan.
Proof.
  unfold isNaN, is_nan. rewrite FloatAxioms.eqb_spec. unfold SFeqb.
  split.
  - intros H. destruct (Prim2SF x) eqn:E; try reflexivity;
      rewrite SFcompare_refl in H by discriminate; discriminate.
  - intros ->. reflexivity.
Qed.

Lemma isNaN_false (x : number) : isNaN x = false <-> Prim2SF x <> S754_nan.
Proof.
  rewrite <- isNaN_spec. destruct (isNaN x); split; congruence.
Qed.

Lemma cmp_antisym (x y : number) : cmp y x = option_map CompOpp (cmp x y).
Proof. apply SFcompare_antisym. Qed.

Lemma cmp_total (x y : number) :
  isNaN x = false -> isNaN y = false -> exists c, cmp x y = Some c.
Proof.
  rewrite !isNaN_false. intros Hx Hy. unfold cmp.
  destruct (SFcompare (Prim2SF x) (Prim2SF y)) eqn:E; [eauto|].
  apply SFcompare_nan in E. tauto.
Qed.

Lemma cmp_not_nan (x y : number) (c : comparison) :
  cmp x y = Some c -> isNaN x = false /\ isNaN y = false.
Proof.
  intros H. rewrite !isNaN_false. split; intros E;
    assert (N : cmp x y = None)
      by (apply SFcompare_nan; auto);
    congruence.
Qed.

Lemma lt_not_nan (x y : number) :
  lt x y = true -> isNaN x = false /\ isNaN y = false.
Proof. rewrite lt_cmp. apply cmp_not_nan. Qed.

Lemma le_not_nan (x y : number) :
  le x y = true -> isNaN x = false /\ isNaN y = false.
Proof. rewrite le_cmp. intros [H|H]; eapply cmp_not_nan; eauto. Qed.

Lemma lt_irrefl (x : number) : lt x x = false.
Proof.
  destruct (lt x x) eqn:E; [|reflexivity].
  pose proof (lt_not_nan _ _ E) as [N _].
  apply lt_cmp in E. apply isNaN_false in N.
  unfold cmp in E. rewrite SFcompare_refl in E by assumption. discriminate.
Qed.

Lemma le_refl (x : number) : isNaN x = false -> le x x = true.
Proof.
  intros N. apply le_cmp. right. apply SFcompare_refl.
  now apply isNaN_false.
Qed.

Lemma lt_le (x y : number) : lt x y = true -> le x y = true.
Proof. rewrite lt_cmp, le_cmp. auto. Qed.

Lemma le_not_lt (x y : number) : le x y = true -> lt y x = false.
Proof.
  rewrite le_cmp. intros H.
  destruct (lt y x) eqn:E; [|reflexivity].
  apply lt_cmp in E. rewrite cmp_antisym in E.
  destruct H as [H|H]; rewrite H in E; discriminate.
Qed.

Lemma lt_not_le (x y : number) : lt x y = true -> le y x = false.
Proof.
  rewrite lt_cmp. intros H.
  destruct (le y x) eqn:E; [|reflexivity].
  apply le_cmp in E. rewrite cmp_antisym, H in E.
  destruct E; discriminate.
Qed.

Lemma not_lt_le (x y : number) :
  lt x y = false -> isNaN x = false -> isNaN y = false -> le y x = true.
Proof.
  intros H Nx Ny. destruct (cmp_total x y Nx Ny) as [c Hc].
  apply le_cmp. rewrite cmp_antisym, Hc.
  destruct c; simpl; auto.
  apply lt_cmp in Hc. congruence.
Qed.

Lemma not_le_lt (x y : number) :
  le x y = false -> isNaN x = false -> isNaN y = false -> lt y x = true.
Proof.
  intros H Nx Ny. destruct (cmp_total x y Nx Ny) as [c Hc].
  apply lt_cmp. rewrite cmp_antisym, Hc.
  destruct c; simpl; auto;
    assert (le x y = true) by (apply le_cmp; auto); congruence.
Qed.

Lemma lt_trans (x y z : number) :
  lt x y = true -> lt y z = true -> lt x z = true.
Proof.
  rewrite !lt_cmp. intros H1 H2.
  apply (SFcompare_trans _ _ _ _ _ H1 H2); discriminate.
Qed.

Lemma lt_le_trans (x y z : number) :
  lt x y = true -> le y z = true -> lt x z = true.
Proof.
  rewrite !lt_cmp, le_cmp. intros H1 [H2|H2];
    apply (SFcompare_trans _ _ _ _ _ H1 H2); discriminate.
Qed.

Lemma le_lt_trans (x y z : number) :
  le x y = true -> lt y z = true -> lt x z = true.
Proof.
  rewrite !lt_cmp, le_cmp. intros [H1|H1] H2;
    apply (SFcompare_trans _ _ _ _ _ H1 H2); discriminate.
Qed.

Lemma le_trans (x y z : number) :
  le x y = true -> le y z = true -> le x z = true.
Proof.
  rewrite !le_cmp. unfold cmp. intros [H1|H1] [H2|H2];
    pose proof (SFcompare_trans _ _ _ _ _ H1 H2) as H;
    simpl in H; rewrite H by discriminate; auto.
Qed.

(** Equal numbers compare equal, so a number below another differs
    from it. *)
Lemma lt_neq (x y : number) : lt x y = true -> x <> y.
Proof. intros H ->. rewrite lt_irrefl in H. discriminate. Qed.

End FloatOrder.

(** * Rounding: the product by a number that is at most one *)

Module FloatRounding.

Local Open Scope Z_scope.

Lemma digits2_pos_bounds (m : positive) :
  2 ^ (Zpos (digits2_pos m) - 1) <= Zpos m < 2 ^ Zpos (digits2_pos m).
Proof.
  induction m as [m IH|m IH|]; cbn [digits2_pos].
  - rewrite Pos2Z.inj_succ.
    replace (Z.succ (Zpos (digits2_pos m)) - 1) with (Z.succ (Zpos (digits2_pos m) - 1)) by lia.
    rewrite !Z.pow_succ_r by lia. lia.
  - rewrite Pos2Z.inj_succ.
    replace (Z.succ (Zpos (digits2_pos m)) - 1) with (Z.succ (Zpos (digits2_pos m) - 1)) by lia.
    rewrite !Z.pow_succ_r by lia. lia.
  - simpl. lia.
Qed.

(** A positive number below [2 ^ d] has at most [d] digits. *)
Lemma digits2_pos_le (m : positive) (d : Z) :
  Zpos m < 2 ^ d -> Zpos (digits2_pos m) <= d.
Proof.
  intros H. destruct (digits2_pos_bounds m) as [Hlo _].
  destruct (Z.le_gt_cases (Zpos (digits2_pos m)) d) as [|Hgt]; [assumption|].
  assert (2 ^ d <= 2 ^ (Zpos (digits2_pos m) - 1)).
  { apply Z.pow_le_mono_r; lia. }
  lia.
Qed.

Lemma iter_pos_nat {A : Type} (f : A -> A) (p : positive) (x : A) :
  iter_pos f p x = Nat.iter (Pos.to_nat p) f x.
Proof.
  revert x. induction p as [p IH|p IH|]; intros x; cbn [iter_pos].
  - rewrite !IH, Pos2Nat.inj_xI.
    replace (S (2 * Pos.to_nat p))%nat with (Pos.to_nat p + (Pos.to_nat p + 1))%nat by lia.
    rewrite !Nat.iter_add. reflexivity.
  - rewrite !IH, Pos2Nat.inj_xO.
    replace (2 * Pos.to_nat p)%nat with (Pos.to_nat p + Pos.to_nat p)%nat by lia.
    rewrite Nat.iter_add. reflexivity.
  - reflexivity.
Qed.

Lemma shr_1_m (mrs : shr_record) :
  0 <= shr_m mrs -> shr_m (shr_1 mrs) = shr_m mrs / 2.
Proof.
  destruct mrs as [m r s]. cbn [shr_m shr_1]. intros Hm.
  destruct m as [|[p|p|]|p]; cbn [shr_m]; try reflexivity; try lia.
  - rewrite Pos2Z.inj_xI. apply Z.div_unique with 1; lia.
  - rewrite Pos2Z.inj_xO. apply Z.div_unique with 0; lia.
Qed.

Lemma shr_1_r (mrs : shr_record) :
  0 <= shr_m mrs -> shr_r (shr_1 mrs) = Z.odd (shr_m mrs).
Proof.
  destruct mrs as [m r s]. cbn [shr_m shr_1]. intros Hm.
  destruct m as [|[p|p|]|p]; cbn [shr_r]; try reflexivity; lia.
Qed.

Lemma shr_1_s (mrs : shr_record) :
  shr_s (shr_1 mrs) = shr_r mrs || shr_s mrs.
Proof.
  destruct mrs as [m r s]. cbn [shr_1].
  destruct m as [|[p|p|]|[p|p|]]; reflexivity.
Qed.

Lemma ShiftInv_step (M : Z) (k : nat) (mrs : shr_record) :
  0 <= M -> ShiftInv M k mrs -> ShiftInv M (S k) (shr_1 mrs).
Proof.
  intros HM [Hm Hrs].
  assert (Hpos : 0 < 2 ^ Z.of_nat k) by (apply Z.pow_pos_nonneg; lia).
  assert (Hm0 : 0 <= shr_m mrs) by (rewrite Hm; apply Z.div_pos; lia).
  assert (Hpow : 2 ^ Z.of_nat (S k) = 2 ^ Z.of_nat k * 2).
  { rewrite Nat2Z.inj_succ, Z.pow_succ_r by lia. lia. }
  split.
  - rewrite shr_1_m, Hm, Hpow by assumption.
    rewrite Z.div_div by lia. reflexivity.
  - rewrite shr_1_r, shr_1_s by assumption. intros H Hdiv.
    rewrite Hpow in Hdiv.
    apply Z.mod_divide in Hdiv; [|lia]. destruct Hdiv as [q Hq].
    apply orb_prop in H. destruct H as [Hodd|Hold].
    + rewrite Hm in Hodd.
      replace M with (2 * q * 2 ^ Z.of_nat k) in Hodd by lia.
      rewrite Z.div_mul in Hodd by lia.
      rewrite Z.odd_mul in Hodd. discriminate.
    + apply Hrs; [assumption|].
      apply Z.mod_divide; [lia|]. exists (q * 2). lia.
Qed.

Lemma ShiftInv_iter (M : Z) (k : nat) :
  0 <= M ->
  ShiftInv M k (Nat.iter k shr_1 (Build_shr_record M false false)).
Proof.
  intros HM. induction k as [|k IH].
  - split; cbn; [rewrite Z.div_1_r; reflexivity|discriminate].
  - rewrite Nat.iter_succ. apply ShiftInv_step; assumption.
Qed.

(** The first component of [shr]: the mantissa is divided by [2 ^ n]
    when [n] is positive, and the record says whether that was exact. *)
Lemma shr_exact_spec (M e n : Z) :
  0 <= M ->
  let '(mrs, e') := shr (Build_shr_record M false false) e n in
  e' = e + Z.max 0 n
  /\ shr_m mrs = M / 2 ^ Z.max 0 n
  /\ (loc_of_shr_record mrs <> loc_Exact -> M mod 2 ^ Z.max 0 n <> 0).
Proof.
  intros HM. destruct n as [|p|p]; cbn [shr].
  - split; [lia|]. cbn. rewrite Z.div_1_r. split; [reflexivity|congruence].
  - rewrite iter_pos_nat.
    destruct (ShiftInv_iter M (Pos.to_nat p) HM) as [Hm Hrs].
    rewrite positive_nat_Z in Hm, Hrs.
    replace (Z.max 0 (Zpos p)) with (Zpos p) by lia.
    split; [reflexivity|]. split; [assumption|].
    intros Hloc. apply Hrs.
    destruct (Nat.iter (Pos.to_nat p) shr_1 _) as [m [|] [|]];
      cbn in *; congruence.
  - split; [lia|]. cbn. rewrite Z.div_1_r. split; [reflexivity|congruence].
Qed.

Lemma round_nearest_even_bounds (m : Z) (l : location) :
  m <= round_nearest_even m l <= m + 1
  /\ (l = loc_Exact -> round_nearest_even m l = m).
Proof.
  destruct l as [|[| |]]; cbn [round_nearest_even];
    try destruct (Z.even m); split; try lia; try reflexivity; discriminate.
Qed.

(** The rounding of a positive mantissa [M] at exponent [E]: the
    mantissas and exponents after the first shift and rounding, [m1] at
    [e1], and after the second shift, [m2] at [e2]. *)
Lemma binary_round_aux_exact_spec (s : bool) (M : positive) (E : Z) :
  exists m1 e1 m2 e2 : Z,
    e1 = E + Z.max 0 (fexp prec emax (Zpos (digits2_pos M) + E) - E)
    /\ 0 <= m1
    /\ m1 * 2 ^ (e1 - E) < Zpos M + 2 ^ (e1 - E)
    /\ e2 = e1 + Z.max 0 (fexp prec emax (Zdigits2 m1 + e1) - e1)
    /\ m2 = m1 / 2 ^ (e2 - e1)
    /\ binary_round_aux prec emax s (Zpos M) E loc_Exact
       = match m2 with
         | Z0 => S754_zero s
         | Zpos m => if e2 <=? emax - prec then S754_finite s m e2
                     else S754_infinity s
         | Zneg _ => S754_nan
         end.
Proof.
  unfold binary_round_aux, shr_fexp.
  cbn [shr_record_of_loc Zdigits2].
  set (n := fexp prec emax (Zpos (digits2_pos M) + E) - E).
  pose proof (shr_exact_spec (Zpos M) E n ltac:(lia)) as H1.
  destruct (shr _ E n) as [mrs1 e1].
  destruct H1 as (He1 & Hm1 & Hloc1).
  set (m1 := round_nearest_even (shr_m mrs1) (loc_of_shr_record mrs1)).
  assert (Hpow : 0 < 2 ^ Z.max 0 n) by (apply Z.pow_pos_nonneg; lia).
  assert (Hdiv : 0 <= Zpos M / 2 ^ Z.max 0 n) by (apply Z.div_pos; lia).
  destruct (round_nearest_even_bounds (shr_m mrs1) (loc_of_shr_record mrs1))
    as [Hb Hex].
  fold m1 in Hb, Hex.
  assert (Hm1pos : 0 <= m1) by lia.
  set (n2 := fexp prec emax (Zdigits2 m1 + e1) - e1).
  pose proof (shr_exact_spec m1 e1 n2 Hm1pos) as H2.
  destruct (shr _ e1 n2) as [mrs2 e2].
  destruct H2 as (He2 & Hm2 & _).
  exists m1, e1, (shr_m mrs2), e2.
  replace (e1 - E) with (Z.max 0 n) by lia.
  replace (e2 - e1) with (Z.max 0 n2) by lia.
  split; [assumption|]. split; [assumption|]. split.
  - pose proof (Z.div_mod (Zpos M) (2 ^ Z.max 0 n) ltac:(lia)) as Hdm.
    pose proof (Z.mod_pos_bound (Zpos M) (2 ^ Z.max 0 n) Hpow) as Hmod.
    destruct (loc_of_shr_record mrs1) eqn:Hl.
    + rewrite Hex, Hm1 by reflexivity. nia.
    + assert (Zpos M mod 2 ^ Z.max 0 n <> 0) by (apply Hloc1; discriminate).
      rewrite Hm1 in Hb. nia.
  - split; [assumption|]. split; [assumption|]. reflexivity.
Qed.

Lemma bounded_inv (m : positive) (e : Z) :
  bounded prec emax m e = true ->
  -1074 <= e <= 971 /\ Zpos (digits2_pos m) <= 53 /\ Zpos m < 2 ^ 53
  /\ Zpos (digits2_pos m) + e - 53 <= e.
Proof.
  unfold bounded, canonical_mantissa, fexp, SpecFloat.emin, prec, emax.
  intros H. apply andb_prop in H. destruct H as [Hc He].
  apply Z.eqb_eq in Hc. apply Z.leb_le in He.
  assert (Hd : Zpos (digits2_pos m) <= 53) by lia.
  repeat split; try lia.
  destruct (digits2_pos_bounds m) as [_ Hhi].
  apply Z.lt_le_trans with (2 ^ Zpos (digits2_pos m)); [assumption|].
  apply Z.pow_le_mono_r; lia.
Qed.

(** The rounded product of a positive number [mx * 2 ^ ex] by a number
    [my * 2 ^ ey] that is at most one is not above the first. *)
Lemma round_mul_le (mx my : positive) (ex ey : Z) :
  bounded prec emax mx ex = true ->
  ey <= 0 -> Zpos my <= 2 ^ (- ey) ->
  let r := binary_round_aux prec emax false (Zpos (mx * my)) (ex + ey)
                            loc_Exact in
  SFcompare (S754_finite false mx ex) r = Some Gt
  \/ SFcompare (S754_finite false mx ex) r = Some Eq.
Proof.
  intros Hx Hey Hmy r.
  destruct (bounded_inv mx ex Hx) as (Hex & Hdx & Hmx & Hcx).
  destruct (binary_round_aux_exact_spec false (mx * my) (ex + ey))
    as (m1 & e1 & m2 & e2 & He1 & Hm1 & Hlt & He2 & Hm2 & Hr).
  fold r in Hr.
  unfold fexp, SpecFloat.emin, prec, emax in He1, He2.
  rewrite Pos2Z.inj_mul in Hlt.
  set (dM := Zpos (digits2_pos (mx * my))) in *.
  destruct (digits2_pos_bounds mx) as [_ Hdxhi].
  assert (Hp : 0 < 2 ^ (- ey)) by (apply Z.pow_pos_nonneg; lia).
  (* the product is at most [mx * 2 ^ (- ey)] *)
  assert (HM : Zpos mx * Zpos my <= Zpos mx * 2 ^ (- ey)) by nia.
  assert (HdM : dM <= Zpos (digits2_pos mx) - ey).
  { apply digits2_pos_le. rewrite Pos2Z.inj_mul.
    replace (2 ^ (Zpos (digits2_pos mx) - ey))
      with (2 ^ Zpos (digits2_pos mx) * 2 ^ (- ey))
      by (rewrite <- Z.pow_add_r by lia; f_equal; lia).
    nia. }
  assert (He1x : e1 <= ex) by lia.
  assert (He1E : ex + ey <= e1) by lia.
  assert (He1min : -1074 <= e1) by lia.
  (* after the first rounding *)
  assert (Hsplit : 2 ^ (- ey) = 2 ^ (ex - e1) * 2 ^ (e1 - (ex + ey))).
  { rewrite <- Z.pow_add_r by lia. f_equal. lia. }
  assert (Hq : 0 < 2 ^ (e1 - (ex + ey))) by (apply Z.pow_pos_nonneg; lia).
  assert (Hq' : 0 < 2 ^ (ex - e1)) by (apply Z.pow_pos_nonneg; lia).
  assert (Hm1x : m1 <= Zpos mx * 2 ^ (ex - e1)).
  { rewrite Hsplit in HM.
    assert (m1 * 2 ^ (e1 - (ex + ey))
            < (Zpos mx * 2 ^ (ex - e1) + 1) * 2 ^ (e1 - (ex + ey))) by nia.
    apply Z.mul_lt_mono_pos_r in H; [lia|assumption]. }
  assert (He2x : e1 <= e2 <= ex).
  { destruct m1 as [|p1|p1]; cbn [Zdigits2] in He2; [lia| |lia].
    assert (Zpos (digits2_pos p1) <= Zpos (digits2_pos mx) + ex - e1).
    { apply digits2_pos_le.
      apply Z.le_lt_trans with (Zpos mx * 2 ^ (ex - e1)); [assumption|].
      replace (2 ^ (Zpos (digits2_pos mx) + ex - e1))
        with (2 ^ Zpos (digits2_pos mx) * 2 ^ (ex - e1))
        by (rewrite <- Z.pow_add_r by lia; f_equal; lia).
      nia. }
    lia. }
  assert (Hq2 : 0 < 2 ^ (e2 - e1)) by (apply Z.pow_pos_nonneg; lia).
  assert (Hm2pos : 0 <= m2) by (rewrite Hm2; apply Z.div_pos; lia).
  rewrite Hr.
  destruct m2 as [|p2|p2]; [left; reflexivity| |lia].
  replace (e2 <=? emax - prec) with true
    by (symmetry; apply Z.leb_le; unfold emax, prec; lia).
  cbn [SFcompare].
  destruct (Z.compare_spec ex e2) as [Heq|Hl|Hg]; [|lia|left; reflexivity].
  change (Pos.compare_cont Eq mx p2) with (Pos.compare mx p2).
  destruct (Pos.compare_spec mx p2) as [Hme|Hml|Hmg];
    [right; reflexivity| |left; reflexivity].
  exfalso.
  assert (Zpos p2 <= Zpos mx); [|lia].
  rewrite Hm2. apply Z.div_le_upper_bound; [assumption|].
  rewrite Heq in Hm1x. rewrite Z.mul_comm. exact Hm1x.
Qed.

Lemma binary_round_aux_shape (s : bool) (M : positive) (E : Z) :
  let r := binary_round_aux prec emax s (Zpos M) E loc_Exact in
  r = S754_zero s \/ (exists m e, r = S754_finite s m e)
  \/ r = S754_infinity s.
Proof.
  intros r.
  destruct (binary_round_aux_exact_spec s M E)
    as (m1 & e1 & m2 & e2 & He1 & Hm1 & Hlt & He2 & Hm2 & Hr).
  fold r in Hr. rewrite Hr.
  assert (0 <= m2).
  { rewrite Hm2. apply Z.div_pos; [assumption|].
    apply Z.pow_pos_nonneg; lia. }
  destruct m2 as [|p|p]; [auto| |lia].
  destruct (e2 <=? emax - prec); eauto.
Qed.

Lemma Prim2SF_zero : Prim2SF 0%float = S754_zero false.
Proof. reflexivity. Qed.

Lemma Prim2SF_one :
  Prim2SF 1%float = S754_finite false 4503599627370496 (-52).
Proof. vm_compute. reflexivity. Qed.

Lemma Prim2SF_infinity : Prim2SF infinity = S754_infinity false.
Proof. reflexivity. Qed.

(** A number that is at most one, as a mantissa and an exponent; the
    mantissa [mo] of one is [2 ^ 52], at the exponent [-52]. *)
Lemma at_most_one_inv (my mo : positive) (ey : Z) (c : comparison) :
  bounded prec emax my ey = true ->
  Zpos mo = 2 ^ 52 ->
  SFcompare (S754_finite false my ey) (S754_finite false mo (-52)) = Some c ->
  c <> Gt ->
  ey <= 0 /\ Zpos my <= 2 ^ (- ey).
Proof.
  intros Hb Hmo Hc Hn. destruct (bounded_inv my ey Hb) as (He & Hd & Hm & _).
  cbn [SFcompare] in Hc.
  change (Pos.compare_cont Eq my mo) with (Pos.compare my mo) in Hc.
  destruct (Z.compare_spec ey (-52)) as [->|Hl|Hg].
  - change (2 ^ (- (-52))) with (2 ^ 52).
    destruct (Pos.compare_spec my mo) as [->|Hl|Hg]; [lia|lia|congruence].
  - split; [lia|].
    apply Z.le_trans with (2 ^ 53); [lia|].
    apply Z.pow_le_mono_r; lia.
  - congruence.
Qed.

Lemma SFmul_at_most_one (X Y : spec_float) (mo : positive) (c : comparison) :
  valid_binary X = true -> valid_binary Y = true ->
  Zpos mo = 2 ^ 52 ->
  SFcompare (S754_zero false) X = Some Lt ->
  SFcompare Y (S754_finite false mo (-52)) = Some c ->
  c <> Gt ->
  SFcompare X (SF64mul X Y) <> Some Lt
  /\ (X <> S754_infinity false ->
      SFcompare X (SF64mul X Y) = Some Gt
      \/ SFcompare X (SF64mul X Y) = Some Eq).
Proof.
  intros HX HY Hmo Hpos Hc Hn.
  destruct X as [sx|sx| |sx mx ex]; try discriminate;
    destruct sx; try discriminate.
  - (* x = +Infinity *)
    split; [|congruence].
    destruct Y as [sy|sy| |sy my ey]; try discriminate;
      try destruct sy; cbn [SF64mul SFmul xorb SFcompare] in *; congruence.
  - (* x finite and positive *)
    assert (G : SFcompare (S754_finite false mx ex)
                          (SF64mul (S754_finite false mx ex) Y) = Some Gt
                \/ SFcompare (S754_finite false mx ex)
                             (SF64mul (S754_finite false mx ex) Y) = Some Eq).
    { destruct Y as [sy|sy| |sy my ey]; try discriminate.
      - left. destruct sy; reflexivity.
      - destruct sy; [left; reflexivity|].
        cbn [SFcompare] in Hc. congruence.
      - destruct sy.
        + left. unfold SF64mul, SFmul. cbn [xorb].
          destruct (binary_round_aux_shape true (mx * my) (ex + ey))
            as [->|[(m & e & ->)| ->]]; reflexivity.
        + destruct (at_most_one_inv my mo ey c HY Hmo Hc Hn) as [Hey Hmy].
          exact (round_mul_le mx my ex ey HX Hey Hmy). }
    split; [|intros _; exact G].
    destruct G as [-> | ->]; discriminate.
Qed.

End FloatRounding.

Import FloatOrder.

(** * Products and maxima of numbers *)

Lemma two_pow_52 : Zpos 4503599627370496 = (2 ^ 52)%Z.
Proof. vm_compute. reflexivity. Qed.

(** The product of a positive number by a number that is at most one is
    not above it. *)
Lemma mul_not_above (x y : number) :
  lt 0 x = true -> le y 1 = true -> lt x (x * y) = false.
Proof.
  intros Hx Hy. apply lt_cmp in Hx. apply le_cmp in Hy.
  unfold cmp in Hx, Hy.
  rewrite FloatRounding.Prim2SF_zero in Hx.
  rewrite FloatRounding.Prim2SF_one in Hy.
  destruct (lt x (x * y)) eqn:E; [|reflexivity].
  apply lt_cmp in E. unfold cmp in E. rewrite mul_spec in E.
  assert (Hc : exists c, SFcompare (Prim2SF y)
                           (S754_finite false 4503599627370496 (-52))
                         = Some c /\ c <> Gt)
    by (destruct Hy as [Hy|Hy]; eexists; (split; [exact Hy|discriminate])).
  destruct Hc as (c & Hc & Hn).
  destruct (FloatRounding.SFmul_at_most_one
              (Prim2SF x) (Prim2SF y) _ c
              (Prim2SF_valid x) (Prim2SF_valid y) two_pow_52 Hx Hc Hn)
    as [H _].
  congruence.
Qed.

(** When the positive number is finite, the product is a number and is
    at most it. *)
Lemma mul_le_self (x y : number) :
  lt 0 x = true -> lt x Infinity = true -> le y 1 = true ->
  le (x * y) x = true.
Proof.
  intros Hx Hfin Hy.
  assert (Hninf : Prim2SF x <> S754_infinity false).
  { intros E. apply lt_cmp in Hfin. unfold cmp in Hfin.
    rewrite E in Hfin. discriminate. }
  apply lt_cmp in Hx. apply le_cmp in Hy. unfold cmp in Hx, Hy.
  rewrite FloatRounding.Prim2SF_zero in Hx.
  rewrite FloatRounding.Prim2SF_one in Hy.
  apply le_cmp. rewrite cmp_antisym. unfold cmp. rewrite mul_spec.
  assert (Hc : exists c, SFcompare (Prim2SF y)
                           (S754_finite false 4503599627370496 (-52))
                         = Some c /\ c <> Gt)
    by (destruct Hy as [Hy|Hy]; eexists; (split; [exact Hy|discriminate])).
  destruct Hc as (c & Hc & Hn).
  destruct (FloatRounding.SFmul_at_most_one
              (Prim2SF x) (Prim2SF y) _ c
              (Prim2SF_valid x) (Prim2SF_valid y) two_pow_52 Hx Hc Hn)
    as [_ H].
  destruct (H Hninf) as [-> | ->]; simpl; auto.
Qed.

Lemma lt_NaN_r (x : number) : lt x NaN = false.
Proof.
  destruct (lt x NaN) eqn:E; [|reflexivity].
  apply lt_not_nan in E. destruct E as [_ E]. discriminate.
Qed.

Lemma lt_NaN_l (x y : number) : isNaN x = true -> lt x y = false.
Proof.
  intros H. destruct (lt x y) eqn:E; [|reflexivity].
  apply lt_not_nan in E. destruct E. congruence.
Qed.

(** What a range check [x < lo || x > hi] lets through: the numbers of
    the range, and NaN. *)
Lemma range_check (x lo hi : number) :
  isNaN lo = false -> isNaN hi = false ->
  (lt x lo || gt x hi = false <-> accepted x lo hi).
Proof.
  intros Nlo Nhi. unfold accepted, gt. rewrite orb_false_iff. split.
  - intros [H1 H2]. destruct (isNaN x) eqn:Nx; [left; reflexivity|right].
    split; apply not_lt_le; assumption.
  - intros [N|[H1 H2]].
    + split; [now apply lt_NaN_l|].
      destruct (lt hi x) eqn:E; [|exact E].
      apply lt_not_nan in E. destruct E as [_ E]. congruence.
    + split; now apply le_not_lt.
Qed.

(** [Math.max] returns one of its arguments or NaN, and NaN only for an
    argument that is NaN. *)
Lemma Math_max_cases (x y : number) :
  (Math_max x y = NaN /\ (isNaN x = true \/ isNaN y = true))
  \/ (isNaN x = false /\ isNaN y = false
      /\ ((Math_max x y = y /\ le x y = true)
          \/ (Math_max x y = x /\ le y x = true))).
Proof.
  unfold Math_max.
  destruct (isNaN x) eqn:Nx; [left; auto|].
  destruct (isNaN y) eqn:Ny; [left; auto|].
  right. split; [reflexivity|]. split; [reflexivity|]. cbn [orb].
  destruct (lt x y) eqn:Hxy; [left; split; [reflexivity|now apply lt_le]|].
  destruct (lt y x) eqn:Hyx; [right; split; [reflexivity|now apply lt_le]|].
  destruct (classify x);
    solve [right; split; [reflexivity|now apply not_lt_le]
          |left; split; [reflexivity|now apply not_lt_le]].
Qed.

(** What is not below both arguments is not below their maximum. *)
Lemma Math_max_not_above (z x y : number) :
  lt z x = false -> lt z y = false -> lt z (Math_max x y) = false.
Proof.
  intros Hx Hy.
  destruct (Math_max_cases x y)
    as [[-> _]|(_ & _ & [[-> _]|[-> _]])]; auto using lt_NaN_r.
Qed.

Lemma Math_max_le (z x y : number) :
  le x z = true -> le y z = true -> le (Math_max x y) z = true.
Proof.
  intros Hx Hy.
  destruct (Math_max_cases x y)
    as [[_ [N|N]]|(_ & _ & [[-> _]|[-> _]])]; auto.
  - apply le_not_nan in Hx. destruct Hx. congruence.
  - apply le_not_nan in Hy. destruct Hy. congruence.
Qed.

Lemma Math_max_ge_l (x y : number) :
  isNaN x = false -> isNaN y = false -> le x (Math_max x y) = true.
Proof.
  intros Nx Ny.
  destruct (Math_max_cases x y)
    as [[_ [N|N]]|(_ & _ & [[-> H]|[-> _]])]; try congruence.
  now apply le_refl.
Qed.

(** * The candidate grid of the optimizer *)

(** The loop that builds [testRates] ends by itself, after 37 rates. *)
Lemma scanRates_returns :
  scanRates 64 OPTIMIZATION_MIN_RATE = Some testRates
  /\ scanRates 38 OPTIMIZATION_MIN_RATE = Some testRates.
Proof. split; vm_compute; reflexivity. Qed.

Lemma testRates_below_max :
  forallb (fun r => lt r OPTIMIZATION_MAX_RATE) testRates = true.
Proof. vm_compute. reflexivity. Qed.

(** C4, on the code: the candidates are built by repeated addition of
    the step, 37 of them; the first is 0.3, all of them are below 4.0,
    so the upper end 4.0 of the grid is never scanned, and they are not
    the rates [0.3 + i * 0.1] of the grid by index, which does end
    at 4.0. *)
Theorem testRates_skips_max_rate :
  length testRates = 37%nat
  /\ hd_error testRates = Some OPTIMIZATION_MIN_RATE
  /\ (forall r, In r testRates -> lt r OPTIMIZATION_MAX_RATE = true)
  /\ ~ In OPTIMIZATION_MAX_RATE testRates
  /\ length indexGrid = 38%nat
  /\ last indexGrid 0 = OPTIMIZATION_MAX_RATE
  /\ testRates <> indexGrid.
Proof.
  assert (B : forall r, In r testRates -> lt r OPTIMIZATION_MAX_RATE = true).
  { apply forallb_forall. exact testRates_below_max. }
  repeat split.
  - exact B.
  - intros H. apply B in H. rewrite lt_irrefl in H. discriminate.
  - intros H. apply (f_equal (@length number)) in H.
    vm_compute in H. discriminate.
Qed.

(** * The grid search of [optimizeContinuousRate] *)

Section GridSearch.

Variable patient : Patient.
Variable pkParams : PKParameters.
Variables bolusDoseMg target reach : number.

Lemma ScanInv_initial : ScanInv (1, Infinity, []).
Proof.
  split; [intros e []|]. left. repeat split. intros e [].
Qed.

Lemma scanStep_results (st : ScanState) (rate ceAtTarget : number) :
  snd (scanStep target st rate ceAtTarget)
  = snd st ++ [{| entry_rate := rate;
                  entry_ceAtTarget := ceAtTarget;
                  entry_error := Math_abs (ceAtTarget - target);
                  entry_relativeError :=
                    (Math_abs (ceAtTarget - target) / target) * 100 |}].
Proof.
  destruct st as [[bestRate bestError] res]. unfold scanStep.
  destruct (lt _ bestError); reflexivity.
Qed.

Lemma ScanInv_step (st : ScanState) (rate ceAtTarget : number) :
  ScanInv st -> ScanInv (scanStep target st rate ceAtTarget).
Proof.
  destruct st as [[bestRate bestError] res]. unfold scanStep.
  set (err := Math_abs (ceAtTarget - target)).
  set (new := {| entry_rate := rate; entry_ceAtTarget := ceAtTarget;
                 entry_error := err;
                 entry_relativeError := (err / target) * 100 |}).
  intros [Hmin Hbest].
  destruct (lt err bestError) eqn:Hlt.
  - (* the incumbent is replaced *)
    pose proof (lt_not_nan _ _ Hlt) as [_ NbestError].
    assert (Hbelow : lt err Infinity = true).
    { destruct Hbest as [(-> & _)|(Hinf & _)]; [assumption|].
      eapply lt_trans; eassumption. }
    split.
    + intros e [He| [<- | []]]%in_app_or.
      * destruct (lt (entry_error e) err) eqn:E; [|reflexivity].
        rewrite <- (Hmin e He). symmetry. eapply lt_trans; eassumption.
      * apply lt_irrefl.
    + right. split; [assumption|].
      exists (length res), new.
      split; [|split; [reflexivity|split; [reflexivity|]]].
      * rewrite nth_error_app2, Nat.sub_diag by lia. reflexivity.
      * intros j e' Hj He' Ne'.
        rewrite nth_error_app1 in He' by assumption.
        apply nth_error_In in He'.
        apply lt_le_trans with bestError; [assumption|].
        apply not_lt_le; auto.
  - (* the incumbent is kept *)
    split.
    + intros e [He| [<- | []]]%in_app_or; auto.
    + destruct Hbest as [(-> & -> & Hall)|(Hinf & k & e & Hk & Hr & He & Hfirst)].
      * left. repeat split.
        intros e [He| [<- | []]]%in_app_or; auto.
      * right. split; [assumption|]. exists k, e.
        assert (Hklt : (k < length res)%nat)
          by (apply nth_error_Some; congruence).
        repeat split; auto.
        -- rewrite nth_error_app1 by assumption. assumption.
        -- intros j e' Hj He' Ne'.
           rewrite nth_error_app1 in He' by lia. eauto.
Qed.

Lemma simulate_returns (n : nat) (rate : number) :
  for_count (Math_floor (reach / timeStep)) = Some n ->
  exists c,
    simulateBolusAndContinuous patient pkParams bolusDoseMg rate reach = Some c.
Proof.
  intros Hn. unfold simulateBolusAndContinuous. rewrite Hn. eauto.
Qed.

Lemma scan_returns (n : nat) (rates : list number) (st : ScanState) :
  for_count (Math_floor (reach / timeStep)) = Some n ->
  ScanInv st -> Forall (candidateOf patient pkParams bolusDoseMg target reach) (snd st) ->
  exists st',
    scan patient pkParams bolusDoseMg target reach rates st = Some st'
    /\ ScanInv st' /\ Forall (candidateOf patient pkParams bolusDoseMg target reach) (snd st')
    /\ map entry_rate (snd st') = map entry_rate (snd st) ++ rates.
Proof.
  intros Hn. revert st.
  induction rates as [|rate rest IH]; intros st Hinv Hcand; simpl.
  - exists st. rewrite app_nil_r. auto.
  - destruct (simulate_returns n rate Hn) as [c Hc]. rewrite Hc.
    destruct (IH (scanStep target st rate c)) as (st' & Hs & Hi & Hf & Hm).
    + now apply ScanInv_step.
    + rewrite scanStep_results. apply Forall_app. split; [assumption|].
      constructor; [|constructor]. split; [exact Hc|reflexivity].
    + exists st'. repeat split; try assumption.
      rewrite Hm, scanStep_results, map_app. simpl.
      rewrite <- app_assoc. reflexivity.
Qed.

End GridSearch.

(** C1, as the code has it. A call whose simulation loop ends returns;
    its [allResults] are the simulations of the scanned rates, in order,
    and none of them has an error below the returned one. If some
    candidate has an error below [Infinity], the returned rate is a
    scanned candidate, its error is at most every candidate error that
    is a number, and it is strictly below the error of every such
    candidate scanned before it (the first of the minimal ones). If no
    candidate has an error below [Infinity], the initial rate 1.0 is
    returned with the error [Infinity]. *)
Theorem optimizeContinuousRate_grid_optimum
        (patient : Patient) (pkParams : PKParameters)
        (bolusDoseMg target reach : number) (n : nat) :
  for_count (Math_floor (reach / timeStep)) = Some n ->
  exists r,
    optimizeContinuousRate patient pkParams bolusDoseMg target reach = Some r
    /\ map entry_rate (allResults r) = testRates
    /\ Forall (candidateOf patient pkParams bolusDoseMg target reach)
              (allResults r)
    /\ (forall e, In e (allResults r) ->
                  lt (entry_error e) (opt_error r) = false)
    /\ ((exists e, In e (allResults r) /\ lt (entry_error e) Infinity = true) ->
        In (optimalRate r) testRates
        /\ exists k e,
             nth_error (allResults r) k = Some e
             /\ optimalRate r = entry_rate e /\ opt_error r = entry_error e
             /\ (forall e', In e' (allResults r) ->
                            isNaN (entry_error e') = false ->
                            le (opt_error r) (entry_error e') = true)
             /\ (forall j e', (j < k)%nat ->
                              nth_error (allResults r) j = Some e' ->
                              isNaN (entry_error e') = false ->
                              lt (opt_error r) (entry_error e') = true))
    /\ ((forall e, In e (allResults r) -> lt (entry_error e) Infinity = false) ->
        optimalRate r = 1 /\ opt_error r = Infinity).
Proof.
  intros Hn.
  destruct (scan_returns patient pkParams bolusDoseMg target reach n testRates
              (1, Infinity, []) Hn (ScanInv_initial) (Forall_nil _))
    as ([[bestRate bestError] res] & Hs & [Hmin Hbest] & Hf & Hm).
  simpl in Hf, Hm.
  destruct (simulate_returns patient pkParams bolusDoseMg reach n bestRate Hn)
    as [c Hc].
  unfold optimizeContinuousRate. rewrite Hs, Hc.
  eexists. split; [reflexivity|].
  cbn [optimalRate opt_error allResults].
  split; [assumption|]. split; [assumption|]. split; [assumption|].
  destruct Hbest as [(-> & -> & Hall)|(Hinf & k & e & Hk & Hr & He & Hfirst)].
  - split; [|auto].
    intros (e & He & Hlt). rewrite (Hall e He) in Hlt. discriminate.
  - split.
    + intros _. split.
      * rewrite <- Hm, Hr. apply in_map. eapply nth_error_In; eassumption.
      * exists k, e. repeat split; auto.
        intros e' He' Ne'. apply not_lt_le; auto.
        now apply (lt_not_nan _ _ Hinf).
    + intros Hall. apply nth_error_In in Hk.
      specialize (Hall e Hk). rewrite <- He, Hinf in Hall. discriminate.
Qed.

(** The theorem at the reference case: bolus 7 mg, target 1.0, 20 min. *)
Lemma optimizeContinuousRate_grid_optimum_witness :
  exists r,
    optimizeContinuousRate refPatient refPK 7 1 20 = Some r
    /\ map entry_rate (allResults r) = testRates
    /\ In (optimalRate r) testRates.
Proof.
  destruct (optimizeContinuousRate_grid_optimum refPatient refPK 7 1 20 200)
    as (r & Hr & Hm & Hc & Hmin & Hsome & Hnone).
  - vm_compute. reflexivity.
  - exists r. split; [exact Hr|]. split; [exact Hm|].
    apply Hsome.
    assert (E : optimizeContinuousRate refPatient refPK 7 1 20
                = Some r) by exact Hr.
    vm_compute in E. injection E as <-.
    eexists. split; [left; reflexivity|]. vm_compute. reflexivity.
Defined.

(** C1 as stated fails: with a target that is not a number (an empty
    target field read by [parseFloat]) every error is NaN, none is below
    [Infinity], and the rate returned is the initial 1.0, which is not
    among the scanned candidates; nor is the returned error at most the
    candidates' errors. *)
Lemma optimizeContinuousRate_default_off_grid :
  exists r,
    optimizeContinuousRate refPatient refPK 7 NaN 20 = Some r
    /\ optimalRate r = 1
    /\ ~ In (optimalRate r) testRates
    /\ forall e, In e (allResults r) -> le (opt_error r) (entry_error e) = false.
Proof.
  assert (B : forallb (fun x => negb (x =? 1)) testRates = true)
    by (vm_compute; reflexivity).
  destruct (optimizeContinuousRate refPatient refPK 7 NaN 20) as [r|] eqn:E;
    [|vm_compute in E; discriminate].
  exists r. split; [reflexivity|].
  vm_compute in E. injection E as <-. simpl.
  split; [reflexivity|]. split.
  - intros H. rewrite forallb_forall in B. apply B in H.
    vm_compute in H. discriminate.
  - intros e He.
    repeat (destruct He as [<-|He]; [vm_compute; reflexivity|]).
    destruct He.
Qed.

(** * The run of [simulateCompleteProtocol] *)

Lemma numSteps_count : for_count numSteps = Some 1801%nat.
Proof. vm_compute. reflexivity. Qed.

Lemma stepTime_increasing_next :
  forallb (fun i => lt (stepTime i) (stepTime (S i))) (seq 0 1800) = true.
Proof. vm_compute. reflexivity. Qed.

Lemma stepTime_first_eligible :
  forallb (fun i => ge (stepTime i - - minimumInterval) minimumInterval)
          (seq 0 1801) = true.
Proof. vm_compute. reflexivity. Qed.

Lemma stepTime_tenths :
  forallb (fun i => Leibniz.eqb (toFixed1 (stepTime i)) (of_nat i / 10))
          (seq 0 1801) = true.
Proof. vm_compute. reflexivity. Qed.

(** Times grow with the steps, up to the horizon. *)
Lemma stepTime_increasing (i j : nat) :
  (i < j)%nat -> (j <= 1800)%nat -> lt (stepTime i) (stepTime j) = true.
Proof.
  intros Hij Hj.
  assert (Hnext : forall k, (k < 1800)%nat ->
                            lt (stepTime k) (stepTime (S k)) = true).
  { intros k Hk.
    apply (proj1 (forallb_forall _ _) stepTime_increasing_next).
    apply in_seq. lia. }
  induction Hij as [|j Hij IH].
  - apply Hnext. lia.
  - apply lt_trans with (stepTime j); [apply IH; lia|apply Hnext; lia].
Qed.

Lemma rateAfter_app (initialRate : number) (evs : list DosageAdjustment)
      (ev : DosageAdjustment) (k : nat) :
  (k <= length evs)%nat ->
  rateAfter initialRate (evs ++ [ev]) k = rateAfter initialRate evs k.
Proof.
  intros Hk. unfold rateAfter. rewrite firstn_app.
  replace (k - length evs)%nat with O by lia.
  rewrite firstn_O, app_nil_r. reflexivity.
Qed.

Lemma rateAfter_snoc (initialRate : number) (evs : list DosageAdjustment)
      (ev : DosageAdjustment) :
  rateAfter initialRate (evs ++ [ev]) (S (length evs)) = newRate ev.
Proof.
  unfold rateAfter. rewrite firstn_all2 by (rewrite length_app; simpl; lia).
  rewrite map_app. simpl. apply last_last.
Qed.

Lemma timeAfter_app (evs : list DosageAdjustment) (ev : DosageAdjustment)
      (k : nat) :
  (k <= length evs)%nat -> timeAfter (evs ++ [ev]) k = timeAfter evs k.
Proof.
  intros Hk. unfold timeAfter. rewrite firstn_app.
  replace (k - length evs)%nat with O by lia.
  rewrite firstn_O, app_nil_r. reflexivity.
Qed.

Lemma timeAfter_snoc (evs : list DosageAdjustment) (ev : DosageAdjustment) :
  timeAfter (evs ++ [ev]) (S (length evs)) = adj_time ev.
Proof.
  unfold timeAfter. rewrite firstn_all2 by (rewrite length_app; simpl; lia).
  rewrite map_app. simpl. apply last_last.
Qed.

Section RunInvariant.

Variable patient : Patient.
Variable pkParams : PKParameters.
Variables bolusDoseMg initialRate : number.
Variable params : ThresholdParams.

Lemma protocolLoop_S (n : nat) :
  protocolLoop patient pkParams bolusDoseMg initialRate params (S n)
  = protocolStep patient pkParams params
      (protocolLoop patient pkParams bolusDoseMg initialRate params n) n.
Proof.
  unfold protocolLoop. rewrite seq_S, fold_left_app. reflexivity.
Qed.

Lemma RunInv_initial :
  RunInv initialRate params 0 (initialLoopState pkParams bolusDoseMg initialRate).
Proof.
  constructor; cbn [initialLoopState ls_timeSeriesData ls_dosageAdjustments
                    ls_adjustmentCount ls_currentRate ls_lastAdjustmentTime];
    try reflexivity.
  - intros [|k] ev H; discriminate.
  - intros [|j] dp H; discriminate.
  - intros [|j] j' dp dp' _ H; discriminate.
Qed.

Lemma nth_error_snoc {A : Type} (l : list A) (a x : A) (j : nat) :
  nth_error (l ++ [a]) j = Some x ->
  ((j < length l)%nat /\ nth_error l j = Some x) \/ (j = length l /\ x = a).
Proof.
  intros H. destruct (Nat.lt_ge_cases j (length l)) as [Hj|Hj].
  - left. rewrite nth_error_app1 in H by assumption. auto.
  - right. rewrite nth_error_app2 in H by assumption.
    destruct (j - length l)%nat as [|d] eqn:E.
    + simpl in H. injection H as <-. split; [lia|reflexivity].
    + simpl in H. destruct d; discriminate.
Qed.

Lemma EventAt_more_samples (evs : list DosageAdjustment)
      (samples : list DataPoint) (dp : DataPoint) (k : nat)
      (ev : DosageAdjustment) :
  EventAt initialRate params evs samples k ev -> EventAt initialRate params evs (samples ++ [dp]) k ev.
Proof.
  intros (H1 & H2 & H3 & H4 & H5 & H6 & j & dp0 & Hj & H7).
  repeat (split; [assumption|]).
  exists j, dp0. split; [|assumption].
  rewrite nth_error_app1; [assumption|].
  apply nth_error_Some. congruence.
Qed.

Lemma EventAt_more_events (evs : list DosageAdjustment)
      (samples : list DataPoint) (new : DosageAdjustment) (k : nat)
      (ev : DosageAdjustment) :
  (k <= length evs)%nat ->
  EventAt initialRate params evs samples k ev -> EventAt initialRate params (evs ++ [new]) samples k ev.
Proof.
  intros Hk (H1 & H2 & H3 & H4 & H5 & H6 & H7).
  unfold EventAt. rewrite rateAfter_app, timeAfter_app by assumption.
  repeat (split; [assumption|]). assumption.
Qed.

Lemma SampleAt_more_events (evs : list DosageAdjustment)
      (new : DosageAdjustment) (j : nat) (dp : DataPoint) :
  SampleAt initialRate params evs j dp -> SampleAt initialRate params (evs ++ [new]) j dp.
Proof.
  intros (H1 & H2 & H3 & H4).
  unfold SampleAt. rewrite rateAfter_app by assumption.
  rewrite length_app. simpl.
  repeat (split; [assumption || lia|]). assumption.
Qed.

Lemma RunInv_step (n : nat) (st : LoopState) :
  RunInv initialRate params n st -> RunInv initialRate params (S n) (protocolStep patient pkParams params st n).
Proof.
  intros [Hlen Hcount Hrate Htime Hev Hsm Hmono].
  unfold protocolStep.
  set (currentCe :=
         if (0 <? n)%nat
         then ls_currentCe st
              + timeStep * (ke0 pkParams
                            * (a1 (ls_state st) / v1 pkParams - ls_currentCe st))
         else ls_currentCe st).
  fold (stepTime n).
  destruct (thresholdReached params currentCe (stepTime n)
              (ls_lastAdjustmentTime st) (ls_currentRate st)) eqn:Hadj;
    constructor;
    cbn [ls_timeSeriesData ls_dosageAdjustments ls_adjustmentCount
         ls_currentRate ls_lastAdjustmentTime].
  - (* an adjustment: length *)
    rewrite length_app. simpl. lia.
  - rewrite length_app. simpl. lia.
  - rewrite length_app. simpl. rewrite Nat.add_1_r, rateAfter_snoc.
    reflexivity.
  - rewrite length_app. simpl. rewrite Nat.add_1_r, timeAfter_snoc.
    reflexivity.
  - intros k ev Hk.
    apply nth_error_snoc in Hk. destruct Hk as [[Hlt Hk]|[-> ->]].
    + apply EventAt_more_samples. apply EventAt_more_events; [lia|]. auto.
    + unfold thresholdReached in Hadj.
      apply andb_prop in Hadj. destruct Hadj as [Hadj Hgt].
      apply andb_prop in Hadj. destruct Hadj as [Hce Hgap].
      unfold EventAt.
      cbn [adj_adjustmentNumber oldRate newRate ceAtEvent adj_time].
      rewrite rateAfter_app, timeAfter_app by lia.
      rewrite <- Hrate, <- Htime.
      repeat (split; [assumption || congruence|]).
      exists n. eexists.
      split; [rewrite nth_error_app2, Hlen, Nat.sub_diag by lia;
              reflexivity|].
      cbn [time infusionRate adjustmentNumber ce].
      repeat split; congruence.
  - intros j dp Hj. apply nth_error_snoc in Hj.
    destruct Hj as [[Hlt Hj]|[-> ->]].
    + apply SampleAt_more_events. auto.
    + unfold SampleAt. cbn [time infusionRate adjustmentNumber ce].
      rewrite Hlen, Hcount, length_app. simpl.
      rewrite rateAfter_snoc. cbn [newRate].
      repeat split; lia.
  - intros j j' dp dp' Hjj Hj Hj'.
    apply nth_error_snoc in Hj, Hj'.
    destruct Hj as [[Hlt Hj]|[-> ->]], Hj' as [[Hlt' Hj']|[-> ->]];
      cbn [adjustmentNumber]; try lia.
    + eauto.
    + apply Hsm in Hj. destruct Hj as (_ & Hle & _). lia.
  - (* no adjustment *)
    rewrite length_app. simpl. lia.
  - assumption.
  - assumption.
  - assumption.
  - intros k ev Hk. apply EventAt_more_samples. auto.
  - intros j dp Hj. apply nth_error_snoc in Hj.
    destruct Hj as [[Hlt Hj]|[-> ->]]; [auto|].
    unfold SampleAt. cbn [time infusionRate adjustmentNumber ce].
    rewrite Hlen, Hcount.
    split; [reflexivity|]. split; [lia|]. split; [assumption|].
    intros Hn Hzero Hce.
    destruct (ls_dosageAdjustments st) as [|e l]; [|discriminate].
    unfold thresholdReached in Hadj. rewrite Hce in Hadj.
    rewrite Htime, Hrate in Hadj.
    cbn [length firstn map last timeAfter rateAfter] in Hadj.
    unfold timeAfter, rateAfter in Hadj. simpl firstn in Hadj.
    cbn [map last] in Hadj.
    assert (Hgap : ge (stepTime n - - minimumInterval) minimumInterval = true).
    { apply (proj1 (forallb_forall _ _) stepTime_first_eligible).
      apply in_seq. lia. }
    rewrite Hgap in Hadj. exact Hadj.
  - intros j j' dp dp' Hjj Hj Hj'.
    apply nth_error_snoc in Hj, Hj'.
    destruct Hj as [[Hlt Hj]|[-> ->]], Hj' as [[Hlt' Hj']|[-> ->]];
      cbn [adjustmentNumber]; try lia.
    + eauto.
    + apply Hsm in Hj. destruct Hj as (_ & Hle & _). lia.
Qed.

Lemma RunInv_loop (n : nat) :
  RunInv initialRate params n (protocolLoop patient pkParams bolusDoseMg initialRate params n).
Proof.
  induction n as [|n IH].
  - exact RunInv_initial.
  - rewrite protocolLoop_S. apply RunInv_step. exact IH.
Qed.

End RunInvariant.

Lemma rateAfter_O (initialRate : number) (evs : list DosageAdjustment) :
  rateAfter initialRate evs 0 = initialRate.
Proof. reflexivity. Qed.

Lemma firstn_S_nth_error {A : Type} (l : list A) (k : nat) (x : A) :
  nth_error l k = Some x -> firstn (S k) l = firstn k l ++ [x].
Proof.
  revert k. induction l as [|a l IH]; intros [|k] H; try discriminate.
  - injection H as ->. reflexivity.
  - rewrite !firstn_cons, (IH k H). reflexivity.
Qed.

Lemma rateAfter_S (initialRate : number) (evs : list DosageAdjustment)
      (k : nat) (ev : DosageAdjustment) :
  nth_error evs k = Some ev -> rateAfter initialRate evs (S k) = newRate ev.
Proof.
  intros H. unfold rateAfter.
  rewrite (firstn_S_nth_error _ _ _ H), map_app. apply last_last.
Qed.

Lemma timeAfter_S (evs : list DosageAdjustment) (k : nat)
      (ev : DosageAdjustment) :
  nth_error evs k = Some ev -> timeAfter evs (S k) = adj_time ev.
Proof.
  intros H. unfold timeAfter.
  rewrite (firstn_S_nth_error _ _ _ H), map_app. apply last_last.
Qed.

(** * Properties of a complete run *)

Section RunProperties.

Variable patient : Patient.
Variable pkParams : PKParameters.
Variables bolusDoseMg initialRate : number.
Variable params : ThresholdParams.

Local Abbreviation final :=
  (finalState patient pkParams bolusDoseMg initialRate params).

Lemma simulateCompleteProtocol_returns :
  simulateCompleteProtocol patient pkParams bolusDoseMg initialRate params
  = Some {| timeSeriesData := ls_timeSeriesData final;
            dosageAdjustments := ls_dosageAdjustments final;
            performance :=
              evaluatePerformance (ls_timeSeriesData final)
                                  (targetCe params);
            sim_bolusDose := bolusDoseMg;
            initialContinuousRate := initialRate;
            thresholdParams := params |}.
Proof.
  unfold simulateCompleteProtocol, finalState.
  rewrite numSteps_count. reflexivity.
Qed.

Lemma finalState_inv : RunInv initialRate params 1801 final.
Proof. unfold finalState. apply RunInv_loop. Qed.

(** The data points of two entries of the log are stored in the order of
    the entries. *)
Lemma events_in_step_order (n : nat) (st : LoopState)
      (k k' j j' : nat) (dp dp' : DataPoint) :
  RunInv initialRate params n st ->
  (k < k')%nat ->
  nth_error (ls_timeSeriesData st) j = Some dp ->
  adjustmentNumber dp = S k ->
  nth_error (ls_timeSeriesData st) j' = Some dp' ->
  adjustmentNumber dp' = S k' ->
  (j < j')%nat.
Proof.
  intros Hinv Hk Hj Hn Hj' Hn'.
  destruct (Nat.lt_ge_cases j j') as [|Hge]; [assumption|].
  pose proof (inv_monotone _ _ _ _ Hinv j' j dp' dp Hge Hj' Hj). lia.
Qed.

(** Later entries of the log have later times. *)
Lemma event_times_increase (k k' : nat) (ev ev' : DosageAdjustment) :
  (k < k')%nat ->
  nth_error (ls_dosageAdjustments final) k = Some ev ->
  nth_error (ls_dosageAdjustments final) k' = Some ev' ->
  lt (adj_time ev) (adj_time ev') = true.
Proof.
  intros Hk He He'.
  pose proof finalState_inv as Hinv.
  destruct (inv_events _ _ _ _ Hinv k ev He)
    as (_ & _ & _ & _ & _ & _ & j & dp & Hj & Ht & _ & _ & Hn & _).
  destruct (inv_events _ _ _ _ Hinv k' ev' He')
    as (_ & _ & _ & _ & _ & _ & j' & dp' & Hj' & Ht' & _ & _ & Hn' & _).
  rewrite Ht, Ht'. apply stepTime_increasing.
  - eapply events_in_step_order; eassumption.
  - assert (j' < length (ls_timeSeriesData final))%nat
      by (apply nth_error_Some; congruence).
    rewrite (inv_length _ _ _ _ Hinv) in H. lia.
Qed.

(** The rate of every data point from that of an entry of the log on is
    the new rate of that entry or of a later one. *)
Lemma rate_after_event (k j j' : nat) (ev : DosageAdjustment)
      (dp dp' : DataPoint) :
  nth_error (ls_dosageAdjustments final) k = Some ev ->
  nth_error (ls_timeSeriesData final) j = Some dp ->
  adjustmentNumber dp = S k ->
  (j <= j')%nat ->
  nth_error (ls_timeSeriesData final) j' = Some dp' ->
  exists k' ev',
    (k <= k')%nat
    /\ nth_error (ls_dosageAdjustments final) k' = Some ev'
    /\ infusionRate dp' = newRate ev'.
Proof.
  intros He Hj Hn Hjj Hj'.
  pose proof finalState_inv as Hinv.
  pose proof (inv_monotone _ _ _ _ Hinv j j' dp dp' Hjj Hj Hj') as Hmono.
  destruct (inv_samples _ _ _ _ Hinv j' dp' Hj') as (_ & Hle & Hrate & _).
  destruct (adjustmentNumber dp') as [|k'] eqn:E; [lia|].
  destruct (nth_error (ls_dosageAdjustments final) k') as [ev'|] eqn:E'.
  - exists k', ev'. split; [lia|]. split; [exact E'|].
    rewrite Hrate. apply rateAfter_S. assumption.
  - apply nth_error_None in E'. lia.
Qed.

(** When every adjustment lowers the rate, the new rate of an entry and
    of every later entry are below its old rate. *)
Lemma rates_decrease (k k' : nat) (ev ev' : DosageAdjustment) :
  (forall e, In e (ls_dosageAdjustments final) ->
             lt (newRate e) (oldRate e) = true) ->
  (k <= k')%nat ->
  nth_error (ls_dosageAdjustments final) k = Some ev ->
  nth_error (ls_dosageAdjustments final) k' = Some ev' ->
  lt (newRate ev') (oldRate ev) = true.
Proof.
  intros Hdec Hk He. revert ev'.
  pose proof finalState_inv as Hinv.
  induction Hk as [|k' Hk IH]; intros ev' He'.
  - assert (ev' = ev) by congruence. subst ev'.
    apply Hdec. eapply nth_error_In; eassumption.
  - destruct (nth_error (ls_dosageAdjustments final) k')
      as [prev|] eqn:Ep.
    + apply lt_trans with (newRate prev); [|apply IH; reflexivity].
      destruct (inv_events _ _ _ _ Hinv (S k') ev' He') as (_ & Hold & _).
      rewrite (rateAfter_S _ _ _ _ Ep) in Hold. rewrite <- Hold.
      apply Hdec. eapply nth_error_In; eassumption.
    + apply nth_error_None in Ep.
      assert (S k' < length (ls_dosageAdjustments final))%nat
        by (apply nth_error_Some; congruence).
      lia.
Qed.

End RunProperties.

Lemma ge_not_lt (x y : number) : ge x y = true -> lt x y = false.
Proof. unfold ge. apply le_not_lt. Qed.

(** C5: every call returns, after the 1801 steps of the fixed horizon
    ([floor(180 / 0.1) + 1 = 1801]), a series of exactly 1801 data
    points, the one of step [i] stamped with the time [i / 10]. *)
Theorem simulateCompleteProtocol_samples
        (patient : Patient) (pkParams : PKParameters)
        (bolusDoseMg initialRate : number) (params : ThresholdParams) :
  numSteps = 1801
  /\ exists r,
       simulateCompleteProtocol patient pkParams bolusDoseMg initialRate params
       = Some r
       /\ length (timeSeriesData r) = 1801%nat
       /\ forall i, (i < 1801)%nat ->
            exists dp,
              nth_error (timeSeriesData r) i = Some dp
              /\ time dp = toFixed1 (of_nat i * TIME_STEP)
              /\ time dp = of_nat i / 10.
Proof.
  split; [vm_compute; reflexivity|].
  rewrite simulateCompleteProtocol_returns. eexists. split; [reflexivity|].
  cbn [timeSeriesData].
  pose proof (finalState_inv patient pkParams bolusDoseMg initialRate params)
    as Hinv.
  split; [exact (inv_length _ _ _ _ Hinv)|].
  intros i Hi.
  destruct (nth_error (ls_timeSeriesData
                         (finalState patient pkParams bolusDoseMg initialRate
                                     params)) i) as [dp|] eqn:E.
  - exists dp. split; [reflexivity|].
    destruct (inv_samples _ _ _ _ Hinv i dp E) as (Ht & _).
    split; [exact Ht|]. rewrite Ht.
    apply Leibniz.eqb_spec.
    apply (proj1 (forallb_forall _ _) stepTime_tenths). apply in_seq. lia.
  - apply nth_error_None in E. rewrite (inv_length _ _ _ _ Hinv) in E. lia.
Qed.

(** C2: the log of adjustments is numbered 1, 2, 3, ... in order; later
    entries have later times; consecutive entries are at least the
    minimum interval of 5.0 minutes apart (their difference is never
    below it); and the first crossing is eligible: with an initial rate
    above the minimum, no data point at or above the threshold is stored
    before the first adjustment. *)
Theorem adjustments_debounced
        (patient : Patient) (pkParams : PKParameters)
        (bolusDoseMg initialRate : number) (params : ThresholdParams) :
  exists r,
    simulateCompleteProtocol patient pkParams bolusDoseMg initialRate params
    = Some r
    /\ (forall k ev, nth_error (dosageAdjustments r) k = Some ev ->
                     adj_adjustmentNumber ev = S k)
    /\ (forall k k' ev ev', (k < k')%nat ->
          nth_error (dosageAdjustments r) k = Some ev ->
          nth_error (dosageAdjustments r) k' = Some ev' ->
          lt (adj_time ev) (adj_time ev') = true
          /\ (adj_adjustmentNumber ev < adj_adjustmentNumber ev')%nat)
    /\ (forall k ev ev',
          nth_error (dosageAdjustments r) k = Some ev ->
          nth_error (dosageAdjustments r) (S k) = Some ev' ->
          ge (adj_time ev' - adj_time ev) minimumInterval = true
          /\ lt (adj_time ev' - adj_time ev) 5.0 = false)
    /\ (forall ev, nth_error (dosageAdjustments r) 0 = Some ev ->
          ge (adj_time ev - - minimumInterval) minimumInterval = true)
    /\ (forall j dp, nth_error (timeSeriesData r) j = Some dp ->
          ge (ce dp) (targetCe params * upperThresholdRatio params) = true ->
          gt initialRate MIN_INFUSION_RATE = true ->
          (1 <= adjustmentNumber dp)%nat).
Proof.
  rewrite simulateCompleteProtocol_returns. eexists. split; [reflexivity|].
  cbn [timeSeriesData dosageAdjustments].
  pose proof (finalState_inv patient pkParams bolusDoseMg initialRate params)
    as Hinv.
  split; [|split; [|split; [|split]]].
  - intros k ev He. now destruct (inv_events _ _ _ _ Hinv k ev He).
  - intros k k' ev ev' Hk He He'. split.
    + eapply event_times_increase; eassumption.
    + destruct (inv_events _ _ _ _ Hinv k ev He) as [-> _].
      destruct (inv_events _ _ _ _ Hinv k' ev' He') as [-> _]. lia.
  - intros k ev ev' He He'.
    destruct (inv_events _ _ _ _ Hinv (S k) ev' He')
      as (_ & _ & _ & _ & _ & Hgap & _).
    rewrite (timeAfter_S _ _ _ He) in Hgap.
    split; [exact Hgap|]. apply ge_not_lt. exact Hgap.
  - intros ev He.
    destruct (inv_events _ _ _ _ Hinv 0%nat ev He)
      as (_ & _ & _ & _ & _ & Hgap & _).
    exact Hgap.
  - intros j dp Hj Hce Hgt.
    destruct (inv_samples _ _ _ _ Hinv j dp Hj) as (_ & _ & _ & Hfirst).
    destruct (adjustmentNumber dp) as [|c]; [|lia].
    assert (Hlt : (j < 1801)%nat).
    { rewrite <- (inv_length _ _ _ _ Hinv). apply nth_error_Some. congruence. }
    specialize (Hfirst Hlt eq_refl Hce). congruence.
Qed.

(** C9: every entry of the log was written when the trigger held: the
    concentration it reports is at or above the threshold
    [targetCe * upperThresholdRatio], and its old rate is above the
    minimum rate. *)
Theorem adjustments_only_above_threshold
        (patient : Patient) (pkParams : PKParameters)
        (bolusDoseMg initialRate : number) (params : ThresholdParams) :
  exists r,
    simulateCompleteProtocol patient pkParams bolusDoseMg initialRate params
    = Some r
    /\ forall ev, In ev (dosageAdjustments r) ->
         ge (ceAtEvent ev) (targetCe params * upperThresholdRatio params) = true
         /\ gt (oldRate ev) MIN_INFUSION_RATE = true.
Proof.
  rewrite simulateCompleteProtocol_returns. eexists. split; [reflexivity|].
  cbn [dosageAdjustments].
  pose proof (finalState_inv patient pkParams bolusDoseMg initialRate params)
    as Hinv.
  intros ev [k He]%In_nth_error.
  destruct (inv_events _ _ _ _ Hinv k ev He) as (_ & _ & _ & Hgt & Hce & _).
  split; assumption.
Qed.

Lemma someAdjustment_true (test : DosageAdjustment -> bool)
      (o : option SimulationResult) :
  someAdjustment test o = true ->
  exists r ev, o = Some r /\ In ev (dosageAdjustments r) /\ test ev = true.
Proof.
  destruct o as [r|]; [|discriminate]. cbn [someAdjustment].
  intros (ev & Hin & Ht)%existsb_exists. eauto.
Qed.

Lemma allAdjustments_true (test : DosageAdjustment -> bool)
      (o : option SimulationResult) (r : SimulationResult) :
  allAdjustments test o = true -> o = Some r ->
  forall ev, In ev (dosageAdjustments r) -> test ev = true.
Proof.
  intros H ->. cbn [allAdjustments] in H. apply forallb_forall. exact H.
Qed.

Lemma someDataPoint_true (test : DataPoint -> bool)
      (o : option SimulationResult) :
  someDataPoint test o = true ->
  exists r dp, o = Some r /\ In dp (timeSeriesData r) /\ test dp = true.
Proof.
  destruct o as [r|]; [|discriminate]. cbn [someDataPoint].
  intros (dp & Hin & Ht)%existsb_exists. eauto.
Qed.

Lemma someAdjustmentAndDataPoint_true
      (test : DosageAdjustment -> DataPoint -> bool)
      (o : option SimulationResult) :
  someAdjustmentAndDataPoint test o = true ->
  exists r ev dp,
    o = Some r /\ In ev (dosageAdjustments r) /\ In dp (timeSeriesData r)
    /\ test ev dp = true.
Proof.
  destruct o as [r|]; [|discriminate]. cbn [someAdjustmentAndDataPoint].
  intros (ev & Hin & (dp & Hin' & Ht)%existsb_exists)%existsb_exists.
  exists r, ev, dp. auto.
Qed.

Lemma MIN_INFUSION_RATE_positive : lt 0 MIN_INFUSION_RATE = true.
Proof. vm_compute. reflexivity. Qed.

(** C3, as the code has it: the new rate of every adjustment is
    [max(MIN_INFUSION_RATE, oldRate * reductionFactor)], its old rate is
    the initial rate for the first adjustment and the new rate of the
    adjustment before it for the others, and with a reduction factor of
    at most 1 the new rate is never greater than the old one, so that
    the rates do not increase. *)
Theorem adjustments_reduce_rate
        (patient : Patient) (pkParams : PKParameters)
        (bolusDoseMg initialRate : number) (params : ThresholdParams) :
  exists r,
    simulateCompleteProtocol patient pkParams bolusDoseMg initialRate params
    = Some r
    /\ forall k ev, nth_error (dosageAdjustments r) k = Some ev ->
         newRate ev
         = Math_max MIN_INFUSION_RATE (oldRate ev * reductionFactor params)
         /\ (k = 0%nat -> oldRate ev = initialRate)
         /\ (forall prev, nth_error (dosageAdjustments r) (pred k) = Some prev ->
                          (0 < k)%nat -> oldRate ev = newRate prev)
         /\ (le (reductionFactor params) 1 = true ->
             gt (newRate ev) (oldRate ev) = false).
Proof.
  rewrite simulateCompleteProtocol_returns. eexists. split; [reflexivity|].
  cbn [dosageAdjustments].
  pose proof (finalState_inv patient pkParams bolusDoseMg initialRate params)
    as Hinv.
  intros k ev He.
  destruct (inv_events _ _ _ _ Hinv k ev He) as (_ & Hold & Hnew & Hgt & _).
  split; [exact Hnew|]. split; [|split].
  - intros ->. exact Hold.
  - intros prev Hp Hk. destruct k as [|k]; [lia|]. cbn [pred] in Hp.
    rewrite Hold. apply rateAfter_S. exact Hp.
  - intros Hrf. unfold gt in *. rewrite Hnew.
    apply Math_max_not_above.
    + apply le_not_lt. apply lt_le. exact Hgt.
    + apply mul_not_above; [|exact Hrf].
      apply lt_trans with MIN_INFUSION_RATE;
        [exact MIN_INFUSION_RATE_positive|exact Hgt].
Qed.

(** The theorem at the reference run (bolus 7 mg, 1.0 mg/kg/hr, the
    default reduction factor 0.70): no adjustment raises the rate. *)
Lemma adjustments_reduce_rate_witness :
  exists r,
    simulateCompleteProtocol refPatient refPK 7 1 refParams = Some r
    /\ forall ev, In ev (dosageAdjustments r) ->
                  gt (newRate ev) (oldRate ev) = false.
Proof.
  destruct (adjustments_reduce_rate refPatient refPK 7 1 refParams)
    as (r & Hr & H).
  exists r. split; [exact Hr|].
  intros ev [k He]%In_nth_error.
  destruct (H k ev He) as (_ & _ & _ & Hle).
  apply Hle. vm_compute. reflexivity.
Defined.

(** C3 as stated fails: with a reduction factor of 2, which no check
    refuses, an adjustment's new rate is above its old rate. *)
Lemma adjustment_raises_rate :
  exists r ev,
    simulateCompleteProtocol refPatient refPK 7 1
      {| targetReachTime := 20; upperThresholdRatio := 1.2;
         reductionFactor := 2; targetCe := 1 |} = Some r
    /\ In ev (dosageAdjustments r)
    /\ gt (newRate ev) (oldRate ev) = true.
Proof.
  apply (someAdjustment_true (fun ev => gt (newRate ev) (oldRate ev))).
  vm_compute. reflexivity.
Qed.

(** C10, as the code has it: the data point stored at the step of an
    adjustment carries the time of the adjustment and already reports its
    new rate; every data point from there on reports the new rate of
    that adjustment or of a later one; and in a run whose adjustments all
    lower the rate, those rates are below the old rate, which therefore
    appears in none of these data points. *)
Theorem adjustment_reaches_data_point
        (patient : Patient) (pkParams : PKParameters)
        (bolusDoseMg initialRate : number) (params : ThresholdParams) :
  exists r,
    simulateCompleteProtocol patient pkParams bolusDoseMg initialRate params
    = Some r
    /\ forall k ev, nth_error (dosageAdjustments r) k = Some ev ->
         exists j dp,
           nth_error (timeSeriesData r) j = Some dp
           /\ adj_time ev = of_nat j * TIME_STEP
           /\ time dp = toFixed1 (adj_time ev)
           /\ infusionRate dp = newRate ev
           /\ adjustmentNumber dp = adj_adjustmentNumber ev
           /\ forall j' dp', (j <= j')%nat ->
                nth_error (timeSeriesData r) j' = Some dp' ->
                (exists k' ev',
                    (k <= k')%nat
                    /\ nth_error (dosageAdjustments r) k' = Some ev'
                    /\ infusionRate dp' = newRate ev')
                /\ ((forall e, In e (dosageAdjustments r) ->
                               lt (newRate e) (oldRate e) = true) ->
                    lt (infusionRate dp') (oldRate ev) = true
                    /\ infusionRate dp' <> oldRate ev).
Proof.
  rewrite simulateCompleteProtocol_returns. eexists. split; [reflexivity|].
  cbn [timeSeriesData dosageAdjustments].
  pose proof (finalState_inv patient pkParams bolusDoseMg initialRate params)
    as Hinv.
  intros k ev He.
  destruct (inv_events _ _ _ _ Hinv k ev He)
    as (Hnum & _ & _ & _ & _ & _ & j & dp & Hj & Ht & Htime & Hrate & Hn & _).
  exists j, dp.
  split; [exact Hj|]. split; [exact Ht|]. split; [exact Htime|].
  split; [exact Hrate|]. split; [congruence|].
  intros j' dp' Hjj Hj'.
  destruct (rate_after_event patient pkParams bolusDoseMg initialRate params
              k j j' ev dp dp' He Hj Hn Hjj Hj') as (k' & ev' & Hk & He' & Hr).
  split; [eauto|].
  intros Hdec.
  assert (Hlt : lt (infusionRate dp') (oldRate ev) = true).
  { rewrite Hr. eapply rates_decrease; eassumption. }
  split; [exact Hlt|]. apply lt_neq. exact Hlt.
Qed.

(** The theorem at the reference run, whose adjustments all lower the
    rate: the old rate of an adjustment is in no data point from its step
    on. *)
Lemma adjustment_reaches_data_point_witness :
  exists r,
    simulateCompleteProtocol refPatient refPK 7 1 refParams = Some r
    /\ forall k ev, nth_error (dosageAdjustments r) k = Some ev ->
         exists j dp,
           nth_error (timeSeriesData r) j = Some dp
           /\ infusionRate dp = newRate ev
           /\ forall j' dp', (j <= j')%nat ->
                nth_error (timeSeriesData r) j' = Some dp' ->
                infusionRate dp' <> oldRate ev.
Proof.
  destruct (adjustment_reaches_data_point refPatient refPK 7 1 refParams)
    as (r & Hr & H).
  exists r. split; [exact Hr|].
  intros k ev He.
  destruct (H k ev He) as (j & dp & Hj & _ & _ & Hrate & _ & Hafter).
  exists j, dp. split; [exact Hj|]. split; [exact Hrate|].
  intros j' dp' Hjj Hj'.
  destruct (Hafter j' dp' Hjj Hj') as [_ Hdec].
  apply Hdec.
  apply (allAdjustments_true
           (fun e => lt (newRate e) (oldRate e))
           (simulateCompleteProtocol refPatient refPK 7 1 refParams) r);
    [|exact Hr].
  vm_compute. reflexivity.
Defined.

(** C10 as stated fails: with a reduction factor of 1, which no check
    refuses, the new rate equals the old one, and the data point stored
    at the time of the adjustment reports the old rate. *)
Lemma old_rate_in_data_point :
  exists r ev dp,
    simulateCompleteProtocol refPatient refPK 7 1
      {| targetReachTime := 20; upperThresholdRatio := 1.2;
         reductionFactor := 1; targetCe := 1 |} = Some r
    /\ In ev (dosageAdjustments r) /\ In dp (timeSeriesData r)
    /\ time dp = toFixed1 (adj_time ev)
    /\ infusionRate dp = oldRate ev.
Proof.
  destruct (someAdjustmentAndDataPoint_true
              (fun ev dp =>
                 Leibniz.eqb (time dp) (toFixed1 (adj_time ev))
                 && Leibniz.eqb (infusionRate dp) (oldRate ev))
              (simulateCompleteProtocol refPatient refPK 7 1
                 {| targetReachTime := 20; upperThresholdRatio := 1.2;
                    reductionFactor := 1; targetCe := 1 |}))
    as (r & ev & dp & Hr & Hev & Hdp & Ht).
  - vm_compute. reflexivity.
  - exists r, ev, dp. apply andb_prop in Ht. destruct Ht as [Ht1 Ht2].
    apply Leibniz.eqb_spec in Ht1, Ht2. auto.
Qed.

Lemma limits_facts :
  isNaN MIN_INFUSION_RATE = false
  /\ le MIN_INFUSION_RATE MAX_INFUSION_RATE = true
  /\ lt MAX_INFUSION_RATE Infinity = true.
Proof. repeat split; vm_compute; reflexivity. Qed.

(** A reduction by a factor of at most 1 keeps a rate that is above the
    minimum within the limits. *)
Lemma reduction_withinLimits (rate factor : number) :
  withinLimits rate -> gt rate MIN_INFUSION_RATE = true ->
  le factor 1 = true ->
  withinLimits (Math_max MIN_INFUSION_RATE (rate * factor)).
Proof.
  intros [Hlo Hhi] Hgt Hf. unfold gt in Hgt.
  destruct limits_facts as (Nmin & Hminmax & Hmaxinf).
  assert (Hprod : le (rate * factor) rate = true).
  { apply mul_le_self; [|eapply le_lt_trans; eassumption|exact Hf].
    eapply lt_trans; [exact MIN_INFUSION_RATE_positive|exact Hgt]. }
  split.
  - apply Math_max_ge_l; [exact Nmin|].
    apply le_not_nan in Hprod. tauto.
  - apply Math_max_le; [exact Hminmax|].
    eapply le_trans; eassumption.
Qed.

Lemma rateAfter_withinLimits
      (patient : Patient) (pkParams : PKParameters)
      (bolusDoseMg initialRate : number) (params : ThresholdParams) (k : nat) :
  withinLimits initialRate ->
  le (reductionFactor params) 1 = true ->
  (k <= length (ls_dosageAdjustments
                  (finalState patient pkParams bolusDoseMg initialRate params)))%nat ->
  withinLimits
    (rateAfter initialRate
       (ls_dosageAdjustments
          (finalState patient pkParams bolusDoseMg initialRate params)) k).
Proof.
  intros Hinit Hrf.
  pose proof (finalState_inv patient pkParams bolusDoseMg initialRate params)
    as Hinv.
  induction k as [|k IH]; intros Hk; [exact Hinit|].
  destruct (nth_error
              (ls_dosageAdjustments
                 (finalState patient pkParams bolusDoseMg initialRate params))
              k) as [ev|] eqn:He.
  - rewrite (rateAfter_S _ _ _ _ He).
    destruct (inv_events _ _ _ _ Hinv k ev He) as (_ & Hold & Hnew & Hgt & _).
    rewrite Hnew. apply reduction_withinLimits; [|exact Hgt|exact Hrf].
    rewrite Hold. apply IH. lia.
  - apply nth_error_None in He. lia.
Qed.

(** C6, as the code has it: the code never compares a rate with
    [MAX_INFUSION_RATE], and takes the initial rate as it is given; when
    the initial rate is within the limits and the reduction factor is at
    most 1, the rate of every data point and the old and new rates of
    every adjustment are within [MIN_INFUSION_RATE, MAX_INFUSION_RATE]. *)
Theorem rates_within_limits
        (patient : Patient) (pkParams : PKParameters)
        (bolusDoseMg initialRate : number) (params : ThresholdParams) :
  le MIN_INFUSION_RATE initialRate = true ->
  le initialRate MAX_INFUSION_RATE = true ->
  le (reductionFactor params) 1 = true ->
  exists r,
    simulateCompleteProtocol patient pkParams bolusDoseMg initialRate params
    = Some r
    /\ (forall dp, In dp (timeSeriesData r) ->
          le MIN_INFUSION_RATE (infusionRate dp) = true
          /\ le (infusionRate dp) MAX_INFUSION_RATE = true)
    /\ (forall ev, In ev (dosageAdjustments r) ->
          (le MIN_INFUSION_RATE (oldRate ev) = true
           /\ le (oldRate ev) MAX_INFUSION_RATE = true)
          /\ (le MIN_INFUSION_RATE (newRate ev) = true
              /\ le (newRate ev) MAX_INFUSION_RATE = true)).
Proof.
  intros Hlo Hhi Hrf.
  rewrite simulateCompleteProtocol_returns. eexists. split; [reflexivity|].
  cbn [timeSeriesData dosageAdjustments].
  pose proof (finalState_inv patient pkParams bolusDoseMg initialRate params)
    as Hinv.
  pose proof (fun k => rateAfter_withinLimits patient pkParams bolusDoseMg
                         initialRate params k (conj Hlo Hhi) Hrf) as Hwithin.
  split.
  - intros dp [j Hj]%In_nth_error.
    destruct (inv_samples _ _ _ _ Hinv j dp Hj) as (_ & Hle & -> & _).
    apply Hwithin. exact Hle.
  - intros ev [k He]%In_nth_error.
    assert (Hk : (k < length (ls_dosageAdjustments
                                (finalState patient pkParams bolusDoseMg
                                            initialRate params)))%nat)
      by (apply nth_error_Some; congruence).
    destruct (inv_events _ _ _ _ Hinv k ev He) as (_ & Hold & _).
    split.
    + rewrite Hold. apply Hwithin. lia.
    + rewrite <- (rateAfter_S initialRate _ _ _ He). apply Hwithin. lia.
Qed.

(** The theorem at the reference run. *)
Lemma rates_within_limits_witness :
  exists r,
    simulateCompleteProtocol refPatient refPK 7 1 refParams = Some r
    /\ forall dp, In dp (timeSeriesData r) ->
         le MIN_INFUSION_RATE (infusionRate dp) = true
         /\ le (infusionRate dp) MAX_INFUSION_RATE = true.
Proof.
  destruct (rates_within_limits refPatient refPK 7 1 refParams)
    as (r & Hr & Hdp & _).
  - vm_compute. reflexivity.
  - vm_compute. reflexivity.
  - vm_compute. reflexivity.
  - exists r. split; [exact Hr|exact Hdp].
Defined.

(** C6 as stated fails: a run started at 10 mg/kg/hr stores data points
    with a rate above [MAX_INFUSION_RATE], and a run started at
    0.7 mg/kg/hr with a reduction factor of 10 writes an adjustment whose
    new rate is above it. *)
Lemma rate_outside_limits :
  (exists r dp,
      simulateCompleteProtocol refPatient refPK 7 10 refParams = Some r
      /\ In dp (timeSeriesData r)
      /\ gt (infusionRate dp) MAX_INFUSION_RATE = true)
  /\ (exists r ev,
         simulateCompleteProtocol refPatient refPK 7 0.7
           {| targetReachTime := 20; upperThresholdRatio := 1.2;
              reductionFactor := 10; targetCe := 1 |} = Some r
         /\ In ev (dosageAdjustments r)
         /\ gt (newRate ev) MAX_INFUSION_RATE = true).
Proof.
  split.
  - apply (someDataPoint_true
             (fun dp => gt (infusionRate dp) MAX_INFUSION_RATE)).
    vm_compute. reflexivity.
  - apply (someAdjustment_true
             (fun ev => gt (newRate ev) MAX_INFUSION_RATE)).
    vm_compute. reflexivity.
Qed.

(** * Zero input *)

Lemma isZero_spec (x : number) :
  isZero x = true <-> exists s, Prim2SF x = S754_zero s.
Proof.
  unfold isZero. rewrite classify_spec. unfold SF64classify, SFclassify.
  destruct (Prim2SF x) as [s|s| |s m e]; try destruct s;
    try destruct (Z.eqb _ _);
    split; intros H; try discriminate; eauto; destruct H; discriminate.
Qed.

Lemma isFinite_spec (x : number) :
  isFinite x = true <->
  (exists s, Prim2SF x = S754_zero s)
  \/ (exists s m e, Prim2SF x = S754_finite s m e).
Proof.
  unfold isFinite. rewrite classify_spec. unfold SF64classify, SFclassify.
  destruct (Prim2SF x) as [s|s| |s m e]; try destruct s;
    try destruct (Z.eqb _ _);
    split; intros H; try discriminate; eauto;
    destruct H as [[? H]|(? & ? & ? & H)]; discriminate.
Qed.

Lemma nonZero_spec (x : number) :
  nonZero x = true <->
  Prim2SF x <> S754_nan /\ forall s, Prim2SF x <> S754_zero s.
Proof.
  unfold nonZero. rewrite classify_spec. unfold SF64classify, SFclassify.
  destruct (Prim2SF x) as [s|s| |s m e]; try destruct s;
    try destruct (Z.eqb _ _);
    split; intros H; try discriminate; try reflexivity;
    try (split; [discriminate|intros s; discriminate]);
    destruct H as [H1 H2]; try congruence;
    try (exfalso; eapply H2; reflexivity).
Qed.

Lemma isZero_add (x y : number) :
  isZero x = true -> isZero y = true -> isZero (x + y) = true.
Proof.
  rewrite !isZero_spec. intros [s Hx] [s' Hy].
  rewrite add_spec, Hx, Hy. destruct s, s'; cbn; eauto.
Qed.

Lemma isZero_sub (x y : number) :
  isZero x = true -> isZero y = true -> isZero (x - y) = true.
Proof.
  rewrite !isZero_spec. intros [s Hx] [s' Hy].
  rewrite sub_spec, Hx, Hy. destruct s, s'; cbn; eauto.
Qed.

Lemma isZero_mul_r (k x : number) :
  isFinite k = true -> isZero x = true -> isZero (k * x) = true.
Proof.
  rewrite isFinite_spec, !isZero_spec.
  intros [[s Hk]|(s & m & e & Hk)] [s' Hx];
    rewrite mul_spec, Hk, Hx; cbn; eauto.
Qed.

Lemma isZero_mul_l (x k : number) :
  isZero x = true -> isFinite k = true -> isZero (x * k) = true.
Proof.
  rewrite isFinite_spec, !isZero_spec.
  intros [s' Hx] [[s Hk]|(s & m & e & Hk)];
    rewrite mul_spec, Hk, Hx; cbn; eauto.
Qed.

Lemma isZero_div (x v : number) :
  isZero x = true -> nonZero v = true -> isZero (x / v) = true.
Proof.
  rewrite nonZero_spec, !isZero_spec. intros [s Hx] [Hn Hz].
  rewrite div_spec, Hx.
  destruct (Prim2SF v) as [sv|sv| |sv mv ev]; cbn; eauto.
  - exfalso. eapply Hz. reflexivity.
  - congruence.
Qed.

(** A zero is not above the minimum rate. *)
Lemma isZero_not_above_min (x : number) :
  isZero x = true -> gt x MIN_INFUSION_RATE = false.
Proof.
  rewrite isZero_spec. intros [s Hx].
  change (lt MIN_INFUSION_RATE x = false).
  destruct (lt MIN_INFUSION_RATE x) eqn:E; [|reflexivity].
  apply lt_cmp in E. unfold cmp in E. rewrite Hx in E.
  vm_compute in E. discriminate.
Qed.

Ltac finite_const := vm_compute; reflexivity.

Ltac zero_step :=
  first
    [ assumption
    | apply isZero_add
    | apply isZero_sub
    | apply isZero_mul_r; [first [assumption|finite_const]|]
    | apply isZero_mul_l; [|first [assumption|finite_const]]
    | apply isZero_div; [|assumption]
    | finite_const ].

Ltac zero_solve := repeat zero_step.

Section ZeroInput.

Variable patient : Patient.
Variable pkParams : PKParameters.
Variable rate : number.

Hypothesis model_finite : finiteModel patient pkParams = true.
Hypothesis rate_zero : isZero rate = true.

Local Abbreviation infusion := ((rate * weight patient) / 60.0).

Lemma finiteModel_inv :
  isFinite (getK10 pkParams + getK12 pkParams + getK13 pkParams) = true
  /\ isFinite (getK12 pkParams) = true /\ isFinite (getK21 pkParams) = true
  /\ isFinite (getK13 pkParams) = true /\ isFinite (getK31 pkParams) = true
  /\ isFinite (ke0 pkParams) = true /\ isFinite (weight patient) = true
  /\ nonZero (v1 pkParams) = true.
Proof.
  pose proof model_finite as H. unfold finiteModel in H.
  repeat (apply andb_prop in H; destruct H as [H ?]). auto 10.
Qed.

Lemma infusion_zero : isZero infusion = true.
Proof.
  destruct finiteModel_inv as (_ & _ & _ & _ & _ & _ & Hw & _).
  apply isZero_div; [|finite_const].
  apply isZero_mul_l; assumption.
Qed.

Lemma derivatives_zero (s : SystemState) :
  isZero (a1 s) = true -> isZero (a2 s) = true -> isZero (a3 s) = true ->
  isZero (da1dt (derivatives pkParams infusion s)) = true
  /\ isZero (da2dt (derivatives pkParams infusion s)) = true
  /\ isZero (da3dt (derivatives pkParams infusion s)) = true.
Proof.
  intros H1 H2 H3.
  destruct finiteModel_inv as (Hsum & H12 & H21 & H13 & H31 & _).
  pose proof infusion_zero as Hinf.
  unfold derivatives. cbn [da1dt da2dt da3dt].
  repeat split; zero_solve.
Qed.

(** One RK4 step keeps the three masses zero. *)
Lemma updateSystemStateRK4_zero (s : SystemState) :
  zeroState s = true ->
  zeroState (updateSystemStateRK4 pkParams s infusion timeStep) = true.
Proof.
  unfold zeroState. intros H.
  apply andb_prop in H. destruct H as [H H3].
  apply andb_prop in H. destruct H as [H1 H2].
  pose (k1 := derivatives pkParams infusion s).
  pose (s2 := {| a1 := a1 s + 0.5 * timeStep * da1dt k1;
                 a2 := a2 s + 0.5 * timeStep * da2dt k1;
                 a3 := a3 s + 0.5 * timeStep * da3dt k1 |}).
  pose (k2 := derivatives pkParams infusion s2).
  pose (s3 := {| a1 := a1 s + 0.5 * timeStep * da1dt k2;
                 a2 := a2 s + 0.5 * timeStep * da2dt k2;
                 a3 := a3 s + 0.5 * timeStep * da3dt k2 |}).
  pose (k3 := derivatives pkParams infusion s3).
  pose (s4 := {| a1 := a1 s + timeStep * da1dt k3;
                 a2 := a2 s + timeStep * da2dt k3;
                 a3 := a3 s + timeStep * da3dt k3 |}).
  pose (k4 := derivatives pkParams infusion s4).
  change (isZero (a1 s + (timeStep / 6.0)
                         * (da1dt k1 + 2 * da1dt k2 + 2 * da1dt k3 + da1dt k4))
          && isZero (a2 s + (timeStep / 6.0)
                            * (da2dt k1 + 2 * da2dt k2 + 2 * da2dt k3
                               + da2dt k4))
          && isZero (a3 s + (timeStep / 6.0)
                            * (da3dt k1 + 2 * da3dt k2 + 2 * da3dt k3
                               + da3dt k4)) = true).
  destruct (derivatives_zero s H1 H2 H3) as (K11 & K12 & K13).
  fold k1 in K11, K12, K13.
  assert (E2 : isZero (a1 s2) = true /\ isZero (a2 s2) = true
               /\ isZero (a3 s2) = true)
    by (unfold s2; cbn [a1 a2 a3]; repeat split; zero_solve).
  destruct E2 as (S21 & S22 & S23).
  destruct (derivatives_zero s2 S21 S22 S23) as (K21 & K22 & K23).
  fold k2 in K21, K22, K23.
  assert (E3 : isZero (a1 s3) = true /\ isZero (a2 s3) = true
               /\ isZero (a3 s3) = true)
    by (unfold s3; cbn [a1 a2 a3]; repeat split; zero_solve).
  destruct E3 as (S31 & S32 & S33).
  destruct (derivatives_zero s3 S31 S32 S33) as (K31 & K32 & K33).
  fold k3 in K31, K32, K33.
  assert (E4 : isZero (a1 s4) = true /\ isZero (a2 s4) = true
               /\ isZero (a3 s4) = true)
    by (unfold s4; cbn [a1 a2 a3]; repeat split; zero_solve).
  destruct E4 as (S41 & S42 & S43).
  destruct (derivatives_zero s4 S41 S42 S43) as (K41 & K42 & K43).
  fold k4 in K41, K42, K43.
  clearbody k1 k2 k3 k4.
  repeat (apply andb_true_intro; split); zero_solve.
Qed.

(** One update of the effect site keeps a zero concentration zero. *)
Lemma effectSite_zero (s : SystemState) (c : number) :
  zeroState s = true -> isZero c = true ->
  isZero (a1 s / v1 pkParams) = true
  /\ isZero (c + timeStep * (ke0 pkParams * (a1 s / v1 pkParams - c))) = true.
Proof.
  unfold zeroState. intros H Hc.
  apply andb_prop in H. destruct H as [H H3].
  apply andb_prop in H. destruct H as [H1 H2].
  destruct finiteModel_inv as (_ & _ & _ & _ & _ & Hke0 & _ & Hv1).
  assert (Hp : isZero (a1 s / v1 pkParams) = true) by zero_solve.
  split; [exact Hp|]. zero_solve.
Qed.

Lemma openLoop_zero (n : nat) (s : SystemState) (c : number) :
  zeroState s = true -> isZero c = true ->
  zeroState (fst (openLoop pkParams n infusion (s, c))) = true
  /\ isZero (snd (openLoop pkParams n infusion (s, c))) = true.
Proof.
  revert s c. induction n as [|n IH]; intros s c Hs Hc; [auto|].
  cbn [openLoop]. unfold openLoopStep at 1. apply IH.
  - apply updateSystemStateRK4_zero. exact Hs.
  - apply (effectSite_zero s c Hs Hc).
Qed.

Variable bolusDoseMg : number.
Variable params : ThresholdParams.

Hypothesis bolus_zero : isZero bolusDoseMg = true.

Lemma ZeroInv_initial :
  ZeroInv rate (initialLoopState pkParams bolusDoseMg rate).
Proof.
  unfold ZeroInv, initialLoopState, calculateBolusInitialState, zeroState.
  cbn [ls_state ls_currentCe ls_currentRate ls_dosageAdjustments
       ls_timeSeriesData bolus_a1 bolus_a2 bolus_a3 effectSiteConc a1 a2 a3].
  rewrite bolus_zero.
  refine (conj _ (conj _ (conj _ (conj _ _)))); try reflexivity.
  intros dp [].
Qed.

Lemma ZeroInv_step (st : LoopState) (i : nat) :
  ZeroInv rate st -> ZeroInv rate (protocolStep patient pkParams params st i).
Proof.
  intros (Hs & Hc & Hr & He & Hd).
  destruct (effectSite_zero _ _ Hs Hc) as [Hp Hc'].
  unfold protocolStep.
  set (currentCe :=
         if (0 <? i)%nat
         then ls_currentCe st
              + timeStep * (ke0 pkParams
                            * (a1 (ls_state st) / v1 pkParams - ls_currentCe st))
         else ls_currentCe st).
  assert (Hce : isZero currentCe = true)
    by (unfold currentCe; destruct (0 <? i)%nat; assumption).
  assert (Hadj : thresholdReached params currentCe (of_nat i * timeStep)
                   (ls_lastAdjustmentTime st) (ls_currentRate st) = false).
  { unfold thresholdReached. rewrite Hr, (isZero_not_above_min _ rate_zero).
    apply andb_false_r. }
  rewrite Hadj. unfold ZeroInv.
  cbn [ls_state ls_currentCe ls_currentRate ls_dosageAdjustments
       ls_timeSeriesData].
  split; [|split; [exact Hce|split; [exact Hr|split; [exact He|]]]].
  - destruct (lt (of_nat i) (numSteps - 1)); [|exact Hs].
    rewrite Hr. apply updateSystemStateRK4_zero. exact Hs.
  - intros dp [Hin|[<-|[]]]%in_app_or; [auto|].
    cbn [ce plasma infusionRate]. auto.
Qed.

Lemma ZeroInv_loop (n : nat) :
  ZeroInv rate (protocolLoop patient pkParams bolusDoseMg rate params n).
Proof.
  induction n as [|n IH].
  - exact ZeroInv_initial.
  - rewrite protocolLoop_S. apply ZeroInv_step. exact IH.
Qed.

End ZeroInput.

(** C8: with a patient model whose constants are finite, a bolus dose of
    zero and an infusion rate of zero, an RK4 step keeps the masses
    [a1], [a2], [a3] zero, the open-loop simulation keeps the masses and
    the effect-site concentration zero over any number of steps, and the
    complete run keeps them zero at every step and stores only data
    points whose [ce] and [plasma] are zero, without any adjustment. *)
Theorem zero_input_stays_zero
        (patient : Patient) (pkParams : PKParameters)
        (bolusDoseMg rate : number) (params : ThresholdParams) :
  finiteModel patient pkParams = true ->
  isZero bolusDoseMg = true ->
  isZero rate = true ->
  (forall s, zeroState s = true ->
             zeroState (updateSystemStateRK4 pkParams s
                          ((rate * weight patient) / 60.0) timeStep) = true)
  /\ (forall targetTime c,
        simulateBolusAndContinuous patient pkParams bolusDoseMg rate targetTime
        = Some c -> isZero c = true)
  /\ (forall n,
        zeroState (ls_state (protocolLoop patient pkParams bolusDoseMg rate
                                          params n)) = true
        /\ isZero (ls_currentCe (protocolLoop patient pkParams bolusDoseMg rate
                                              params n)) = true)
  /\ exists r,
       simulateCompleteProtocol patient pkParams bolusDoseMg rate params
       = Some r
       /\ dosageAdjustments r = []
       /\ forall dp, In dp (timeSeriesData r) ->
            isZero (ce dp) = true /\ isZero (plasma dp) = true
            /\ isZero (infusionRate dp) = true.
Proof.
  intros Hm Hb Hr.
  split; [|split; [|split]].
  - intros s Hs. now apply updateSystemStateRK4_zero.
  - intros targetTime c. unfold simulateBolusAndContinuous.
    destruct (for_count _) as [n|]; [|discriminate].
    intros [= <-].
    apply (openLoop_zero patient pkParams rate Hm Hr n).
    + unfold calculateBolusInitialState, zeroState.
      cbn [bolus_a1 bolus_a2 bolus_a3 a1 a2 a3]. rewrite Hb. reflexivity.
    + reflexivity.
  - intros n.
    pose proof (ZeroInv_loop patient pkParams rate Hm Hr bolusDoseMg params
                             Hb n) as Hinv.
    unfold ZeroInv in Hinv. destruct Hinv as (Hs & Hc & _).
    split; assumption.
  - rewrite simulateCompleteProtocol_returns. eexists.
    split; [reflexivity|]. cbn [timeSeriesData dosageAdjustments].
    unfold finalState.
    pose proof (ZeroInv_loop patient pkParams rate Hm Hr bolusDoseMg params
                             Hb 1801) as Hinv.
    unfold ZeroInv in Hinv. destruct Hinv as (_ & _ & _ & He & Hd).
    split; [exact He|].
    intros dp Hin. destruct (Hd dp Hin) as (H1 & H2 & ->).
    repeat split; assumption.
Qed.

(** The theorem at the reference patient: no bolus, no infusion. *)
Lemma zero_input_stays_zero_witness :
  exists r,
    simulateCompleteProtocol refPatient refPK 0 0 refParams = Some r
    /\ dosageAdjustments r = []
    /\ forall dp, In dp (timeSeriesData r) ->
         isZero (ce dp) = true /\ isZero (plasma dp) = true
         /\ isZero (infusionRate dp) = true.
Proof.
  destruct (zero_input_stays_zero refPatient refPK 0 0 refParams)
    as (_ & _ & _ & H).
  - vm_compute. reflexivity.
  - vm_compute. reflexivity.
  - vm_compute. reflexivity.
  - exact H.
Defined.

(** Without a finite model, nothing given does not stay nothing. With
    a weight that is NaN, which the checks of [validate] let through,
    the infusion [0 * NaN / 60] is NaN: one RK4 step leaves the zero
    state, and the run stores data points whose concentrations are NaN.
    With a central volume of zero the plasma concentration [0 / 0] is
    NaN. *)
Lemma zero_input_not_zero :
  weightOutOfRange noWeightPatient = false
  /\ isValid (validate square noWeightPatient) = true
  /\ zeroState (updateSystemStateRK4 refPK {| a1 := 0; a2 := 0; a3 := 0 |}
                  ((0 * weight noWeightPatient) / 60.0) timeStep) = false
  /\ (exists r dp,
        simulateCompleteProtocol noWeightPatient refPK 0 0 refParams = Some r
        /\ In dp (timeSeriesData r)
        /\ isNaN (ce dp) && isNaN (plasma dp) = true)
  /\ (exists r dp,
        simulateCompleteProtocol refPatient noVolumePK 0 0 refParams = Some r
        /\ In dp (timeSeriesData r)
        /\ isNaN (plasma dp) = true).
Proof.
  split; [vm_compute; reflexivity|].
  split; [vm_compute; reflexivity|].
  split; [vm_compute; reflexivity|].
  split.
  - apply (someDataPoint_true
             (fun dp => isNaN (ce dp) && isNaN (plasma dp))).
    vm_compute. reflexivity.
  - apply (someDataPoint_true (fun dp => isNaN (plasma dp))).
    vm_compute. reflexivity.
Qed.

(** * The checks of [calculateBolusProtocol] *)

Section Validation.

Variable Math_pow : number -> number -> number.
Variable calculateKe0 : number -> number -> number -> number -> number -> number.

Lemma validate_isValid (p : Patient) :
  isValid (validate Math_pow p)
  = negb (idMissing p || ageOutOfRange p || weightOutOfRange p
          || bmiOutOfRange Math_pow p).
Proof.
  unfold validate, idMissing, ageOutOfRange, weightOutOfRange, bmiOutOfRange.
  destruct ((length (patientId p) =? 0)%nat
            || (length (trim (patientId p)) =? 0)%nat);
    destruct (lt (age p) 18 || gt (age p) 80);
    destruct (lt (weight p) 40.0 || gt (weight p) 120.0);
    destruct (lt (getBMI Math_pow p) 16.0 || gt (getBMI Math_pow p) 40.0);
    reflexivity.
Qed.

(** The errors, in the order of the checks. *)
Lemma validate_errors (p : Patient) :
  errors (validate Math_pow p)
  = (if idMissing p then [MissingPatientId] else [])
    ++ (if ageOutOfRange p then [AgeOutOfRange] else [])
    ++ (if weightOutOfRange p then [WeightOutOfRange] else [])
    ++ (if bmiOutOfRange Math_pow p
        then [BmiOutOfRange (getBMI Math_pow p)] else []).
Proof.
  unfold validate, idMissing, ageOutOfRange, weightOutOfRange, bmiOutOfRange.
  cbn [errors].
  destruct ((length (patientId p) =? 0)%nat
            || (length (trim (patientId p)) =? 0)%nat);
    destruct (lt (age p) 18 || gt (age p) 80);
    destruct (lt (weight p) 40.0 || gt (weight p) 120.0);
    destruct (lt (getBMI Math_pow p) 16.0 || gt (getBMI Math_pow p) 40.0);
    reflexivity.
Qed.

(** The computation after the checks returns or does not end; it throws
    nothing. *)
Lemma bolusComparison_not_thrown (p : Patient) (pk : PKParameters)
      (targetCe : number) (finalParams : ThresholdParams)
      (doses : list number) (e : ProtocolError) :
  bolusComparison p pk targetCe finalParams doses <> Thrown e.
Proof.
  induction doses as [|d rest IH]; cbn [bolusComparison]; [discriminate|].
  destruct (optimizeContinuousRate _ _ _ _ _) as [o|]; cbn [bind ended];
    [|discriminate].
  destruct (simulateCompleteProtocol _ _ _ _ _) as [r|]; cbn [bind ended];
    [|discriminate].
  destruct (bolusComparison p pk targetCe finalParams rest) as [l|e'|];
    cbn [bind]; congruence.
Qed.

Lemma calculateBolusProtocol_checked (p : Patient)
      (bolusDoseMg targetCe : number) (pp : ProtocolParams)
      (e : ProtocolError) :
  validateInputs Math_pow p bolusDoseMg targetCe = None ->
  calculateBolusProtocol Math_pow calculateKe0 p bolusDoseMg targetCe pp
  <> Thrown e.
Proof.
  intros Hv. unfold calculateBolusProtocol. rewrite Hv.
  destruct (optimizeContinuousRate _ _ _ _ _) as [o|]; cbn [bind ended];
    [|discriminate].
  destruct (simulateCompleteProtocol _ _ _ _ _) as [r|]; cbn [bind ended];
    [|discriminate].
  unfold generateBolusComparison.
  pose proof (bolusComparison_not_thrown p
                (calculatePKParameters Math_pow calculateKe0 p) targetCe
                (finalParamsOf targetCe pp) testBolusDoses) as Hc.
  destruct (bolusComparison _ _ _ _ _) as [l|e'|]; cbn [bind];
    [discriminate|exfalso; eapply Hc; reflexivity|discriminate].
Qed.

End Validation.

(** A dose or a target that is not a number is neither below nor above
    a bound: the checks let it through. *)
Lemma validateInputs_NaN (Math_pow : number -> number -> number)
      (p : Patient) :
  isValid (validate Math_pow p) = true ->
  validateInputs Math_pow p NaN NaN = None.
Proof.
  intros Hv. unfold validateInputs. rewrite Hv. reflexivity.
Qed.

Lemma returnedWith_true (test : ProtocolResult -> bool)
      (o : Outcome ProtocolResult) :
  returnedWith test o = true -> exists r, o = Returned r /\ test r = true.
Proof.
  destruct o as [r|e|]; cbn [returnedWith]; [eauto|discriminate..].
Qed.

(** C7: the three checks run first. A patient who fails [validate], a
    bolus dose below 1 or above 15 mg, or a target below 0.5 or above
    3.0 makes the call throw, and the error is that of the first
    failing check, whatever the rest of the computation would be (the
    ke0 oracle and the protocol parameters play no part: nothing is
    simulated); the call throws in no other case. The checks are
    comparisons, which are false of NaN: a valid patient with a dose
    that is in [1, 15] or is NaN, and a target that is in [0.5, 3.0] or
    is NaN, passes them and the call throws nothing, so a dose or a
    target that is NaN, which is not in its range, is not rejected. *)
Theorem calculateBolusProtocol_validation
        (Math_pow : number -> number -> number)
        (calculateKe0 : number -> number -> number -> number -> number -> number)
        (p : Patient) (bolusDoseMg targetCe : number) (pp : ProtocolParams) :
  (isValid (validate Math_pow p) = false
   \/ lt bolusDoseMg MIN_BOLUS_DOSE = true
   \/ gt bolusDoseMg MAX_BOLUS_DOSE = true
   \/ lt targetCe 0.5 = true \/ gt targetCe 3.0 = true ->
   exists e,
     validateInputs Math_pow p bolusDoseMg targetCe = Some e
     /\ forall ke0Of pp',
          calculateBolusProtocol Math_pow ke0Of p bolusDoseMg targetCe pp'
          = Thrown e)
  /\ (isValid (validate Math_pow p) = false ->
      calculateBolusProtocol Math_pow calculateKe0 p bolusDoseMg targetCe pp
      = Thrown (PatientValidationFailed (errors (validate Math_pow p))))
  /\ (isValid (validate Math_pow p) = true ->
      lt bolusDoseMg MIN_BOLUS_DOSE = true
      \/ gt bolusDoseMg MAX_BOLUS_DOSE = true ->
      calculateBolusProtocol Math_pow calculateKe0 p bolusDoseMg targetCe pp
      = Thrown BolusDoseOutOfRange)
  /\ (isValid (validate Math_pow p) = true ->
      isNaN bolusDoseMg = true
      \/ (le MIN_BOLUS_DOSE bolusDoseMg = true
          /\ le bolusDoseMg MAX_BOLUS_DOSE = true) ->
      lt targetCe 0.5 = true \/ gt targetCe 3.0 = true ->
      calculateBolusProtocol Math_pow calculateKe0 p bolusDoseMg targetCe pp
      = Thrown TargetCeOutOfRange)
  /\ (isValid (validate Math_pow p) = true ->
      isNaN bolusDoseMg = true
      \/ (le MIN_BOLUS_DOSE bolusDoseMg = true
          /\ le bolusDoseMg MAX_BOLUS_DOSE = true) ->
      isNaN targetCe = true
      \/ (le 0.5 targetCe = true /\ le targetCe 3.0 = true) ->
      validateInputs Math_pow p bolusDoseMg targetCe = None
      /\ forall e,
           calculateBolusProtocol Math_pow calculateKe0 p bolusDoseMg
                                  targetCe pp <> Thrown e)
  /\ ((exists e,
         calculateBolusProtocol Math_pow calculateKe0 p bolusDoseMg targetCe pp
         = Thrown e)
      <-> isValid (validate Math_pow p) = false
          \/ lt bolusDoseMg MIN_BOLUS_DOSE = true
          \/ gt bolusDoseMg MAX_BOLUS_DOSE = true
          \/ lt targetCe 0.5 = true \/ gt targetCe 3.0 = true).
Proof.
  assert (Hthrown :
            isValid (validate Math_pow p) = false
            \/ lt bolusDoseMg MIN_BOLUS_DOSE = true
            \/ gt bolusDoseMg MAX_BOLUS_DOSE = true
            \/ lt targetCe 0.5 = true \/ gt targetCe 3.0 = true ->
            exists e,
              validateInputs Math_pow p bolusDoseMg targetCe = Some e
              /\ forall ke0Of pp',
                   calculateBolusProtocol Math_pow ke0Of p bolusDoseMg
                                          targetCe pp' = Thrown e).
  { intros H.
    assert (Hs : exists e,
               validateInputs Math_pow p bolusDoseMg targetCe = Some e).
    { unfold validateInputs.
      destruct (isValid (validate Math_pow p)); cbn [negb]; [|eauto].
      destruct (lt bolusDoseMg MIN_BOLUS_DOSE) eqn:B1; cbn [orb]; [eauto|].
      destruct (gt bolusDoseMg MAX_BOLUS_DOSE) eqn:B2; [eauto|].
      destruct (lt targetCe 0.5) eqn:T1; cbn [orb]; [eauto|].
      destruct (gt targetCe 3.0) eqn:T2; [eauto|].
      destruct H as [H|[H|[H|[H|H]]]]; discriminate. }
    destruct Hs as [e He]. exists e. split; [exact He|].
    intros ke0Of pp'. unfold calculateBolusProtocol. rewrite He. reflexivity. }
  split; [exact Hthrown|]. split; [|split; [|split; [|split]]].
  - intros H. unfold calculateBolusProtocol, validateInputs. rewrite H.
    reflexivity.
  - intros Hv H. unfold calculateBolusProtocol, validateInputs. rewrite Hv.
    cbn [negb].
    replace (lt bolusDoseMg MIN_BOLUS_DOSE || gt bolusDoseMg MAX_BOLUS_DOSE)
      with true; [reflexivity|].
    symmetry. apply orb_true_iff. exact H.
  - intros Hv Hd H. unfold calculateBolusProtocol, validateInputs. rewrite Hv.
    cbn [negb].
    rewrite (proj2 (range_check bolusDoseMg MIN_BOLUS_DOSE MAX_BOLUS_DOSE
                                eq_refl eq_refl) Hd).
    replace (lt targetCe 0.5 || gt targetCe 3.0) with true; [reflexivity|].
    symmetry. apply orb_true_iff. exact H.
  - intros Hv Hd Ht.
    assert (Hn : validateInputs Math_pow p bolusDoseMg targetCe = None).
    { unfold validateInputs. rewrite Hv. cbn [negb].
      rewrite (proj2 (range_check bolusDoseMg MIN_BOLUS_DOSE MAX_BOLUS_DOSE
                                  eq_refl eq_refl) Hd).
      rewrite (proj2 (range_check targetCe 0.5 3.0 eq_refl eq_refl) Ht).
      reflexivity. }
    split; [exact Hn|].
    intros e. apply calculateBolusProtocol_checked. exact Hn.
  - split; [|intros H; destruct (Hthrown H) as (e & _ & He); eauto].
    intros [e He].
    destruct (isValid (validate Math_pow p)) eqn:V; [|left; reflexivity].
    destruct (lt bolusDoseMg MIN_BOLUS_DOSE) eqn:B1; [tauto|].
    destruct (gt bolusDoseMg MAX_BOLUS_DOSE) eqn:B2; [tauto|].
    destruct (lt targetCe 0.5) eqn:T1; [tauto|].
    destruct (gt targetCe 3.0) eqn:T2; [tauto|].
    exfalso.
    apply (calculateBolusProtocol_checked Math_pow calculateKe0 p bolusDoseMg
             targetCe pp e); [|exact He].
    unfold validateInputs. rewrite V, B1, B2, T1, T2. reflexivity.
Qed.

(** The theorem at the reference patient, for a dose that is NaN, which
    is what [parseFloat] reads from an empty field, and at a target
    that is NaN: the checks are passed, nothing is thrown, and the call
    returns a result, with the rate 1.0 the optimizer starts from. *)
Lemma calculateBolusProtocol_validation_witness :
  isValid (validate square refPatient) = true
  /\ le MIN_BOLUS_DOSE NaN = false /\ le NaN MAX_BOLUS_DOSE = false
  /\ validateInputs square refPatient NaN 1 = None
  /\ (exists r,
        calculateBolusProtocol square refKe0 refPatient NaN 1 noProtocolParams
        = Returned r
        /\ isNaN (res_bolusDose r) && (optimalContinuousRate r =? 1) = true)
  /\ validateInputs square refPatient 7 NaN = None
  /\ (exists r,
        calculateBolusProtocol square refKe0 refPatient 7 NaN noProtocolParams
        = Returned r
        /\ isNaN (res_targetCe r) && (optimalContinuousRate r =? 1) = true).
Proof.
  split; [vm_compute; reflexivity|].
  split; [vm_compute; reflexivity|].
  split; [vm_compute; reflexivity|].
  destruct (calculateBolusProtocol_validation square refKe0 refPatient NaN 1
              noProtocolParams) as (_ & _ & _ & _ & Hdose & _).
  destruct (calculateBolusProtocol_validation square refKe0 refPatient 7 NaN
              noProtocolParams) as (_ & _ & _ & _ & Htarget & _).
  split; [|split; [|split]].
  - refine (proj1 (Hdose _ _ _));
      [vm_compute; reflexivity|left; vm_compute; reflexivity
      |right; split; vm_compute; reflexivity].
  - apply (returnedWith_true
             (fun r => isNaN (res_bolusDose r)
                       && (optimalContinuousRate r =? 1))).
    vm_compute. reflexivity.
  - refine (proj1 (Htarget _ _ _));
      [vm_compute; reflexivity|right; split; vm_compute; reflexivity
      |left; vm_compute; reflexivity].
  - apply (returnedWith_true
             (fun r => isNaN (res_targetCe r)
                       && (optimalContinuousRate r =? 1))).
    vm_compute. reflexivity.
Defined.

(** * The number of adjustments of a run *)

Lemma closeSteps_spec (ts : list number) (j d : nat) (t t' : number) :
  closeSteps ts = true -> (1 <= d <= 49)%nat ->
  nth_error ts j = Some t -> nth_error ts (j + d) = Some t' ->
  ge (t' - t) minimumInterval = false.
Proof.
  revert j. induction ts as [|a rest IH]; intros j Hc Hd Hj Hj'.
  - destruct j; discriminate.
  - cbn [closeSteps] in Hc. apply andb_prop in Hc. destruct Hc as [Hhere Hrest].
    destruct j as [|j].
    + injection Hj as ->.
      destruct d as [|d]; [lia|]. cbn [Nat.add nth_error] in Hj'.
      apply negb_true_iff.
      apply (proj1 (forallb_forall _ _) Hhere).
      apply (nth_error_In _ d). rewrite nth_error_firstn.
      destruct (Nat.ltb_spec d 49); [exact Hj'|lia].
    + cbn [Nat.add nth_error] in Hj, Hj'. eauto.
Qed.

Lemma stepTime_close : closeSteps (map stepTime (seq 0 1850)) = true.
Proof. vm_compute. reflexivity. Qed.

(** Two steps less than 50 apart are less than the minimum interval
    apart. *)
Lemma stepTime_gap (j d : nat) :
  (j < 1801)%nat -> (1 <= d <= 49)%nat ->
  ge (stepTime (j + d) - stepTime j) minimumInterval = false.
Proof.
  intros Hj Hd.
  apply (closeSteps_spec _ j d _ _ stepTime_close Hd).
  - rewrite nth_error_map, nth_error_seq.
    destruct (Nat.ltb_spec j 1850); [reflexivity|lia].
  - rewrite nth_error_map, nth_error_seq.
    destruct (Nat.ltb_spec (j + d) 1850); [reflexivity|lia].
Qed.

Section RunCount.

Variable patient : Patient.
Variable pkParams : PKParameters.
Variables bolusDoseMg initialRate : number.
Variable params : ThresholdParams.

Local Abbreviation final :=
  (finalState patient pkParams bolusDoseMg initialRate params).

(** The [k]-th adjustment (from 0) is made at step [50 * k] at the
    earliest. *)
Lemma event_step_index (k : nat) (ev : DosageAdjustment) :
  nth_error (ls_dosageAdjustments final) k = Some ev ->
  exists j dp,
    nth_error (ls_timeSeriesData final) j = Some dp
    /\ adj_time ev = stepTime j
    /\ adjustmentNumber dp = S k
    /\ (50 * k <= j)%nat /\ (j < 1801)%nat.
Proof.
  pose proof (finalState_inv patient pkParams bolusDoseMg initialRate params)
    as Hinv.
  revert ev. induction k as [|k IH]; intros ev He.
  - destruct (inv_events _ _ _ _ Hinv 0%nat ev He)
      as (_ & _ & _ & _ & _ & _ & j & dp & Hj & Ht & _ & _ & Hn & _).
    exists j, dp. repeat split; try assumption; try lia.
    rewrite <- (inv_length _ _ _ _ Hinv). apply nth_error_Some. congruence.
  - destruct (nth_error (ls_dosageAdjustments final) k) as [prev|] eqn:Ep.
    2:{ apply nth_error_None in Ep.
        assert (S k < length (ls_dosageAdjustments final))%nat
          by (apply nth_error_Some; congruence).
        lia. }
    destruct (IH prev eq_refl) as (j & dp & Hj & Ht & Hn & Hk & Hlt).
    destruct (inv_events _ _ _ _ Hinv (S k) ev He)
      as (_ & _ & _ & _ & _ & Hgap & j' & dp' & Hj' & Ht' & _ & _ & Hn' & _).
    assert (Hlt' : (j' < 1801)%nat).
    { rewrite <- (inv_length _ _ _ _ Hinv). apply nth_error_Some. congruence. }
    assert (Hjj : (j < j')%nat).
    { eapply (events_in_step_order initialRate params 1801 final k (S k));
        eauto. }
    exists j', dp'. repeat split; try assumption.
    rewrite (timeAfter_S _ _ _ Ep), Ht, Ht' in Hgap.
    destruct (Nat.lt_ge_cases j' (j + 50)) as [Hnear|Hfar]; [|lia].
    exfalso.
    pose proof (stepTime_gap j (j' - j)) as G.
    replace (j + (j' - j))%nat with j' in G by lia.
    rewrite G in Hgap by lia. discriminate.
Qed.

Lemma adjustments_count : (length (ls_dosageAdjustments final) <= 37)%nat.
Proof.
  destruct (Nat.le_gt_cases (length (ls_dosageAdjustments final)) 37)
    as [|Hmany]; [assumption|].
  destruct (nth_error (ls_dosageAdjustments final) 37) as [ev|] eqn:E.
  - destruct (event_step_index 37 ev E) as (j & _ & _ & _ & _ & Hk & Hlt). lia.
  - apply nth_error_None in E. lia.
Qed.

End RunCount.

(** X1: a run makes at most 37 adjustments: the [k]-th one (from 0) is
    made at step [50 * k] at the earliest, which is minute [5 * k], and
    the last step is step 1800. *)
Theorem adjustments_at_most_37
        (patient : Patient) (pkParams : PKParameters)
        (bolusDoseMg initialRate : number) (params : ThresholdParams) :
  exists r,
    simulateCompleteProtocol patient pkParams bolusDoseMg initialRate params
    = Some r
    /\ (length (dosageAdjustments r) <= 37)%nat
    /\ forall k ev, nth_error (dosageAdjustments r) k = Some ev ->
         exists j, adj_time ev = of_nat j * TIME_STEP
                   /\ (50 * k <= j)%nat /\ (j <= 1800)%nat.
Proof.
  rewrite simulateCompleteProtocol_returns. eexists. split; [reflexivity|].
  cbn [dosageAdjustments]. split.
  - apply adjustments_count.
  - intros k ev He.
    destruct (event_step_index patient pkParams bolusDoseMg initialRate params
                k ev He) as (j & dp & _ & Ht & _ & Hk & Hlt).
    exists j. repeat split; [exact Ht|exact Hk|lia].
Qed.

(** * The floor of the rate *)

Lemma isNaN_NaN : isNaN NaN = true.
Proof. vm_compute. reflexivity. Qed.

(** The maximum of the minimum rate and a product is NaN exactly when
    the product is, and is at least the minimum rate otherwise. *)
Lemma floor_cases (p : number) :
  (isNaN p = true /\ Math_max MIN_INFUSION_RATE p = NaN)
  \/ (isNaN p = false
      /\ isNaN (Math_max MIN_INFUSION_RATE p) = false
      /\ le MIN_INFUSION_RATE (Math_max MIN_INFUSION_RATE p) = true
      /\ ((Math_max MIN_INFUSION_RATE p = p /\ le MIN_INFUSION_RATE p = true)
          \/ (Math_max MIN_INFUSION_RATE p = MIN_INFUSION_RATE
              /\ le p MIN_INFUSION_RATE = true))).
Proof.
  destruct limits_facts as (Nmin & _).
  destruct (Math_max_cases MIN_INFUSION_RATE p)
    as [[E [N|N]]|(_ & Np & [[E H]|[E H]])].
  - congruence.
  - left. auto.
  - right. rewrite E. repeat split; auto.
  - right. rewrite E. repeat split; auto.
Qed.

Section RunFloor.

Variable patient : Patient.
Variable pkParams : PKParameters.
Variables bolusDoseMg initialRate : number.
Variable params : ThresholdParams.

Local Abbreviation final :=
  (finalState patient pkParams bolusDoseMg initialRate params).

(** An adjustment that leaves the rate at or below the minimum is the
    last one. *)
Lemma floor_is_last (k : nat) (ev : DosageAdjustment) :
  nth_error (ls_dosageAdjustments final) k = Some ev ->
  gt (newRate ev) MIN_INFUSION_RATE = false ->
  length (ls_dosageAdjustments final) = S k.
Proof.
  intros He Hfloor.
  pose proof (finalState_inv patient pkParams bolusDoseMg initialRate params)
    as Hinv.
  assert (Hk : (k < length (ls_dosageAdjustments final))%nat)
    by (apply nth_error_Some; congruence).
  destruct (nth_error (ls_dosageAdjustments final) (S k)) as [next|] eqn:En.
  - destruct (inv_events _ _ _ _ Hinv (S k) next En) as (_ & Hold & _ & Hgt & _).
    rewrite (rateAfter_S _ _ _ _ He) in Hold. congruence.
  - apply nth_error_None in En. lia.
Qed.

(** A run is not adjusted when it starts at a rate that is not above the
    minimum, or when its threshold is not a number. *)
Lemma never_adjusted :
  gt initialRate MIN_INFUSION_RATE = false
  \/ isNaN (upperThreshold params) = true ->
  ls_dosageAdjustments final = [].
Proof.
  intros H.
  pose proof (finalState_inv patient pkParams bolusDoseMg initialRate params)
    as Hinv.
  destruct (ls_dosageAdjustments final) as [|ev rest] eqn:E; [reflexivity|].
  exfalso.
  assert (He : nth_error (ls_dosageAdjustments final) 0 = Some ev)
    by (rewrite E; reflexivity).
  destruct (inv_events _ _ _ _ Hinv 0%nat ev He) as (_ & Hold & _ & Hgt & Hce & _).
  rewrite rateAfter_O in Hold.
  destruct H as [H|H].
  - congruence.
  - unfold ge in Hce. apply le_not_nan in Hce. destruct Hce. congruence.
Qed.

End RunFloor.

(** X2: an adjustment whose new rate is not above the minimum rate is
    the last one of the run, and every data point from its step on
    carries that rate. *)
Theorem adjustment_to_floor_is_last
        (patient : Patient) (pkParams : PKParameters)
        (bolusDoseMg initialRate : number) (params : ThresholdParams) :
  exists r,
    simulateCompleteProtocol patient pkParams bolusDoseMg initialRate params
    = Some r
    /\ forall k ev, nth_error (dosageAdjustments r) k = Some ev ->
         gt (newRate ev) MIN_INFUSION_RATE = false ->
         length (dosageAdjustments r) = S k
         /\ exists j, adj_time ev = of_nat j * TIME_STEP
              /\ forall j' dp', (j <= j')%nat ->
                   nth_error (timeSeriesData r) j' = Some dp' ->
                   infusionRate dp' = newRate ev
                   /\ adjustmentNumber dp' = S k.
Proof.
  rewrite simulateCompleteProtocol_returns. eexists. split; [reflexivity|].
  cbn [timeSeriesData dosageAdjustments].
  pose proof (finalState_inv patient pkParams bolusDoseMg initialRate params)
    as Hinv.
  intros k ev He Hfloor.
  pose proof (floor_is_last patient pkParams bolusDoseMg initialRate params
                k ev He Hfloor) as Hlen.
  split; [exact Hlen|].
  destruct (inv_events _ _ _ _ Hinv k ev He)
    as (_ & _ & _ & _ & _ & _ & j & dp & Hj & Ht & _ & _ & Hn & _).
  exists j. split; [exact Ht|].
  intros j' dp' Hjj Hj'.
  pose proof (inv_monotone _ _ _ _ Hinv j j' dp dp' Hjj Hj Hj') as Hmono.
  destruct (inv_samples _ _ _ _ Hinv j' dp' Hj') as (_ & Hle & Hrate & _).
  assert (Hnum : adjustmentNumber dp' = S k) by lia.
  split; [|exact Hnum].
  rewrite Hrate, Hnum. apply rateAfter_S. exact He.
Qed.

(** X3: whatever the reduction factor, the new rate of an adjustment
    is never below the minimum rate: it is NaN exactly when the product
    [oldRate * reductionFactor] is, and otherwise it is at least the
    minimum rate, and is the minimum rate or the product; the rate of a
    data point is the initial rate, or NaN, or at least the minimum
    rate. *)
Theorem new_rate_not_below_floor
        (patient : Patient) (pkParams : PKParameters)
        (bolusDoseMg initialRate : number) (params : ThresholdParams) :
  exists r,
    simulateCompleteProtocol patient pkParams bolusDoseMg initialRate params
    = Some r
    /\ (forall ev, In ev (dosageAdjustments r) ->
          lt (newRate ev) MIN_INFUSION_RATE = false
          /\ (isNaN (newRate ev) = isNaN (oldRate ev * reductionFactor params))
          /\ (isNaN (newRate ev) = false ->
              le MIN_INFUSION_RATE (newRate ev) = true
              /\ (newRate ev = MIN_INFUSION_RATE
                  \/ newRate ev = oldRate ev * reductionFactor params)))
    /\ (forall dp, In dp (timeSeriesData r) ->
          infusionRate dp = initialRate
          \/ isNaN (infusionRate dp) = true
          \/ le MIN_INFUSION_RATE (infusionRate dp) = true).
Proof.
  rewrite simulateCompleteProtocol_returns. eexists. split; [reflexivity|].
  cbn [timeSeriesData dosageAdjustments].
  pose proof (finalState_inv patient pkParams bolusDoseMg initialRate params)
    as Hinv.
  assert (Hev : forall k ev,
             nth_error (ls_dosageAdjustments
                          (finalState patient pkParams bolusDoseMg initialRate
                                      params)) k = Some ev ->
             lt (newRate ev) MIN_INFUSION_RATE = false
             /\ (isNaN (newRate ev)
                 = isNaN (oldRate ev * reductionFactor params))
             /\ (isNaN (newRate ev) = false ->
                 le MIN_INFUSION_RATE (newRate ev) = true
                 /\ (newRate ev = MIN_INFUSION_RATE
                     \/ newRate ev = oldRate ev * reductionFactor params))).
  { intros k ev He.
    destruct (inv_events _ _ _ _ Hinv k ev He) as (_ & _ & Hnew & _).
    rewrite Hnew.
    destruct (floor_cases (oldRate ev * reductionFactor params))
      as [[N E]|(N & N' & Hle & Hc)].
    - rewrite E, N. split; [reflexivity|]. split; [exact isNaN_NaN|].
      rewrite isNaN_NaN. discriminate.
    - rewrite N, N'. split; [now apply le_not_lt|]. split; [reflexivity|].
      intros _. split; [exact Hle|]. destruct Hc as [[E _]|[E _]]; auto. }
  split.
  - intros ev [k He]%In_nth_error. eauto.
  - intros dp [j Hj]%In_nth_error.
    destruct (inv_samples _ _ _ _ Hinv j dp Hj) as (_ & Hle & Hrate & _).
    destruct (adjustmentNumber dp) as [|c] eqn:Ec.
    + left. rewrite Hrate. apply rateAfter_O.
    + right.
      destruct (nth_error (ls_dosageAdjustments
                             (finalState patient pkParams bolusDoseMg
                                         initialRate params)) c)
        as [ev|] eqn:He; [|apply nth_error_None in He; lia].
      rewrite Hrate, (rateAfter_S _ _ _ _ He).
      destruct (Hev c ev He) as (_ & _ & H).
      destruct (isNaN (newRate ev)); [left; reflexivity|].
      right. apply H. reflexivity.
Qed.

(** X4: a run that starts at a rate that is not above the minimum
    rate, or whose threshold [targetCe * upperThresholdRatio] is NaN,
    makes no adjustment, and every data point carries the initial
    rate. *)
Theorem no_adjustment_cases
        (patient : Patient) (pkParams : PKParameters)
        (bolusDoseMg initialRate : number) (params : ThresholdParams) :
  gt initialRate MIN_INFUSION_RATE = false
  \/ isNaN (targetCe params * upperThresholdRatio params) = true ->
  exists r,
    simulateCompleteProtocol patient pkParams bolusDoseMg initialRate params
    = Some r
    /\ dosageAdjustments r = []
    /\ forall dp, In dp (timeSeriesData r) ->
         infusionRate dp = initialRate /\ adjustmentNumber dp = 0%nat.
Proof.
  intros H.
  rewrite simulateCompleteProtocol_returns. eexists. split; [reflexivity|].
  cbn [timeSeriesData dosageAdjustments].
  pose proof (finalState_inv patient pkParams bolusDoseMg initialRate params)
    as Hinv.
  pose proof (never_adjusted patient pkParams bolusDoseMg initialRate params H)
    as Hnone.
  split; [exact Hnone|].
  intros dp [j Hj]%In_nth_error.
  destruct (inv_samples _ _ _ _ Hinv j dp Hj) as (_ & Hle & Hrate & _).
  rewrite Hnone in Hle. cbn [length] in Hle.
  assert (Hz : adjustmentNumber dp = 0%nat) by lia.
  split; [|exact Hz]. rewrite Hrate, Hz. apply rateAfter_O.
Qed.

(** The theorem at the reference patient, started at the minimum rate. *)
Lemma no_adjustment_cases_witness :
  exists r,
    simulateCompleteProtocol refPatient refPK 7 0.1 refParams = Some r
    /\ dosageAdjustments r = [].
Proof.
  destruct (no_adjustment_cases refPatient refPK 7 0.1 refParams)
    as (r & Hr & He & _).
  - left. vm_compute. reflexivity.
  - exists r. split; [exact Hr|exact He].
Defined.

(** * The data points and the states of the loop *)

Lemma openLoop_S (pk : PKParameters) (n : nat) (inf : number)
      (sc : SystemState * number) :
  openLoop pk (S n) inf sc = openLoopStep pk inf (openLoop pk n inf sc).
Proof.
  revert sc. induction n as [|n IH]; intros sc; [reflexivity|].
  change (openLoop pk (S (S n)) inf sc)
    with (openLoop pk (S n) inf (openLoopStep pk inf sc)).
  rewrite IH. reflexivity.
Qed.

Lemma openLoopStep_fst (pk : PKParameters) (inf : number)
      (sc : SystemState * number) :
  fst (openLoopStep pk inf sc)
  = updateSystemStateRK4 pk (fst sc) inf timeStep.
Proof. destruct sc. reflexivity. Qed.

Lemma openLoopStep_snd (pk : PKParameters) (inf : number)
      (sc : SystemState * number) :
  snd (openLoopStep pk inf sc)
  = snd sc + timeStep * (ke0 pk * (a1 (fst sc) / v1 pk - snd sc)).
Proof. destruct sc. reflexivity. Qed.

(** The masses of the open loop do not depend on the effect site. *)
Lemma openLoop_fst (pk : PKParameters) (n : nat) (inf : number)
      (sc sc' : SystemState * number) :
  fst sc = fst sc' ->
  fst (openLoop pk n inf sc) = fst (openLoop pk n inf sc').
Proof.
  revert sc sc'. induction n as [|n IH]; intros sc sc' H; [exact H|].
  cbn [openLoop]. apply IH. rewrite !openLoopStep_fst, H. reflexivity.
Qed.

(** The state is advanced at every step but the last. *)
Lemma state_advanced :
  forallb (fun i => lt (of_nat i) (numSteps - 1)) (seq 0 1800) = true
  /\ lt (of_nat 1800) (numSteps - 1) = false.
Proof. split; vm_compute; reflexivity. Qed.

Lemma stepTime_0 : stepTime 0 = 0 /\ toFixed1 (stepTime 0) = 0.
Proof. split; vm_compute; reflexivity. Qed.

Lemma stepTime_sub_self :
  forallb (fun t => isZero (t - t)) (map stepTime (seq 0 1801)) = true.
Proof. vm_compute. reflexivity. Qed.

Section RunStates.

Variable patient : Patient.
Variable pkParams : PKParameters.
Variables bolusDoseMg initialRate : number.
Variable params : ThresholdParams.

Local Abbreviation loop :=
  (protocolLoop patient pkParams bolusDoseMg initialRate params).

Lemma loop_S (n : nat) :
  loop (S n) = protocolStep patient pkParams params (loop n) n.
Proof. apply protocolLoop_S. Qed.

(** A step appends one data point and at most one adjustment. *)
Lemma step_samples (st : LoopState) (i : nat) :
  exists dp,
    ls_timeSeriesData (protocolStep patient pkParams params st i)
    = ls_timeSeriesData st ++ [dp]
    /\ ce dp = ls_currentCe (protocolStep patient pkParams params st i)
    /\ plasma dp = a1 (ls_state st) / v1 pkParams
    /\ infusionRate dp = ls_currentRate (protocolStep patient pkParams params st i)
    /\ adjustmentNumber dp
       = ls_adjustmentCount (protocolStep patient pkParams params st i)
    /\ isBolus dp = (i =? 0)%nat
    /\ dp_targetCe dp = targetCe params
    /\ dp_upperThreshold dp = upperThreshold params
    /\ timeSinceLastAdjustment dp
       = stepTime i
         - ls_lastAdjustmentTime (protocolStep patient pkParams params st i).
Proof.
  eexists. unfold protocolStep. cbn [ls_timeSeriesData].
  split; [reflexivity|].
  cbn [ce plasma infusionRate adjustmentNumber isBolus dp_targetCe
       dp_upperThreshold timeSinceLastAdjustment ls_currentCe ls_currentRate
       ls_adjustmentCount ls_lastAdjustmentTime].
  repeat split; reflexivity.
Qed.

Lemma step_events (st : LoopState) (i : nat) :
  exists rest,
    ls_dosageAdjustments (protocolStep patient pkParams params st i)
    = ls_dosageAdjustments st ++ rest.
Proof.
  unfold protocolStep. cbn [ls_dosageAdjustments].
  destruct (thresholdReached _ _ _ _ _); eexists;
    [reflexivity|symmetry; apply app_nil_r].
Qed.

Lemma loop_events_prefix (n m : nat) :
  (n <= m)%nat ->
  exists rest,
    ls_dosageAdjustments (loop m) = ls_dosageAdjustments (loop n) ++ rest.
Proof.
  induction 1 as [|m Hnm [rest IH]].
  - exists []. symmetry. apply app_nil_r.
  - rewrite loop_S. destruct (step_events (loop m) m) as [more ->].
    rewrite IH, <- app_assoc. eauto.
Qed.

Lemma loop_length (n : nat) : length (ls_timeSeriesData (loop n)) = n.
Proof.
  exact (inv_length _ _ _ _
           (RunInv_loop patient pkParams bolusDoseMg initialRate params n)).
Qed.

(** The data point of step [j] records the variables of the loop as they
    are after that step, and the plasma concentration of the state the
    step started from. *)
Lemma sample_of_states (n j : nat) (dp : DataPoint) :
  nth_error (ls_timeSeriesData (loop n)) j = Some dp ->
  (j < n)%nat
  /\ ce dp = ls_currentCe (loop (S j))
  /\ plasma dp = a1 (ls_state (loop j)) / v1 pkParams
  /\ infusionRate dp = ls_currentRate (loop (S j))
  /\ adjustmentNumber dp = ls_adjustmentCount (loop (S j))
  /\ isBolus dp = (j =? 0)%nat
  /\ dp_targetCe dp = targetCe params
  /\ dp_upperThreshold dp = upperThreshold params
  /\ timeSinceLastAdjustment dp
     = stepTime j - ls_lastAdjustmentTime (loop (S j)).
Proof.
  revert j dp. induction n as [|n IH]; intros j dp Hj.
  - destruct j; discriminate.
  - rewrite loop_S in Hj.
    destruct (step_samples (loop n) n) as (new & E & Hnew).
    rewrite E in Hj. apply nth_error_snoc in Hj.
    destruct Hj as [[Hlt Hj]|[-> ->]].
    + destruct (IH j dp Hj) as [Hjn H]. split; [lia|exact H].
    + rewrite loop_length. split; [lia|].
      rewrite (loop_S n). exact Hnew.
Qed.

(** The adjustments made until a step are the first ones of the log. *)
Lemma events_until (n m : nat) :
  (n <= m)%nat ->
  ls_dosageAdjustments (loop n)
  = firstn (ls_adjustmentCount (loop n)) (ls_dosageAdjustments (loop m)).
Proof.
  intros Hnm. destruct (loop_events_prefix n m Hnm) as [rest ->].
  rewrite (inv_count _ _ _ _
             (RunInv_loop patient pkParams bolusDoseMg initialRate params n)).
  rewrite firstn_app, Nat.sub_diag, firstn_O, app_nil_r, firstn_all.
  reflexivity.
Qed.

Lemma lastAdjustmentTime_until (n m : nat) :
  (n <= m)%nat ->
  ls_lastAdjustmentTime (loop n)
  = timeAfter (ls_dosageAdjustments (loop m)) (ls_adjustmentCount (loop n)).
Proof.
  intros Hnm.
  pose proof (RunInv_loop patient pkParams bolusDoseMg initialRate params n)
    as Hinv.
  rewrite (inv_time _ _ _ _ Hinv). unfold timeAfter.
  rewrite firstn_all, <- (events_until n m Hnm). reflexivity.
Qed.

(** *** The open loop inside the closed one *)

Local Abbreviation s0 := {| a1 := bolusDoseMg; a2 := 0.0; a3 := 0.0 |}.
Local Abbreviation inf := ((initialRate * weight patient) / 60.0).

(** Until an adjustment is made, the masses are those of the open loop
    at the initial rate. *)
Lemma loop_state_open (n : nat) :
  (n <= 1800)%nat ->
  (n = 0%nat \/ ls_dosageAdjustments (loop (pred n)) = []) ->
  ls_state (loop n) = fst (openLoop pkParams n inf (s0, 0.0)).
Proof.
  induction n as [|n IH]; intros Hn Hnone; [reflexivity|].
  cbn [pred] in Hnone. destruct Hnone as [|Hnone]; [discriminate|].
  pose proof (RunInv_loop patient pkParams bolusDoseMg initialRate params n)
    as Hinv.
  assert (Hrate : ls_currentRate (loop n) = initialRate).
  { rewrite (inv_rate _ _ _ _ Hinv), Hnone. reflexivity. }
  assert (Hprev : ls_state (loop n) = fst (openLoop pkParams n inf (s0, 0.0))).
  { apply IH; [lia|]. destruct n as [|n]; [left; reflexivity|right].
    cbn [pred]. destruct (loop_events_prefix n (S n)) as [rest E]; [lia|].
    rewrite Hnone in E. symmetry in E. apply app_eq_nil in E. tauto. }
  rewrite loop_S, openLoop_S, openLoopStep_fst, <- Hprev.
  unfold protocolStep. cbn [ls_state].
  assert (Hguard : lt (of_nat n) (numSteps - 1) = true).
  { apply (proj1 (forallb_forall _ _) (proj1 state_advanced)).
    apply in_seq. lia. }
  rewrite Hguard, Hrate. reflexivity.
Qed.

(** The effect site of the closed loop is not advanced at step 0: after
    step [n] it is where the open loop is after [n] passes when it
    starts from the state that follows the bolus state. *)
Lemma loop_ce_open (n : nat) :
  (n <= 1800)%nat ->
  (n = 0%nat \/ ls_dosageAdjustments (loop (pred n)) = []) ->
  ls_currentCe (loop (S n))
  = snd (openLoop pkParams n inf
           (updateSystemStateRK4 pkParams s0 inf timeStep, 0.0)).
Proof.
  induction n as [|n IH]; intros Hn Hnone; [reflexivity|].
  assert (Hbefore : n = 0%nat \/ ls_dosageAdjustments (loop (pred n)) = []).
  { cbn [pred] in Hnone. destruct Hnone as [|Hnone]; [discriminate|].
    destruct n as [|n]; [left; reflexivity|right].
    cbn [pred]. destruct (loop_events_prefix n (S n)) as [rest E]; [lia|].
    rewrite Hnone in E. symmetry in E. apply app_eq_nil in E. tauto. }
  pose proof (loop_state_open (S n) Hn Hnone) as Hstate.
  specialize (IH ltac:(lia) Hbefore).
  rewrite (loop_S (S n)), openLoop_S, openLoopStep_snd.
  unfold protocolStep at 1. cbn [ls_currentCe].
  change (0 <? S n)%nat with true. cbv iota.
  rewrite IH, Hstate.
  change (openLoop pkParams (S n) inf (s0, 0.0))
    with (openLoop pkParams n inf (openLoopStep pkParams inf (s0, 0.0))).
  rewrite (openLoop_fst pkParams n inf (openLoopStep pkParams inf (s0, 0.0))
             (updateSystemStateRK4 pkParams s0 inf timeStep, 0.0))
    by apply openLoopStep_fst.
  reflexivity.
Qed.

(** The result of a run, from the state the loop ends in. *)
Lemma simulateCompleteProtocol_loop :
  simulateCompleteProtocol patient pkParams bolusDoseMg initialRate params
  = Some {| timeSeriesData := ls_timeSeriesData (loop 1801);
            dosageAdjustments := ls_dosageAdjustments (loop 1801);
            performance :=
              evaluatePerformance (ls_timeSeriesData (loop 1801))
                                  (targetCe params);
            sim_bolusDose := bolusDoseMg;
            initialContinuousRate := initialRate;
            thresholdParams := params |}.
Proof.
  unfold simulateCompleteProtocol. rewrite numSteps_count. reflexivity.
Qed.

(** The variables of the loop after its first step. *)
Lemma first_step :
  let adjusted :=
    ge 0 (targetCe params * upperThresholdRatio params)
    && gt initialRate MIN_INFUSION_RATE in
  ls_currentCe (loop 1) = 0
  /\ ls_adjustmentCount (loop 1) = (if adjusted then 1%nat else 0%nat)
  /\ ls_currentRate (loop 1)
     = (if adjusted
        then Math_max MIN_INFUSION_RATE (initialRate * reductionFactor params)
        else initialRate).
Proof.
  cbv zeta.
  unfold protocolLoop. cbn [seq fold_left]. unfold protocolStep.
  cbn [ls_adjustmentCount ls_currentRate ls_currentCe].
  unfold thresholdReached, initialLoopState.
  cbn [ls_currentCe ls_lastAdjustmentTime ls_currentRate ls_adjustmentCount
       calculateBolusInitialState effectSiteConc Nat.ltb Nat.leb].
  fold (stepTime 0).
  pose proof (proj1 (forallb_forall _ _) stepTime_first_eligible 0%nat) as G.
  cbv beta in G. rewrite G by (apply in_seq; lia).
  unfold upperThreshold. rewrite andb_true_r.
  split; [reflexivity|].
  destruct (ge 0 (targetCe params * upperThresholdRatio params)
            && gt initialRate MIN_INFUSION_RATE); split; reflexivity.
Qed.

End RunStates.

(** X5: the first data point is the bolus state: time 0, effect-site
    concentration 0, and the plasma concentration [bolusDoseMg / v1]
    that [calculateBolusInitialState] reports. An adjustment is made at
    that step exactly when the threshold is at or below 0 and the
    initial rate is above the minimum. It is the only data point flagged
    [isBolus], and every data point carries the target and the
    threshold of the run. *)
Theorem first_data_point
        (patient : Patient) (pkParams : PKParameters)
        (bolusDoseMg initialRate : number) (params : ThresholdParams) :
  exists r first,
    simulateCompleteProtocol patient pkParams bolusDoseMg initialRate params
    = Some r
    /\ nth_error (timeSeriesData r) 0 = Some first
    /\ time first = 0 /\ ce first = 0
    /\ plasma first = bolusDoseMg / v1 pkParams
    /\ plasma first = plasmaConc (calculateBolusInitialState pkParams bolusDoseMg)
    /\ (let adjusted :=
          ge 0 (targetCe params * upperThresholdRatio params)
          && gt initialRate MIN_INFUSION_RATE in
        adjustmentNumber first = (if adjusted then 1%nat else 0%nat)
        /\ infusionRate first
           = (if adjusted
              then Math_max MIN_INFUSION_RATE
                            (initialRate * reductionFactor params)
              else initialRate))
    /\ forall j dp, nth_error (timeSeriesData r) j = Some dp ->
         isBolus dp = (j =? 0)%nat
         /\ dp_targetCe dp = targetCe params
         /\ dp_upperThreshold dp
            = targetCe params * upperThresholdRatio params.
Proof.
  rewrite simulateCompleteProtocol_loop.
  pose proof (RunInv_loop patient pkParams bolusDoseMg initialRate params 1801)
    as Hinv.
  destruct (nth_error
              (ls_timeSeriesData
                 (protocolLoop patient pkParams bolusDoseMg initialRate params
                               1801)) 0) as [first|] eqn:E.
  2:{ apply nth_error_None in E. rewrite (inv_length _ _ _ _ Hinv) in E. lia. }
  eexists. exists first. split; [reflexivity|]. cbn [timeSeriesData].
  split; [exact E|].
  destruct (inv_samples _ _ _ _ Hinv 0%nat first E) as (Ht & _).
  destruct (sample_of_states patient pkParams bolusDoseMg initialRate params
              1801 0 first E)
    as (_ & Hce & Hpl & Hrate & Hnum & _).
  destruct (first_step patient pkParams bolusDoseMg initialRate params)
    as (Hce1 & Hnum1 & Hrate1).
  split; [rewrite Ht; exact (proj2 stepTime_0)|].
  split; [rewrite Hce; exact Hce1|]. split; [exact Hpl|].
  split; [exact Hpl|].
  split.
  - cbv zeta. rewrite Hnum, Hrate. split; assumption.
  - intros j dp Hj.
    destruct (sample_of_states patient pkParams bolusDoseMg initialRate params
                1801 j dp Hj)
      as (_ & _ & _ & _ & _ & Hb & Htc & Hut & _).
    repeat split; assumption.
Qed.

(** X6: [timeSinceLastAdjustment] of a data point is the time of its
    step less the time of the latest adjustment made until then. Before
    the first adjustment that is the time less -5, the value the last
    adjustment time starts from, which is at least the minimum interval;
    at the step of an adjustment it is zero. *)
Theorem time_since_last_adjustment
        (patient : Patient) (pkParams : PKParameters)
        (bolusDoseMg initialRate : number) (params : ThresholdParams) :
  exists r,
    simulateCompleteProtocol patient pkParams bolusDoseMg initialRate params
    = Some r
    /\ forall j dp, nth_error (timeSeriesData r) j = Some dp ->
         (adjustmentNumber dp = 0%nat ->
          timeSinceLastAdjustment dp = of_nat j * TIME_STEP - (- 5.0)
          /\ ge (timeSinceLastAdjustment dp) 5.0 = true)
         /\ (forall k ev,
               adjustmentNumber dp = S k ->
               nth_error (dosageAdjustments r) k = Some ev ->
               timeSinceLastAdjustment dp = of_nat j * TIME_STEP - adj_time ev
               /\ (adj_time ev = of_nat j * TIME_STEP ->
                   isZero (timeSinceLastAdjustment dp) = true)).
Proof.
  rewrite simulateCompleteProtocol_loop. eexists. split; [reflexivity|].
  cbn [timeSeriesData dosageAdjustments].
  intros j dp Hj.
  destruct (sample_of_states patient pkParams bolusDoseMg initialRate params
              1801 j dp Hj)
    as (Hlt & _ & _ & _ & Hnum & _ & _ & _ & Hts).
  rewrite (lastAdjustmentTime_until patient pkParams bolusDoseMg initialRate
             params (S j) 1801), <- Hnum in Hts by lia.
  fold (stepTime j). split.
  - intros Hz. rewrite Hz in Hts. split; [exact Hts|].
    rewrite Hts.
    apply (proj1 (forallb_forall _ _) stepTime_first_eligible j).
    apply in_seq. lia.
  - intros k ev Hk He. rewrite Hk, (timeAfter_S _ _ _ He) in Hts.
    split; [exact Hts|].
    intros Ht. rewrite Hts, Ht.
    apply (proj1 (forallb_forall _ _) stepTime_sub_self (stepTime j)).
    apply in_map, in_seq. lia.
Qed.

(** X7: until an adjustment takes effect, the closed loop integrates
    what the open loop of [simulateBolusAndContinuous] does at the
    initial rate. A reduction made at a step changes the integration
    from the next step on, so when no adjustment was made before step
    [n - 1], the plasma concentration of data point [n] is that of the
    open loop after [n] RK4 steps; its effect-site concentration is that
    of the open loop after [n] passes started from the state one RK4
    step after the bolus, since the closed loop does not advance the
    effect site at step 0. *)
Theorem run_follows_open_loop
        (patient : Patient) (pkParams : PKParameters)
        (bolusDoseMg initialRate : number) (params : ThresholdParams) :
  exists r,
    simulateCompleteProtocol patient pkParams bolusDoseMg initialRate params
    = Some r
    /\ forall n dp,
         nth_error (timeSeriesData r) n = Some dp ->
         (forall m dp', (S m < n)%nat ->
                        nth_error (timeSeriesData r) m = Some dp' ->
                        adjustmentNumber dp' = 0%nat) ->
         let s0 := {| a1 := bolusDoseMg; a2 := 0.0; a3 := 0.0 |} in
         let inf := (initialRate * weight patient) / 60.0 in
         plasma dp = a1 (fst (openLoop pkParams n inf (s0, 0.0))) / v1 pkParams
         /\ ce dp
            = snd (openLoop pkParams n inf
                     (updateSystemStateRK4 pkParams s0 inf timeStep, 0.0)).
Proof.
  rewrite simulateCompleteProtocol_loop. eexists. split; [reflexivity|].
  cbn [timeSeriesData].
  intros n dp Hn Hquiet. cbv zeta.
  destruct (sample_of_states patient pkParams bolusDoseMg initialRate params
              1801 n dp Hn)
    as (Hlt & Hce & Hpl & _).
  assert (Hnone : n = 0%nat
                  \/ ls_dosageAdjustments
                       (protocolLoop patient pkParams bolusDoseMg initialRate
                                     params (pred n)) = []).
  { destruct n as [|[|m]]; [left; reflexivity|right; reflexivity|right].
    cbn [pred].
    destruct (nth_error
                (ls_timeSeriesData
                   (protocolLoop patient pkParams bolusDoseMg initialRate
                                 params 1801)) m) as [dp'|] eqn:Em.
    2:{ apply nth_error_None in Em.
        rewrite (loop_length patient pkParams bolusDoseMg initialRate params)
          in Em. lia. }
    pose proof (Hquiet m dp' ltac:(lia) Em) as Hz.
    destruct (sample_of_states patient pkParams bolusDoseMg initialRate params
                1801 m dp' Em) as (_ & _ & _ & _ & Hnum & _).
    rewrite Hz in Hnum.
    pose proof (RunInv_loop patient pkParams bolusDoseMg initialRate params
                            (S m)) as Hinv.
    rewrite (inv_count _ _ _ _ Hinv) in Hnum.
    destruct (ls_dosageAdjustments _); [reflexivity|discriminate]. }
  split.
  - rewrite Hpl.
    rewrite (loop_state_open patient pkParams bolusDoseMg initialRate params n)
      by (assumption || lia).
    reflexivity.
  - rewrite Hce.
    apply (loop_ce_open patient pkParams bolusDoseMg initialRate params n);
      [lia|assumption].
Qed.

(** * [evaluatePerformance] *)

Lemma evaluatePerformance_empty (series : list DataPoint) (target : number) :
  filter inMaintenance series = [] ->
  evaluatePerformance series target = noPerformance.
Proof.
  intros H. unfold evaluatePerformance.
  change (fun point : DataPoint => ge (time point) 60) with inMaintenance.
  rewrite H. reflexivity.
Qed.

Lemma evaluatePerformance_maintained (series : list DataPoint)
      (target : number) (first : DataPoint) (others : list DataPoint) :
  filter inMaintenance series = first :: others ->
  evaluatePerformance series target
  = {| finalCe := ce (last series first);
       maxCe := fold_left Math_max (map ce series) neg_infinity;
       avgDeviation :=
         sumNumbers (map (fun point => Math_abs (ce point - target))
                         (first :: others))
         / of_nat (length (map (fun point => Math_abs (ce point - target))
                               (first :: others)));
       targetAccuracy :=
         (of_nat (length (filter (fun point =>
                                    le (Math_abs (ce point - target))
                                       (target * 0.1))
                                 (first :: others)))
          / of_nat (length (first :: others))) * 100;
       stabilityIndex :=
         Math_max 0 (100 - (totalVariationFrom 0 first others
                            / (of_nat (length (first :: others)) - 1)) * 1000);
       convergenceTime := firstConvergence (target * 0.05) target series |}.
Proof.
  intros H. unfold evaluatePerformance.
  change (fun point : DataPoint => ge (time point) 60) with inMaintenance.
  rewrite H. reflexivity.
Qed.

Lemma filter_nil_iff {A : Type} (f : A -> bool) (l : list A) :
  filter f l = [] <-> forall x, In x l -> f x = false.
Proof.
  induction l as [|a l IH]; cbn [filter].
  - split; [intros _ x []|reflexivity].
  - destruct (f a) eqn:E; split.
    + discriminate.
    + intros H. specialize (H a (or_introl eq_refl)). congruence.
    + intros H x [<-|Hx]; [exact E|]. apply IH; assumption.
    + intros H. apply IH. intros x Hx. apply H. right. exact Hx.
Qed.

Lemma last_indep {A : Type} (l : list A) (d d' : A) :
  l <> [] -> last l d = last l d'.
Proof.
  induction l as [|a [|b l] IH]; intros H; [contradiction|reflexivity|].
  change (last (b :: l) d = last (b :: l) d'). apply IH. discriminate.
Qed.

(** X8: when no point of the series has a time of 60 or more (the
    empty series is one), [evaluatePerformance] returns its fallback
    values, 0, 0, Infinity, 0, 0 and Infinity; when a point has, the
    final concentration is that of the last point of the series, and
    the convergence time is searched in the whole series. *)
Theorem evaluatePerformance_fallback
        (series : list DataPoint) (target : number) :
  ((forall point, In point series -> ge (time point) 60 = false) ->
   evaluatePerformance series target
   = {| finalCe := 0; maxCe := 0; avgDeviation := Infinity;
        targetAccuracy := 0; stabilityIndex := 0;
        convergenceTime := Infinity |})
  /\ (forall point d, In point series -> ge (time point) 60 = true ->
        finalCe (evaluatePerformance series target) = ce (last series d)
        /\ convergenceTime (evaluatePerformance series target)
           = firstConvergence (target * 0.05) target series).
Proof.
  split.
  - intros H. apply evaluatePerformance_empty. apply filter_nil_iff. exact H.
  - intros point d Hin Ht.
    destruct (filter inMaintenance series) as [|first others] eqn:E.
    + rewrite filter_nil_iff in E. specialize (E point Hin).
      unfold inMaintenance in E. congruence.
    + rewrite (evaluatePerformance_maintained _ _ _ _ E).
      cbn [finalCe convergenceTime]. split; [|reflexivity].
      f_equal. apply last_indep. intros ->. destruct Hin.
Qed.

(** *** The convergence time *)

Lemma firstConvergence_none (threshold target : number)
      (series : list DataPoint) :
  (forall point, In point series ->
                 le (Math_abs (ce point - target)) threshold = false) ->
  firstConvergence threshold target series = Infinity.
Proof.
  induction series as [|p rest IH]; intros H; [reflexivity|].
  cbn [firstConvergence]. rewrite (H p (or_introl eq_refl)).
  apply IH. intros q Hq. apply H. right. exact Hq.
Qed.

Lemma firstConvergence_first (threshold target : number)
      (before after : list DataPoint) (point : DataPoint) :
  (forall q, In q before ->
             le (Math_abs (ce q - target)) threshold = false) ->
  le (Math_abs (ce point - target)) threshold = true ->
  firstConvergence threshold target (before ++ point :: after) = time point.
Proof.
  induction before as [|p rest IH]; intros H Hp; cbn [app firstConvergence].
  - rewrite Hp. reflexivity.
  - rewrite (H p (or_introl eq_refl)).
    apply IH; [|exact Hp]. intros q Hq. apply H. right. exact Hq.
Qed.

(** X9: for a series with a point at 60 minutes or later, the
    convergence time is the time of the first point of the whole series
    whose concentration is within 5 % of the target, and Infinity when
    there is none. *)
Theorem convergenceTime_first_hit
        (series : list DataPoint) (target : number) :
  (exists point, In point series /\ ge (time point) 60 = true) ->
  ((forall point, In point series -> converged target point = false) ->
   convergenceTime (evaluatePerformance series target) = Infinity)
  /\ (forall before point after,
        series = before ++ point :: after ->
        (forall q, In q before -> converged target q = false) ->
        converged target point = true ->
        convergenceTime (evaluatePerformance series target) = time point).
Proof.
  intros (p & Hin & Ht).
  destruct (filter inMaintenance series) as [|first others] eqn:E.
  { rewrite filter_nil_iff in E. specialize (E p Hin).
    unfold inMaintenance in E. congruence. }
  rewrite (evaluatePerformance_maintained _ _ _ _ E). cbn [convergenceTime].
  split.
  - apply firstConvergence_none.
  - intros before point after -> Hb Hp.
    apply firstConvergence_first; assumption.
Qed.

(** The theorem on two points: the second one, at 60 minutes, is on
    target. *)
Lemma convergenceTime_first_hit_witness :
  convergenceTime
    (evaluatePerformance
       [{| time := 59.9; ce := 2; plasma := 2; infusionRate := 1;
           dp_targetCe := 1; dp_upperThreshold := 1.2; adjustmentNumber := 0;
           isBolus := false; timeSinceLastAdjustment := 64.9 |};
        {| time := 60; ce := 1; plasma := 1; infusionRate := 1;
           dp_targetCe := 1; dp_upperThreshold := 1.2; adjustmentNumber := 0;
           isBolus := false; timeSinceLastAdjustment := 65 |}] 1)
  = 60.
Proof.
  refine (proj2 (convergenceTime_first_hit _ 1 _) [_] _ [] eq_refl _ _).
  - eexists. split; [right; left; reflexivity|]. vm_compute. reflexivity.
  - intros q [<-|[]]. vm_compute. reflexivity.
  - vm_compute. reflexivity.
Defined.

(** *** The maximum *)

Lemma Prim2SF_neg_infinity : Prim2SF neg_infinity = S754_infinity true.
Proof. reflexivity. Qed.

Lemma le_neg_infinity (x : number) :
  le x neg_infinity = true -> x = neg_infinity.
Proof.
  intros H. apply Prim2SF_inj. rewrite Prim2SF_neg_infinity.
  apply le_cmp in H. unfold cmp in H. rewrite Prim2SF_neg_infinity in H.
  destruct (Prim2SF x) as [s|[]| |s m e]; cbn in H; try reflexivity;
    try destruct s; destruct H; discriminate.
Qed.

Lemma neg_infinity_le (x : number) :
  isNaN x = false -> le neg_infinity x = true.
Proof.
  intros H. apply isNaN_false in H. apply le_cmp. unfold cmp.
  rewrite Prim2SF_neg_infinity.
  destruct (Prim2SF x) as [s|[]| |s m e]; cbn; auto; contradiction.
Qed.

Lemma Math_max_NaN_l (y : number) : Math_max NaN y = NaN.
Proof. reflexivity. Qed.

Lemma Math_max_NaN_r (x : number) :
  isNaN x = false -> Math_max x NaN = NaN.
Proof. intros H. unfold Math_max. rewrite H. reflexivity. Qed.

Lemma isNaN_eq (x : number) : isNaN x = true -> x = NaN.
Proof.
  intros H. apply isNaN_spec in H. apply Prim2SF_inj. rewrite H. reflexivity.
Qed.

(** Once NaN, the running maximum stays NaN. *)
Lemma fold_max_NaN (l : list number) : fold_left Math_max l NaN = NaN.
Proof. induction l as [|x l IH]; [reflexivity|exact IH]. Qed.

Lemma fold_max_has_NaN (l : list number) (a : number) :
  (exists x, In x l /\ isNaN x = true) -> fold_left Math_max l a = NaN.
Proof.
  revert a. induction l as [|y l IH]; intros a (x & Hin & Hx);
    [destruct Hin|].
  cbn [fold_left]. destruct Hin as [->|Hin]; [|apply IH; eauto].
  apply isNaN_eq in Hx. subst x.
  destruct (isNaN a) eqn:Na.
  - apply isNaN_eq in Na. subst a. apply fold_max_NaN.
  - rewrite Math_max_NaN_r by exact Na. apply fold_max_NaN.
Qed.

(** Without NaN, the running maximum is above its start and every
    number of the list, and is one of them. *)
Lemma fold_max_numbers (l : list number) (a : number) :
  isNaN a = false -> (forall x, In x l -> isNaN x = false) ->
  let m := fold_left Math_max l a in
  isNaN m = false /\ le a m = true
  /\ (forall x, In x l -> le x m = true)
  /\ (m = a \/ In m l).
Proof.
  revert a. induction l as [|y l IH]; intros a Na Hl; cbv zeta.
  - cbn [fold_left]. repeat split; auto using le_refl; intros x [].
  - cbn [fold_left].
    assert (Ny : isNaN y = false) by (apply Hl; left; reflexivity).
    destruct (Math_max_cases a y)
      as [[_ [N|N]]|(_ & _ & [[E Hle]|[E Hle]])]; try congruence.
    + rewrite E.
      destruct (IH y Ny (fun x Hx => Hl x (or_intror Hx)))
        as (Nm & Hy & Hall & Hin).
      split; [exact Nm|]. split; [eapply le_trans; eassumption|].
      split.
      * intros x [<-|Hx]; auto.
      * right. destruct Hin as [->|Hin]; [left; reflexivity|right; exact Hin].
    + rewrite E.
      destruct (IH a Na (fun x Hx => Hl x (or_intror Hx)))
        as (Nm & Ha & Hall & Hin).
      split; [exact Nm|]. split; [exact Ha|].
      split.
      * intros x [<-|Hx]; [eapply le_trans; eassumption|auto].
      * destruct Hin as [->|Hin]; [left; reflexivity|right; right; exact Hin].
Qed.

(** X10: for a series with a point at 60 minutes or later, [maxCe] is
    NaN when a concentration of the series is NaN; otherwise it is the
    concentration of a point of the series, and no concentration of the
    series is above it. *)
Theorem maxCe_is_maximum (series : list DataPoint) (target : number) :
  (exists point, In point series /\ ge (time point) 60 = true) ->
  ((exists point, In point series /\ isNaN (ce point) = true) ->
   maxCe (evaluatePerformance series target) = NaN)
  /\ ((forall point, In point series -> isNaN (ce point) = false) ->
      (forall point, In point series ->
         le (ce point) (maxCe (evaluatePerformance series target)) = true)
      /\ exists point,
           In point series
           /\ maxCe (evaluatePerformance series target) = ce point).
Proof.
  intros (p & Hin & Ht).
  destruct (filter inMaintenance series) as [|first others] eqn:E.
  { rewrite filter_nil_iff in E. specialize (E p Hin).
    unfold inMaintenance in E. congruence. }
  rewrite (evaluatePerformance_maintained _ _ _ _ E). cbn [maxCe].
  split.
  - intros (q & Hq & Nq). apply fold_max_has_NaN.
    exists (ce q). split; [apply in_map; exact Hq|exact Nq].
  - intros Hnum.
    destruct (fold_max_numbers (map ce series) neg_infinity eq_refl)
      as (Nm & _ & Hall & Hatt).
    { intros x (q & <- & Hq)%in_map_iff. auto. }
    cbv zeta in *. split.
    + intros q Hq. apply Hall. apply in_map. exact Hq.
    + destruct Hatt as [Hatt|Hatt].
      * exists p. split; [exact Hin|].
        rewrite Hatt. symmetry. apply le_neg_infinity.
        rewrite <- Hatt. apply Hall. apply in_map. exact Hin.
      * apply in_map_iff in Hatt. destruct Hatt as (q & Hq & Hin').
        exists q. split; [exact Hin'|]. symmetry. exact Hq.
Qed.

(** The theorem on two points, the second with a concentration that is
    NaN. *)
Lemma maxCe_is_maximum_witness :
  maxCe
    (evaluatePerformance
       [{| time := 59.9; ce := 2; plasma := 2; infusionRate := 1;
           dp_targetCe := 1; dp_upperThreshold := 1.2; adjustmentNumber := 0;
           isBolus := false; timeSinceLastAdjustment := 64.9 |};
        {| time := 60; ce := NaN; plasma := 1; infusionRate := 1;
           dp_targetCe := 1; dp_upperThreshold := 1.2; adjustmentNumber := 0;
           isBolus := false; timeSinceLastAdjustment := 65 |}] 1)
  = NaN.
Proof.
  refine (proj1 (maxCe_is_maximum _ 1 _) _).
  - eexists. split; [right; left; reflexivity|]. vm_compute. reflexivity.
  - eexists. split; [right; left; reflexivity|]. vm_compute. reflexivity.
Defined.

(** *** The stability index *)

(** X11: with exactly one point at 60 minutes or later, the average
    variation is 0 / 0 and the stability index is NaN; the average
    deviation is the deviation of that point. *)
Theorem stabilityIndex_single_point
        (series : list DataPoint) (target : number) (point : DataPoint) :
  filter (fun p => ge (time p) 60) series = [point] ->
  stabilityIndex (evaluatePerformance series target) = NaN
  /\ avgDeviation (evaluatePerformance series target)
     = (0 + Math_abs (ce point - target)) / 1.
Proof.
  intros H.
  rewrite (evaluatePerformance_maintained _ _ point [] H).
  cbn [stabilityIndex avgDeviation]. split; reflexivity.
Qed.

(** The theorem on a series of one point. *)
Lemma stabilityIndex_single_point_witness :
  stabilityIndex
    (evaluatePerformance
       [{| time := 60; ce := 1; plasma := 1; infusionRate := 1;
           dp_targetCe := 1; dp_upperThreshold := 1.2; adjustmentNumber := 0;
           isBolus := false; timeSinceLastAdjustment := 65 |}] 1)
  = NaN.
Proof.
  refine (proj1 (stabilityIndex_single_point _ 1 _ _)).
  vm_compute. reflexivity.
Defined.

(** *** The performance of a run *)

Lemma filter_from {A : Type} (f : A -> bool) (l : list A) (n : nat) :
  (forall j x, nth_error l j = Some x -> f x = (n <=? j)%nat) ->
  filter f l = skipn n l.
Proof.
  revert n. induction l as [|a l IH]; intros n H.
  - destruct n; reflexivity.
  - cbn [filter]. rewrite (H 0%nat a eq_refl).
    destruct n as [|n]; cbn [Nat.leb skipn].
    + f_equal. rewrite (IH 0%nat); [reflexivity|].
      intros j x Hj. apply (H (S j) x Hj).
    + apply IH. intros j x Hj. apply (H (S j) x Hj).
Qed.

Lemma last_nth_error {A : Type} (l : list A) (x d : A) :
  nth_error l (pred (length l)) = Some x -> last l d = x.
Proof.
  induction l as [|a [|b l] IH]; intros H.
  - discriminate.
  - injection H as ->. reflexivity.
  - change (last (b :: l) d = x). apply IH. exact H.
Qed.

(** The data points from step 600 on are those of the maintenance
    period. *)
Lemma maintenance_steps :
  forallb (fun j => Bool.eqb (ge (of_nat j / 10) 60) (600 <=? j)%nat)
          (seq 0 1801) = true.
Proof. vm_compute. reflexivity. Qed.

(** The share of [w] points out of 1201, as a percentage. *)
Lemma accuracy_range :
  forallb (fun w => le 0 ((of_nat w / of_nat 1201) * 100)
                    && le ((of_nat w / of_nat 1201) * 100) 100)
          (seq 0 1202) = true.
Proof. vm_compute. reflexivity. Qed.

Lemma of_nat_1201 : of_nat 1201 = 1201.
Proof. vm_compute. reflexivity. Qed.

(** The performance of a series of 1801 points stamped with the times
    of the steps. *)
Lemma evaluatePerformance_run (series : list DataPoint) (target : number) :
  length series = 1801%nat ->
  (forall j dp, nth_error series j = Some dp ->
                time dp = toFixed1 (stepTime j)) ->
  exists final,
    nth_error series 1800 = Some final
    /\ filter (fun point => ge (time point) 60) series = skipn 600 series
    /\ length (skipn 600 series) = 1201%nat
    /\ finalCe (evaluatePerformance series target) = ce final
    /\ le 0 (targetAccuracy (evaluatePerformance series target)) = true
    /\ le (targetAccuracy (evaluatePerformance series target)) 100 = true
    /\ avgDeviation (evaluatePerformance series target)
       = sumNumbers (map (fun point => Math_abs (ce point - target))
                         (skipn 600 series))
         / 1201
    /\ targetAccuracy (evaluatePerformance series target)
       = (of_nat (length (filter (fun point =>
                                    le (Math_abs (ce point - target))
                                       (target * 0.1))
                                 (skipn 600 series)))
          / 1201) * 100.
Proof.
  intros Hlen Htime.
  assert (Hfilter : filter inMaintenance series = skipn 600 series).
  { apply filter_from. intros j dp Hj.
    assert (Hlt : (j < 1801)%nat)
      by (rewrite <- Hlen; apply nth_error_Some; congruence).
    unfold inMaintenance. rewrite (Htime j dp Hj).
    assert (Hin : In j (seq 0 1801)) by (apply in_seq; lia).
    pose proof (proj1 (forallb_forall _ _) stepTime_tenths j Hin) as E.
    apply Leibniz.eqb_spec in E. rewrite E.
    pose proof (proj1 (forallb_forall _ _) maintenance_steps j Hin) as M.
    apply Bool.eqb_prop in M. exact M. }
  assert (Hcount : length (skipn 600 series) = 1201%nat)
    by (rewrite length_skipn, Hlen; reflexivity).
  destruct (nth_error series 1800) as [final|] eqn:Efinal.
  2:{ apply nth_error_None in Efinal. lia. }
  exists final. split; [reflexivity|]. split; [exact Hfilter|].
  split; [exact Hcount|].
  destruct (skipn 600 series) as [|first others] eqn:Es;
    [discriminate Hcount|].
  rewrite (evaluatePerformance_maintained _ _ _ _ Hfilter).
  cbn [finalCe targetAccuracy avgDeviation].
  split.
  { f_equal. apply last_nth_error. rewrite Hlen. exact Efinal. }
  rewrite length_map, Hcount, of_nat_1201.
  set (w := length (filter _ (first :: others))).
  assert (Hw : (w <= 1201)%nat).
  { unfold w. rewrite <- Hcount. apply filter_length_le. }
  pose proof (proj1 (forallb_forall _ _) accuracy_range w) as R.
  cbv beta in R. specialize (R ltac:(apply in_seq; lia)).
  rewrite of_nat_1201 in R.
  apply andb_prop in R. destruct R as [R1 R2].
  split; [exact R1|]. split; [exact R2|]. split; reflexivity.
Qed.

(** X12: the performance of a run is never the fallback. The
    maintenance period is the 1201 data points from step 600 on;
    [finalCe] is the concentration of the last data point, at 180
    minutes; [targetAccuracy] is the share of the 1201 points within
    10 % of the target, as a percentage between 0 and 100;
    [avgDeviation] is the sum of their deviations over 1201. *)
Theorem run_performance
        (patient : Patient) (pkParams : PKParameters)
        (bolusDoseMg initialRate : number) (params : ThresholdParams) :
  exists r final,
    simulateCompleteProtocol patient pkParams bolusDoseMg initialRate params
    = Some r
    /\ nth_error (timeSeriesData r) 1800 = Some final
    /\ filter (fun point => ge (time point) 60) (timeSeriesData r)
       = skipn 600 (timeSeriesData r)
    /\ length (skipn 600 (timeSeriesData r)) = 1201%nat
    /\ finalCe (performance r) = ce final
    /\ le 0 (targetAccuracy (performance r)) = true
    /\ le (targetAccuracy (performance r)) 100 = true
    /\ avgDeviation (performance r)
       = sumNumbers (map (fun point => Math_abs (ce point - targetCe params))
                         (skipn 600 (timeSeriesData r)))
         / 1201
    /\ targetAccuracy (performance r)
       = (of_nat (length (filter (fun point =>
                                    le (Math_abs (ce point - targetCe params))
                                       (targetCe params * 0.1))
                                 (skipn 600 (timeSeriesData r))))
          / 1201) * 100.
Proof.
  rewrite simulateCompleteProtocol_loop.
  pose proof (RunInv_loop patient pkParams bolusDoseMg initialRate params 1801)
    as Hinv.
  destruct (evaluatePerformance_run _ (targetCe params)
              (inv_length _ _ _ _ Hinv)
              (fun j dp Hj => proj1 (inv_samples _ _ _ _ Hinv j dp Hj)))
    as (final & H).
  eexists. exists final. split; [reflexivity|].
  cbn [timeSeriesData performance]. exact H.
Qed.

(** * Arithmetic on what is not a number *)

Lemma isNaN_add_l (x y : number) : isNaN x = true -> isNaN (x + y) = true.
Proof.
  rewrite !isNaN_spec. intros H. rewrite add_spec, H. reflexivity.
Qed.

Lemma isNaN_add_r (x y : number) : isNaN y = true -> isNaN (x + y) = true.
Proof.
  rewrite !isNaN_spec. intros H. rewrite add_spec, H.
  destruct (Prim2SF x) as [[]|[]| |[] m e]; reflexivity.
Qed.

Lemma isNaN_sub_l (x y : number) : isNaN x = true -> isNaN (x - y) = true.
Proof.
  rewrite !isNaN_spec. intros H. rewrite sub_spec, H. reflexivity.
Qed.

Lemma isNaN_sub_r (x y : number) : isNaN y = true -> isNaN (x - y) = true.
Proof.
  rewrite !isNaN_spec. intros H. rewrite sub_spec, H.
  destruct (Prim2SF x) as [[]|[]| |[] m e]; reflexivity.
Qed.

Lemma isNaN_mul_l (x y : number) : isNaN x = true -> isNaN (x * y) = true.
Proof.
  rewrite !isNaN_spec. intros H. rewrite mul_spec, H. reflexivity.
Qed.

Lemma isNaN_mul_r (x y : number) : isNaN y = true -> isNaN (x * y) = true.
Proof.
  rewrite !isNaN_spec. intros H. rewrite mul_spec, H.
  destruct (Prim2SF x) as [[]|[]| |[] m e]; reflexivity.
Qed.

Lemma isNaN_div_l (x y : number) : isNaN x = true -> isNaN (x / y) = true.
Proof.
  rewrite !isNaN_spec. intros H. rewrite div_spec, H. reflexivity.
Qed.

Lemma isNaN_div_r (x y : number) : isNaN y = true -> isNaN (x / y) = true.
Proof.
  rewrite !isNaN_spec. intros H. rewrite div_spec, H.
  destruct (Prim2SF x) as [[]|[]| |[] m e]; reflexivity.
Qed.

Lemma isNaN_abs (x : number) : isNaN x = true -> isNaN (Math_abs x) = true.
Proof.
  rewrite !isNaN_spec. intros H. unfold Math_abs. rewrite abs_spec, H.
  reflexivity.
Qed.

Lemma le_NaN_r (x y : number) : isNaN y = true -> le x y = false.
Proof.
  intros H. destruct (le x y) eqn:E; [|reflexivity].
  apply le_not_nan in E. destruct E. congruence.
Qed.

(** * The number of passes of the open loop *)

Lemma Math_floor_NaN (q : number) : isNaN q = true -> Math_floor q = q.
Proof.
  intros H. apply isNaN_spec in H. unfold Math_floor. rewrite H. reflexivity.
Qed.

Lemma for_count_NaN (q : number) : isNaN q = true -> for_count q = Some O.
Proof.
  intros H. apply isNaN_spec in H. unfold for_count. rewrite H. reflexivity.
Qed.

Lemma for_count_floor_zero (q : number) :
  isZero q = true -> for_count (Math_floor q) = Some O.
Proof.
  intros H. apply isZero_spec in H. destruct H as [s H].
  unfold Math_floor, for_count. rewrite H, H. reflexivity.
Qed.

Lemma of_Z_0 : Prim2SF (of_Z 0) = S754_zero false.
Proof. vm_compute. reflexivity. Qed.

(** A number below one, as a mantissa and an exponent. *)
Lemma below_one_inv (my mo : positive) (ey : Z) :
  bounded prec emax my ey = true ->
  Zpos mo = (2 ^ 52)%Z ->
  SFcompare (S754_finite false my ey) (S754_finite false mo (-52)) = Some Lt ->
  (ey < 0)%Z /\ (Zpos my < 2 ^ (- ey))%Z.
Proof.
  intros Hb Hmo Hc.
  destruct (FloatRounding.bounded_inv my ey Hb) as (He & Hd & Hm & _).
  cbn [SFcompare] in Hc.
  change (Pos.compare_cont Eq my mo) with (Pos.compare my mo) in Hc.
  destruct (Z.compare_spec ey (-52)) as [->|Hl|Hg].
  - change (2 ^ (- (-52)))%Z with (2 ^ 52)%Z.
    destruct (Pos.compare_spec my mo) as [->|Hl|Hg]; try discriminate.
    split; lia.
  - split; [lia|].
    apply Z.lt_le_trans with (2 ^ 53)%Z; [lia|].
    apply Z.pow_le_mono_r; lia.
  - discriminate.
Qed.

(** A positive number below one has the floor 0. *)
Lemma for_count_floor_fraction (q : number) :
  lt 0 q = true -> lt q 1 = true -> for_count (Math_floor q) = Some O.
Proof.
  intros Hpos Hone.
  apply lt_cmp in Hpos, Hone. unfold cmp in Hpos, Hone.
  rewrite FloatRounding.Prim2SF_zero in Hpos.
  rewrite FloatRounding.Prim2SF_one in Hone.
  pose proof (Prim2SF_valid q) as Hv.
  unfold Math_floor, floorZ.
  destruct (Prim2SF q) as [[]|[]| |[] m e] eqn:E; try discriminate.
  cbn [valid_binary] in Hv.
  destruct (below_one_inv m _ e Hv two_pow_52 Hone) as [He Hm].
  assert (Hz : Z.shiftl (cond_Zopp false (Zpos m)) e = 0%Z).
  { cbn [cond_Zopp]. rewrite Z.shiftl_div_pow2 by lia.
    apply Z.div_small. lia. }
  rewrite Hz. unfold for_count. rewrite of_Z_0. reflexivity.
Qed.

(** A number above [2 ^ 53], as a mantissa and an exponent; the
    mantissa [mo] of [2 ^ 53] is [2 ^ 52], at the exponent 1. *)
Lemma above_limit_inv (m mo : positive) (e : Z) :
  bounded prec emax m e = true ->
  Zpos mo = (2 ^ 52)%Z ->
  (SFcompare (S754_finite false mo 1) (S754_finite false m e) = Some Lt
   <-> (2 ^ 53 < - Z.shiftl (- Zpos m) e)%Z).
Proof.
  intros Hb Hmo.
  destruct (FloatRounding.bounded_inv m e Hb) as (He & Hd & Hm & _).
  assert (Hdig : (1 <= e -> 2 ^ 52 <= Zpos m)%Z).
  { intros H1.
    unfold bounded, canonical_mantissa, fexp, SpecFloat.emin, prec, emax in Hb.
    apply andb_prop in Hb. destruct Hb as [Hc _]. apply Z.eqb_eq in Hc.
    assert (H53 : Zpos (digits2_pos m) = 53%Z) by lia.
    destruct (FloatRounding.digits2_pos_bounds m) as [Hlo _].
    rewrite H53 in Hlo. exact Hlo. }
  cbn [SFcompare].
  change (Pos.compare_cont Eq mo m) with (Pos.compare mo m).
  destruct (Z.compare_spec 1 e) as [<-|Hl|Hg]; cbv beta iota.
  - rewrite Z.shiftl_mul_pow2 by lia.
    specialize (Hdig ltac:(lia)).
    destruct (Pos.compare_spec mo m) as [->|Hlt|Hgt]; cbv beta iota;
      split; intros H; first [discriminate H|reflexivity|lia|exfalso; lia].
  - split; [intros _|reflexivity].
    rewrite Z.shiftl_mul_pow2 by lia.
    specialize (Hdig ltac:(lia)).
    assert (H4 : (2 ^ 2 <= 2 ^ e)%Z) by (apply Z.pow_le_mono_r; lia).
    assert (H54 : (2 ^ 52 * 2 ^ 2 <= Zpos m * 2 ^ e)%Z)
      by (apply Z.mul_le_mono_nonneg; lia).
    lia.
  - split; [intros H; discriminate H|]. intros H. exfalso.
    rewrite Z.shiftl_div_pow2 in H by lia.
    assert (Hp : (0 < 2 ^ (- e))%Z) by (apply Z.pow_pos_nonneg; lia).
    pose proof (Z.div_mod (- Zpos m) (2 ^ (- e)) ltac:(lia)) as Hdm.
    pose proof (Z.mod_pos_bound (- Zpos m) (2 ^ (- e)) Hp) as Hmod.
    nia.
Qed.

(** The loop [for (let i = 0; i < n; i++)] does not end exactly when
    [n] is above [2 ^ 53]. *)
Lemma for_count_limit (n : number) :
  for_count n = None <-> lt countLimit n = true.
Proof.
  rewrite lt_cmp. unfold cmp.
  assert (Hlim : Prim2SF countLimit
                 = S754_finite false 4503599627370496 1)
    by (vm_compute; reflexivity).
  rewrite Hlim.
  pose proof (Prim2SF_valid n) as Hv. unfold for_count.
  destruct (Prim2SF n) as [s|[]| |[] m e];
    cbn [SFcompare valid_binary] in *; cbv zeta;
    try (split; intros H; first [discriminate H|reflexivity]).
  rewrite (above_limit_inv m _ e Hv two_pow_52).
  destruct (Z.leb_spec (- Z.shiftl (- Zpos m) e) (2 ^ 53)) as [Hle|Hgt];
    split; intros H; first [discriminate H|reflexivity|lia|exfalso; lia].
Qed.

Lemma timeStep_facts : nonZero timeStep = true /\ isFinite timeStep = true.
Proof. split; vm_compute; reflexivity. Qed.

Lemma noPass_count (targetTime : number) :
  noPass targetTime ->
  for_count (Math_floor (targetTime / timeStep)) = Some O.
Proof.
  intros [H|[H|[H1 H2]]].
  - rewrite Math_floor_NaN; apply for_count_NaN || idtac;
      now apply isNaN_div_l.
  - apply for_count_floor_zero. apply isZero_div; [exact H|].
    exact (proj1 timeStep_facts).
  - now apply for_count_floor_fraction.
Qed.

Lemma simulate_noPass (patient : Patient) (pkParams : PKParameters)
      (bolusDoseMg rate targetTime : number) :
  noPass targetTime ->
  simulateBolusAndContinuous patient pkParams bolusDoseMg rate targetTime
  = Some 0.
Proof.
  intros H. unfold simulateBolusAndContinuous.
  rewrite (noPass_count _ H). reflexivity.
Qed.

Lemma simulate_Infinity (patient : Patient) (pkParams : PKParameters)
      (bolusDoseMg rate : number) :
  simulateBolusAndContinuous patient pkParams bolusDoseMg rate Infinity = None.
Proof.
  unfold simulateBolusAndContinuous.
  replace (for_count (Math_floor (Infinity / timeStep))) with (@None nat)
    by (vm_compute; reflexivity).
  reflexivity.
Qed.

Lemma testRates_head :
  exists rest, testRates = OPTIMIZATION_MIN_RATE :: rest.
Proof. eexists. vm_compute. reflexivity. Qed.

(** X13: the loop of [simulateBolusAndContinuous] makes no pass when
    the target time is NaN or zero, or when its quotient by the time
    step is between 0 and 1: the call returns the initial effect-site
    concentration 0 whatever the dose and the rate are, and the
    optimizer, for a target whose error is finite, returns the first
    candidate 0.3 with the prediction 0. With the target time Infinity
    the loop does not end, and neither call returns. *)
Theorem simulateBolusAndContinuous_no_pass
        (patient : Patient) (pkParams : PKParameters)
        (bolusDoseMg rate targetTime target : number) :
  ((isNaN targetTime = true \/ isZero targetTime = true
    \/ (lt 0 (targetTime / TIME_STEP) = true
        /\ lt (targetTime / TIME_STEP) 1 = true)) ->
   simulateBolusAndContinuous patient pkParams bolusDoseMg rate targetTime
   = Some 0
   /\ (lt (Math_abs (0 - target)) Infinity = true ->
       exists r,
         optimizeContinuousRate patient pkParams bolusDoseMg target targetTime
         = Some r
         /\ optimalRate r = OPTIMIZATION_MIN_RATE
         /\ predictedCe r = 0
         /\ opt_error r = Math_abs (0 - target)))
  /\ simulateBolusAndContinuous patient pkParams bolusDoseMg rate Infinity
     = None
  /\ optimizeContinuousRate patient pkParams bolusDoseMg target Infinity
     = None.
Proof.
  split; [|split].
  - intros H. split; [now apply simulate_noPass|].
    intros Hfin.
    destruct (scan_returns patient pkParams bolusDoseMg target targetTime
                0 testRates (1, Infinity, []) (noPass_count _ H)
                ScanInv_initial (Forall_nil _))
      as ([[bestRate bestError] res] & Hs & [Hmin Hbest] & Hf & Hm).
    cbn [snd map app] in Hf, Hm.
    unfold optimizeContinuousRate. rewrite Hs.
    rewrite (simulate_noPass patient pkParams bolusDoseMg bestRate _ H).
    eexists. split; [reflexivity|]. cbn [optimalRate predictedCe opt_error].
    destruct testRates_head as [rest Hhead]. rewrite Hhead in Hm.
    destruct res as [|e0 res]; [discriminate|].
    cbn [map] in Hm. injection Hm as Hrate0 _.
    assert (Herr : forall e, In e (e0 :: res) ->
                             entry_error e = Math_abs (0 - target)).
    { intros e He. rewrite Forall_forall in Hf.
      destruct (Hf e He) as [Hsim Herr].
      rewrite (simulate_noPass patient pkParams bolusDoseMg _ _ H) in Hsim.
      injection Hsim as Hc. rewrite <- Hc in Herr. exact Herr. }
    destruct Hbest as [(_ & _ & Hall)|(_ & k & e & Hk & Hr & He & Hfirst)].
    + specialize (Hall e0 (or_introl eq_refl)).
      rewrite (Herr e0 (or_introl eq_refl)) in Hall. congruence.
    + destruct k as [|k].
      * cbn [nth_error] in Hk. injection Hk as <-.
        split; [congruence|]. split; [reflexivity|].
        rewrite He. apply Herr. left. reflexivity.
      * exfalso.
        specialize (Hfirst 0%nat e0 ltac:(lia) eq_refl).
        rewrite (Herr e0 (or_introl eq_refl)) in Hfirst.
        rewrite He, (Herr e (nth_error_In _ _ Hk)) in Hfirst.
        rewrite lt_irrefl in Hfirst.
        apply lt_not_nan in Hfin. destruct Hfin as [N _].
        specialize (Hfirst N). discriminate.
  - apply simulate_Infinity.
  - unfold optimizeContinuousRate.
    destruct testRates_head as [rest ->]. cbn [scan].
    rewrite simulate_Infinity. reflexivity.
Qed.

(** * The record [optimizeContinuousRate] returns *)

Lemma scan_entries (patient : Patient) (pkParams : PKParameters)
      (bolusDoseMg target reach : number) (rates : list number)
      (st st' : ScanState) :
  scan patient pkParams bolusDoseMg target reach rates st = Some st' ->
  Forall (entryOf target) (snd st) -> Forall (entryOf target) (snd st').
Proof.
  revert st. induction rates as [|rate rest IH]; intros st Hs Hf.
  - injection Hs as <-. exact Hf.
  - cbn [scan] in Hs.
    destruct (simulateBolusAndContinuous _ _ _ _ _) as [c|]; [|discriminate].
    apply (IH _ Hs). rewrite scanStep_results.
    apply Forall_app. split; [exact Hf|].
    constructor; [|constructor]. split; reflexivity.
Qed.

(** X14: the record [optimizeContinuousRate] returns is consistent:
    [predictedCe] is the simulation of [optimalRate]; a relative error
    is the error over the target times 100, in the record and in every
    entry; [error] is Infinity or below it, and when it is below, it is
    the distance of [predictedCe] to the target, and rate, prediction
    and errors are those of an entry of [allResults]. *)
Theorem optimizeContinuousRate_record
        (patient : Patient) (pkParams : PKParameters)
        (bolusDoseMg target reach : number) (r : OptimizationResult) :
  optimizeContinuousRate patient pkParams bolusDoseMg target reach = Some r ->
  simulateBolusAndContinuous patient pkParams bolusDoseMg (optimalRate r) reach
  = Some (predictedCe r)
  /\ opt_relativeError r = (opt_error r / target) * 100
  /\ (forall e, In e (allResults r) ->
        entry_error e = Math_abs (entry_ceAtTarget e - target)
        /\ entry_relativeError e = (entry_error e / target) * 100)
  /\ (opt_error r = Infinity \/ lt (opt_error r) Infinity = true)
  /\ (lt (opt_error r) Infinity = true ->
      opt_error r = Math_abs (predictedCe r - target)
      /\ exists e,
           In e (allResults r)
           /\ entry_rate e = optimalRate r
           /\ entry_ceAtTarget e = predictedCe r
           /\ entry_error e = opt_error r
           /\ entry_relativeError e = opt_relativeError r).
Proof.
  unfold optimizeContinuousRate.
  destruct (scan patient pkParams bolusDoseMg target reach testRates
                 (1, Infinity, [])) as [[[bestRate bestError] res]|] eqn:Hs;
    [|discriminate].
  destruct (simulateBolusAndContinuous patient pkParams bolusDoseMg bestRate
                                       reach) as [c|] eqn:Hc; [|discriminate].
  intros [= <-]. cbn [optimalRate predictedCe opt_error opt_relativeError
                      allResults].
  pose proof (scan_entries _ _ _ _ _ _ _ _ Hs (Forall_nil _)) as Hent.
  cbn [snd] in Hent. rewrite Forall_forall in Hent.
  split; [exact Hc|]. split; [reflexivity|]. split; [exact Hent|].
  (* the loop count is finite, since the scan returned *)
  assert (Hn : exists n, for_count (Math_floor (reach / timeStep)) = Some n).
  { unfold simulateBolusAndContinuous in Hc.
    destruct (for_count _) as [n|]; [eauto|discriminate]. }
  destruct Hn as [n Hn].
  destruct (scan_returns patient pkParams bolusDoseMg target reach n testRates
              (1, Infinity, []) Hn ScanInv_initial (Forall_nil _))
    as (st' & Hs' & Hinv & Hf & Hm).
  rewrite Hs in Hs'. injection Hs' as <-. cbn [snd] in Hf.
  destruct Hinv as [Hmin Hbest].
  rewrite Forall_forall in Hf.
  destruct Hbest as [(-> & -> & Hall)|(Hinf & k & e & Hk & Hr & He & Hfirst)].
  - split; [left; reflexivity|]. intros H. vm_compute in H. discriminate.
  - split; [right; exact Hinf|]. intros _.
    pose proof (nth_error_In _ _ Hk) as Hin.
    destruct (Hf e Hin) as [Hsim Herr].
    rewrite <- Hr, Hc in Hsim. injection Hsim as Hce.
    split; [rewrite He, Herr, Hce; reflexivity|].
    exists e. repeat split; try congruence.
    rewrite (proj2 (Hent e Hin)), He. reflexivity.
Qed.

(** The theorem at the reference case: bolus 7 mg, target 1.0, 20 min. *)
Lemma optimizeContinuousRate_record_witness :
  exists r,
    optimizeContinuousRate refPatient refPK 7 1 20 = Some r
    /\ opt_error r = Math_abs (predictedCe r - 1).
Proof.
  destruct (optimizeContinuousRate refPatient refPK 7 1 20) as [r|] eqn:E.
  - exists r. split; [reflexivity|].
    destruct (optimizeContinuousRate_record refPatient refPK 7 1 20 r E)
      as (_ & _ & _ & _ & H).
    apply H.
    vm_compute in E. injection E as <-. vm_compute. reflexivity.
  - vm_compute in E. discriminate.
Defined.

(** * Inputs that are not numbers *)

(** The first mass stays NaN through an RK4 step, and makes the effect
    site NaN. *)
Lemma updateSystemStateRK4_NaN (pk : PKParameters) (s : SystemState)
      (inf dt : number) :
  isNaN (a1 s) = true -> isNaN (a1 (updateSystemStateRK4 pk s inf dt)) = true.
Proof.
  intros H. unfold updateSystemStateRK4. cbn [a1].
  apply isNaN_add_l. exact H.
Qed.

Lemma effectSite_NaN (pk : PKParameters) (s : SystemState) (c : number) :
  isNaN (a1 s) = true ->
  isNaN (c + timeStep * (ke0 pk * (a1 s / v1 pk - c))) = true.
Proof.
  intros H. apply isNaN_add_r, isNaN_mul_r, isNaN_mul_r, isNaN_sub_l,
              isNaN_div_l. exact H.
Qed.

Lemma openLoop_NaN (pk : PKParameters) (n : nat) (inf : number)
      (s : SystemState) (c : number) :
  isNaN (a1 s) = true ->
  isNaN (a1 (fst (openLoop pk n inf (s, c)))) = true
  /\ ((0 < n)%nat -> isNaN (snd (openLoop pk n inf (s, c))) = true).
Proof.
  revert s c. induction n as [|n IH]; intros s c H.
  - split; [exact H|lia].
  - rewrite openLoop_S, openLoopStep_fst, openLoopStep_snd.
    destruct (IH s c H) as [H1 _].
    split; [now apply updateSystemStateRK4_NaN|].
    intros _. now apply effectSite_NaN.
Qed.

(** X15: with a target that is NaN, or with a bolus dose that is NaN
    and a loop of at least one pass, the error of every candidate is
    NaN, and the optimizer returns its initial values: the rate 1.0,
    which is not a scanned candidate, and the error Infinity. *)
Theorem optimizeContinuousRate_NaN
        (patient : Patient) (pkParams : PKParameters)
        (bolusDoseMg target reach : number) (n : nat) :
  for_count (Math_floor (reach / timeStep)) = Some n ->
  isNaN target = true \/ (isNaN bolusDoseMg = true /\ (0 < n)%nat) ->
  exists r,
    optimizeContinuousRate patient pkParams bolusDoseMg target reach = Some r
    /\ optimalRate r = 1 /\ opt_error r = Infinity
    /\ ~ In (optimalRate r) testRates
    /\ forall e, In e (allResults r) -> isNaN (entry_error e) = true.
Proof.
  intros Hn Hnan.
  destruct (scan_returns patient pkParams bolusDoseMg target reach n testRates
              (1, Infinity, []) Hn ScanInv_initial (Forall_nil _))
    as ([[bestRate bestError] res] & Hs & [Hmin Hbest] & Hf & Hm).
  cbn [snd] in Hf. rewrite Forall_forall in Hf.
  destruct (simulate_returns patient pkParams bolusDoseMg reach n bestRate Hn)
    as [c Hc].
  unfold optimizeContinuousRate. rewrite Hs, Hc.
  eexists. split; [reflexivity|].
  cbn [optimalRate opt_error allResults].
  assert (Herr : forall e, In e res -> isNaN (entry_error e) = true).
  { intros e He. destruct (Hf e He) as [Hsim ->].
    apply isNaN_abs.
    destruct Hnan as [Ht|[Hb Hpos]]; [now apply isNaN_sub_r|].
    apply isNaN_sub_l.
    unfold simulateBolusAndContinuous in Hsim. rewrite Hn in Hsim.
    injection Hsim as <-.
    apply (openLoop_NaN pkParams n); [exact Hb|exact Hpos]. }
  destruct Hbest as [(-> & -> & Hall)|(Hinf & k & e & Hk & Hr & He & Hfirst)].
  - split; [reflexivity|]. split; [reflexivity|]. split.
    + intros Hin.
      assert (B : forallb (fun x => negb (x =? 1)) testRates = true)
        by (vm_compute; reflexivity).
      rewrite forallb_forall in B. apply B in Hin.
      vm_compute in Hin. discriminate.
    + exact Herr.
  - exfalso. apply nth_error_In in Hk. specialize (Herr e Hk).
    rewrite <- He in Herr. apply lt_not_nan in Hinf. destruct Hinf. congruence.
Qed.

(** The theorem at the reference patient, with a dose that is NaN. *)
Lemma optimizeContinuousRate_NaN_witness :
  exists r,
    optimizeContinuousRate refPatient refPK NaN 1 20 = Some r
    /\ optimalRate r = 1 /\ opt_error r = Infinity.
Proof.
  destruct (optimizeContinuousRate_NaN refPatient refPK NaN 1 20 200)
    as (r & Hr & H1 & H2 & _).
  - vm_compute. reflexivity.
  - right. split; [reflexivity|lia].
  - exists r. auto.
Defined.

(** * The result of [calculateBolusProtocol] *)

Lemma optimize_returns (p : Patient) (pk : PKParameters)
      (bolusDoseMg target reach : number) (n : nat) :
  for_count (Math_floor (reach / timeStep)) = Some n ->
  exists opt, optimizeContinuousRate p pk bolusDoseMg target reach = Some opt.
Proof.
  intros Hn.
  destruct (scan_returns p pk bolusDoseMg target reach n testRates
              (1, Infinity, []) Hn ScanInv_initial (Forall_nil _))
    as ([[bestRate bestError] res] & Hs & _).
  destruct (simulate_returns p pk bolusDoseMg reach n bestRate Hn) as [c Hc].
  unfold optimizeContinuousRate. rewrite Hs, Hc. eauto.
Qed.

Lemma optimize_diverges (p : Patient) (pk : PKParameters)
      (bolusDoseMg target reach : number) :
  for_count (Math_floor (reach / timeStep)) = None ->
  optimizeContinuousRate p pk bolusDoseMg target reach = None.
Proof.
  intros Hn. unfold optimizeContinuousRate.
  destruct testRates_head as [rest ->]. cbn [scan].
  unfold simulateBolusAndContinuous. rewrite Hn. reflexivity.
Qed.

Lemma simulate_run_returns (p : Patient) (pk : PKParameters)
      (bolusDoseMg rate : number) (params : ThresholdParams) :
  exists sim, simulateCompleteProtocol p pk bolusDoseMg rate params = Some sim.
Proof. rewrite simulateCompleteProtocol_loop. eauto. Qed.

Lemma simulate_run_length (p : Patient) (pk : PKParameters)
      (bolusDoseMg rate : number) (params : ThresholdParams)
      (sim : SimulationResult) :
  simulateCompleteProtocol p pk bolusDoseMg rate params = Some sim ->
  length (timeSeriesData sim) = 1801%nat.
Proof.
  intros Hs.
  assert (H : option_map (fun s => length (timeSeriesData s))
                (simulateCompleteProtocol p pk bolusDoseMg rate params)
              = Some 1801%nat).
  { rewrite simulateCompleteProtocol_loop. cbn [option_map timeSeriesData].
    rewrite loop_length. reflexivity. }
  rewrite Hs in H. cbn [option_map] in H. injection H as H. exact H.
Qed.

Lemma bolusComparison_rows (p : Patient) (pk : PKParameters)
      (target : number) (params : ThresholdParams) (doses : list number)
      (rows : list ComparisonEntry) :
  bolusComparison p pk target params doses = Returned rows ->
  map cmp_bolusDose rows = doses /\ Forall (rowOf p pk target params) rows.
Proof.
  revert rows. induction doses as [|d rest IH]; intros rows H.
  - injection H as <-. split; [reflexivity|constructor].
  - cbn [bolusComparison] in H.
    destruct (optimizeContinuousRate p pk d target (targetReachTime params))
      as [opt|] eqn:Eo; cbn [bind ended] in H; [|discriminate].
    destruct (simulateCompleteProtocol p pk d (optimalRate opt) params)
      as [sim|] eqn:Es; cbn [bind ended] in H; [|discriminate].
    destruct (bolusComparison p pk target params rest) as [others| |] eqn:Er;
      cbn [bind] in H; try discriminate.
    injection H as <-. destruct (IH others eq_refl) as [Hm Hf].
    cbn [map cmp_bolusDose]. split; [f_equal; exact Hm|].
    constructor; [|exact Hf].
    exists opt, sim. cbn [cmp_bolusDose cmp_optimalRate cmp_finalCe
                          cmp_targetAccuracy cmp_adjustmentCount
                          cmp_recommendation].
    repeat split; assumption.
Qed.

Lemma bolusComparison_returns (p : Patient) (pk : PKParameters)
      (target : number) (params : ThresholdParams) (doses : list number)
      (n : nat) :
  for_count (Math_floor (targetReachTime params / timeStep)) = Some n ->
  exists rows, bolusComparison p pk target params doses = Returned rows.
Proof.
  intros Hn. induction doses as [|d rest [others IH]].
  - eexists. reflexivity.
  - cbn [bolusComparison].
    destruct (optimize_returns p pk d target _ n Hn) as [opt ->].
    cbn [bind ended].
    destruct (simulate_run_returns p pk d (optimalRate opt) params)
      as [sim ->].
    cbn [bind ended]. rewrite IH. cbn [bind]. eauto.
Qed.

Section Result.

Variable Math_pow : number -> number -> number.
Variable calculateKe0 : number -> number -> number -> number -> number -> number.

Local Abbreviation calculate :=
  (calculateBolusProtocol Math_pow calculateKe0).
Local Abbreviation pkOf := (calculatePKParameters Math_pow calculateKe0).

(** What a result that is returned is made of. *)
Lemma calculateBolusProtocol_parts (p : Patient)
      (bolusDoseMg target : number) (pp : ProtocolParams)
      (r : ProtocolResult) :
  calculate p bolusDoseMg target pp = Returned r ->
  validateInputs Math_pow p bolusDoseMg target = None
  /\ exists opt sim,
       optimizeContinuousRate p (pkOf p) bolusDoseMg target
         (targetReachTime (finalParamsOf target pp)) = Some opt
       /\ simulateCompleteProtocol p (pkOf p) bolusDoseMg (optimalRate opt)
            (finalParamsOf target pp) = Some sim
       /\ bolusComparison p (pkOf p) target (finalParamsOf target pp)
                          testBolusDoses = Returned (comparisonData r)
       /\ r = {| res_patient := p;
                 res_pkParams := pkOf p;
                 res_bolusDose := bolusDoseMg;
                 res_targetCe := target;
                 optimalContinuousRate := optimalRate opt;
                 optimizationResult := opt;
                 simulationData := timeSeriesData sim;
                 res_dosageAdjustments := dosageAdjustments sim;
                 res_performance := performance sim;
                 comparisonData := comparisonData r;
                 protocolParams := finalParamsOf target pp |}.
Proof.
  unfold calculateBolusProtocol.
  destruct (validateInputs Math_pow p bolusDoseMg target) as [e|];
    [discriminate|].
  intros H. split; [reflexivity|].
  destruct (optimizeContinuousRate p (pkOf p) bolusDoseMg target
              (targetReachTime (finalParamsOf target pp)))
    as [opt|] eqn:Eo; cbn [bind ended] in H; [|discriminate].
  destruct (simulateCompleteProtocol p (pkOf p) bolusDoseMg (optimalRate opt)
              (finalParamsOf target pp))
    as [sim|] eqn:Es; cbn [bind ended] in H; [|discriminate].
  unfold generateBolusComparison in H.
  destruct (bolusComparison p (pkOf p) target (finalParamsOf target pp)
              testBolusDoses) as [rows| |] eqn:Ec; cbn [bind] in H;
    try discriminate.
  injection H as <-. exists opt, sim. cbn [comparisonData].
  repeat split; assumption || reflexivity.
Qed.

Lemma calculateBolusProtocol_total (p : Patient)
      (bolusDoseMg target : number) (pp : ProtocolParams) (n : nat) :
  validateInputs Math_pow p bolusDoseMg target = None ->
  for_count (Math_floor (targetReachTime (finalParamsOf target pp) / timeStep))
  = Some n ->
  exists r, calculate p bolusDoseMg target pp = Returned r.
Proof.
  intros Hv Hn. unfold calculateBolusProtocol. rewrite Hv.
  destruct (optimize_returns p (pkOf p) bolusDoseMg target _ n Hn) as [opt ->].
  cbn [bind ended].
  destruct (simulate_run_returns p (pkOf p) bolusDoseMg (optimalRate opt)
              (finalParamsOf target pp)) as [sim ->].
  cbn [bind ended]. unfold generateBolusComparison.
  destruct (bolusComparison_returns p (pkOf p) target (finalParamsOf target pp)
              testBolusDoses n Hn) as [rows ->].
  cbn [bind]. eauto.
Qed.

End Result.

(** X16: a call that passes the three checks returns exactly when the
    loop [for (let i = 0; i < numSteps; i++)] of the open-loop
    simulation ends, where [numSteps] is the floor of [targetReachTime]
    over the time step 0.1. The loop ends unless [numSteps] is above
    2^53, where [i++] stops growing: the call does not return for a
    [targetReachTime] of 1e20 or of Infinity, and returns for every
    [numSteps] that is at most 2^53 or is NaN. The result holds the
    inputs, the PK parameters, the protocol parameters with their
    defaults, the optimization, the run made at its optimal rate with
    its 1801 data points, and four comparison rows for 3, 5, 7 and 10 mg
    in this order. *)
Theorem calculateBolusProtocol_returns
        (Math_pow : number -> number -> number)
        (calculateKe0 : number -> number -> number -> number -> number -> number)
        (p : Patient) (bolusDoseMg target : number) (pp : ProtocolParams) :
  validateInputs Math_pow p bolusDoseMg target = None ->
  let finalParams := finalParamsOf target pp in
  let pk := calculatePKParameters Math_pow calculateKe0 p in
  let numSteps := Math_floor (targetReachTime finalParams / timeStep) in
  (for_count numSteps = None <-> lt countLimit numSteps = true)
  /\ (lt countLimit numSteps = true ->
      calculateBolusProtocol Math_pow calculateKe0 p bolusDoseMg target pp
      = Diverged)
  /\ (targetReachTime finalParams = Infinity
      \/ targetReachTime finalParams = 1e20 ->
      lt countLimit numSteps = true)
  /\ (lt countLimit numSteps = false ->
      exists r opt sim,
        calculateBolusProtocol Math_pow calculateKe0 p bolusDoseMg target pp
        = Returned r
        /\ optimizeContinuousRate p pk bolusDoseMg target
             (targetReachTime finalParams) = Some opt
        /\ simulateCompleteProtocol p pk bolusDoseMg (optimalRate opt)
             finalParams = Some sim
        /\ res_patient r = p /\ res_pkParams r = pk
        /\ res_bolusDose r = bolusDoseMg /\ res_targetCe r = target
        /\ protocolParams r = finalParams
        /\ optimizationResult r = opt
        /\ optimalContinuousRate r = optimalRate opt
        /\ simulationData r = timeSeriesData sim
        /\ res_dosageAdjustments r = dosageAdjustments sim
        /\ res_performance r = performance sim
        /\ length (simulationData r) = 1801%nat
        /\ map cmp_bolusDose (comparisonData r) = [3; 5; 7; 10]).
Proof.
  intros Hv. cbv zeta. split; [apply for_count_limit|]. split; [|split].
  - intros Hn. apply for_count_limit in Hn.
    unfold calculateBolusProtocol. rewrite Hv.
    rewrite (optimize_diverges _ _ _ _ _ Hn). reflexivity.
  - intros [-> | ->]; vm_compute; reflexivity.
  - intros Hn.
    destruct (for_count (Math_floor
                (targetReachTime (finalParamsOf target pp) / timeStep)))
      as [n|] eqn:En;
      [clear Hn|apply for_count_limit in En; congruence].
    destruct (calculateBolusProtocol_total Math_pow calculateKe0 p bolusDoseMg
                target pp n Hv En) as [r Hr].
    destruct (calculateBolusProtocol_parts Math_pow calculateKe0 p bolusDoseMg
                target pp r Hr) as (_ & opt & sim & Ho & Hs & Hc & Hrec).
    exists r, opt, sim. split; [exact Hr|]. split; [exact Ho|].
    split; [exact Hs|].
    rewrite Hrec.
    cbn [res_patient res_pkParams res_bolusDose res_targetCe protocolParams
         optimizationResult optimalContinuousRate simulationData
         res_dosageAdjustments res_performance comparisonData].
    repeat (split; [reflexivity|]).
    split.
    + exact (simulate_run_length _ _ _ _ _ _ Hs).
    + exact (proj1 (bolusComparison_rows _ _ _ _ _ _ Hc)).
Qed.

(** The theorem at the reference patient: with the default target reach
    time of 20 minutes the call returns; with a target reach time of
    1e20 or of Infinity it does not. *)
Lemma calculateBolusProtocol_returns_witness :
  (exists r,
      calculateBolusProtocol square refKe0 refPatient 7 1 noProtocolParams
      = Returned r
      /\ length (simulationData r) = 1801%nat
      /\ map cmp_bolusDose (comparisonData r) = [3; 5; 7; 10])
  /\ calculateBolusProtocol square refKe0 refPatient 7 1
       {| pp_targetReachTime := Some 1e20; pp_upperThresholdRatio := None;
          pp_reductionFactor := None; pp_targetCe := None |}
     = Diverged
  /\ calculateBolusProtocol square refKe0 refPatient 7 1
       {| pp_targetReachTime := Some Infinity; pp_upperThresholdRatio := None;
          pp_reductionFactor := None; pp_targetCe := None |}
     = Diverged.
Proof.
  split; [|split].
  - pose proof (calculateBolusProtocol_returns square refKe0 refPatient 7 1
                  noProtocolParams ltac:(vm_compute; reflexivity)) as H.
    cbv zeta in H. destruct H as (_ & _ & _ & H).
    destruct H
      as (r & opt & sim & Hr & _ & _ & _ & _ & _ & _ & _ & _ & _ & _ & _ & _
          & Hlen & Hcmp);
      [vm_compute; reflexivity|].
    exists r. split; [exact Hr|]. split; [exact Hlen|exact Hcmp].
  - refine (proj1 (proj2 (calculateBolusProtocol_returns _ _ _ _ _ _ _)) _);
      vm_compute; reflexivity.
  - refine (proj1 (proj2 (calculateBolusProtocol_returns _ _ _ _ _ _ _)) _);
      vm_compute; reflexivity.
Defined.

(** X17: when the dose given is one of the compared doses 3, 5, 7 and
    10 mg, its row of the comparison agrees with the main result: the
    same optimal rate, final concentration, accuracy and number of
    adjustments, and the recommendation [getRecommendationLevel] gives
    that performance. *)
Theorem comparison_row_of_given_dose
        (Math_pow : number -> number -> number)
        (calculateKe0 : number -> number -> number -> number -> number -> number)
        (p : Patient) (bolusDoseMg target : number) (pp : ProtocolParams)
        (r : ProtocolResult) :
  calculateBolusProtocol Math_pow calculateKe0 p bolusDoseMg target pp
  = Returned r ->
  In bolusDoseMg [3; 5; 7; 10] ->
  exists row,
    In row (comparisonData r)
    /\ cmp_bolusDose row = bolusDoseMg
    /\ cmp_optimalRate row = optimalContinuousRate r
    /\ cmp_finalCe row = finalCe (res_performance r)
    /\ cmp_targetAccuracy row = targetAccuracy (res_performance r)
    /\ cmp_adjustmentCount row = length (res_dosageAdjustments r)
    /\ cmp_recommendation row
       = getRecommendationLevel (res_performance r)
                                (length (res_dosageAdjustments r)).
Proof.
  intros Hr Hdose.
  destruct (calculateBolusProtocol_parts Math_pow calculateKe0 p bolusDoseMg
              target pp r Hr) as (_ & opt & sim & Ho & Hs & Hc & Hrec).
  destruct (bolusComparison_rows _ _ _ _ _ _ Hc) as [Hm Hrows].
  change [3; 5; 7; 10] with testBolusDoses in Hdose.
  rewrite <- Hm in Hdose. apply in_map_iff in Hdose.
  destruct Hdose as (row & Hd & Hin).
  exists row. split; [exact Hin|]. split; [exact Hd|].
  rewrite Forall_forall in Hrows.
  destruct (Hrows row Hin)
    as (opt' & sim' & Ho' & Hs' & H1 & H2 & H3 & H4 & H5).
  rewrite Hd, Ho in Ho'. injection Ho' as <-.
  rewrite Hd, Hs in Hs'. injection Hs' as <-.
  rewrite Hrec.
  cbn [optimalContinuousRate res_performance res_dosageAdjustments].
  repeat split; assumption.
Qed.

(** The theorem at the reference patient, for the dose of 7 mg. *)
Lemma comparison_row_of_given_dose_witness :
  exists r row,
    calculateBolusProtocol (fun x _ => x * x) (fun _ _ _ _ _ => 0.12)
                           refPatient 7 1 noProtocolParams = Returned r
    /\ In row (comparisonData r)
    /\ cmp_bolusDose row = 7
    /\ cmp_optimalRate row = optimalContinuousRate r.
Proof.
  destruct (calculateBolusProtocol_total (fun x _ => x * x)
              (fun _ _ _ _ _ => 0.12) refPatient 7 1 noProtocolParams 200)
    as [r Hr]; [vm_compute; reflexivity|vm_compute; reflexivity|].
  destruct (comparison_row_of_given_dose _ _ _ _ _ _ r Hr)
    as (row & Hin & Hd & Ho & _).
  - right. right. left. reflexivity.
  - exists r, row. auto.
Defined.

(** * A run whose bolus dose is not a number *)

Section RunNaN.

Variable patient : Patient.
Variable pkParams : PKParameters.
Variable initialRate : number.
Variable params : ThresholdParams.

Local Abbreviation loop :=
  (protocolLoop patient pkParams NaN initialRate params).

Lemma loop_NaN (n : nat) :
  isNaN (a1 (ls_state (loop n))) = true
  /\ ((2 <= n)%nat -> isNaN (ls_currentCe (loop n)) = true).
Proof.
  induction n as [|n [IHs IHc]].
  - split; [reflexivity|lia].
  - rewrite protocolLoop_S. unfold protocolStep. cbn [ls_state ls_currentCe].
    split.
    + destruct (lt (of_nat n) (numSteps - 1)); [|exact IHs].
      apply updateSystemStateRK4_NaN. exact IHs.
    + intros Hn. destruct n as [|n]; [lia|].
      change (0 <? S n)%nat with true. cbv iota.
      apply effectSite_NaN. exact IHs.
Qed.

Lemma sample_NaN (j : nat) (dp : DataPoint) :
  nth_error (ls_timeSeriesData (loop 1801)) j = Some dp ->
  isNaN (plasma dp) = true /\ ((0 < j)%nat -> isNaN (ce dp) = true).
Proof.
  intros Hj.
  destruct (sample_of_states patient pkParams NaN initialRate params
              1801 j dp Hj) as (_ & Hce & Hpl & _).
  rewrite Hce, Hpl. split.
  - apply isNaN_div_l. apply (loop_NaN j).
  - intros Hpos. apply (loop_NaN (S j)). lia.
Qed.

(** No adjustment after the first step: the concentration is not a
    number, and is not at or above any threshold. *)
Lemma events_NaN : (length (ls_dosageAdjustments (loop 1801)) <= 1)%nat.
Proof.
  pose proof (RunInv_loop patient pkParams NaN initialRate params 1801)
    as Hinv.
  assert (Hstep : forall k ev,
             nth_error (ls_dosageAdjustments (loop 1801)) k = Some ev ->
             exists dp, nth_error (ls_timeSeriesData (loop 1801)) 0 = Some dp
                        /\ adjustmentNumber dp = S k).
  { intros k ev He.
    destruct (inv_events _ _ _ _ Hinv k ev He)
      as (_ & _ & _ & _ & Hce & _ & j & dp & Hj & _ & _ & _ & Hn & Hc).
    destruct j as [|j]; [eauto|].
    destruct (sample_NaN (S j) dp Hj) as [_ N]. specialize (N ltac:(lia)).
    rewrite Hc in N. unfold ge in Hce. apply le_not_nan in Hce.
    destruct Hce. congruence. }
  destruct (ls_dosageAdjustments (loop 1801)) as [|e0 [|e1 rest]] eqn:E;
    cbn [length]; try lia.
  exfalso.
  destruct (Hstep 0%nat e0 eq_refl) as (dp & Hdp & Hn0).
  destruct (Hstep 1%nat e1 eq_refl) as (dp' & Hdp' & Hn1).
  congruence.
Qed.

End RunNaN.

Lemma validateInputs_NaN_dose (Math_pow : number -> number -> number)
      (p : Patient) (target : number) :
  isValid (validate Math_pow p) = true ->
  le 0.5 target = true -> le target 3.0 = true ->
  validateInputs Math_pow p NaN target = None.
Proof.
  intros Hv T1 T2. unfold validateInputs. rewrite Hv. cbn [negb].
  change (lt NaN MIN_BOLUS_DOSE || gt NaN MAX_BOLUS_DOSE) with false.
  cbv iota.
  change (gt target 3.0) with (lt 3.0 target).
  rewrite (le_not_lt _ _ T1), (le_not_lt _ _ T2). reflexivity.
Qed.

(** X18: a bolus dose that is NaN (an empty dose field read by
    [parseFloat]) is neither below 1 nor above 15 and passes the checks.
    For a valid patient and a target in range the call returns: the
    rate is the initial 1.0 of the optimizer, the plasma concentration
    of every data point is NaN, the effect-site concentration is NaN
    from the second data point on, the final concentration is NaN, and
    at most one adjustment is made. *)
Theorem calculateBolusProtocol_NaN_dose
        (Math_pow : number -> number -> number)
        (calculateKe0 : number -> number -> number -> number -> number -> number)
        (p : Patient) (target : number) (pp : ProtocolParams) (n : nat) :
  isValid (validate Math_pow p) = true ->
  le 0.5 target = true -> le target 3.0 = true ->
  for_count (Math_floor (targetReachTime (finalParamsOf target pp) / timeStep))
  = Some (S n) ->
  exists r,
    calculateBolusProtocol Math_pow calculateKe0 p NaN target pp = Returned r
    /\ optimalContinuousRate r = 1
    /\ opt_error (optimizationResult r) = Infinity
    /\ length (simulationData r) = 1801%nat
    /\ (forall j dp, nth_error (simulationData r) j = Some dp ->
          isNaN (plasma dp) = true /\ ((0 < j)%nat -> isNaN (ce dp) = true))
    /\ isNaN (finalCe (res_performance r)) = true
    /\ (length (res_dosageAdjustments r) <= 1)%nat.
Proof.
  intros Hv T1 T2 Hn.
  pose proof (validateInputs_NaN_dose Math_pow p target Hv T1 T2) as Hchecks.
  destruct (calculateBolusProtocol_total Math_pow calculateKe0 p NaN target pp
              (S n) Hchecks Hn) as [r Hr].
  destruct (calculateBolusProtocol_parts Math_pow calculateKe0 p NaN target pp
              r Hr) as (_ & opt & sim & Ho & Hs & Hc & Hrec).
  exists r. split; [exact Hr|].
  set (pk := calculatePKParameters Math_pow calculateKe0 p) in *.
  (* the optimizer *)
  assert (Hopt : optimalRate opt = 1 /\ opt_error opt = Infinity).
  { destruct (scan_returns p pk NaN target _ (S n) testRates
                (1, Infinity, []) Hn ScanInv_initial (Forall_nil _))
      as ([[bestRate bestError] res] & Hscan & [Hmin Hbest] & Hf & Hm).
    cbn [snd] in Hf. rewrite Forall_forall in Hf.
    unfold optimizeContinuousRate in Ho. rewrite Hscan in Ho.
    destruct (simulateBolusAndContinuous p pk NaN bestRate _) as [c|];
      [|discriminate].
    injection Ho as <-. cbn [optimalRate opt_error].
    destruct Hbest as [(-> & -> & _)|(Hinf & k & e & Hk & Hr' & He & _)];
      [split; reflexivity|].
    exfalso. apply nth_error_In in Hk.
    destruct (Hf e Hk) as [Hsim Herr].
    unfold simulateBolusAndContinuous in Hsim. rewrite Hn in Hsim.
    injection Hsim as Hsim.
    assert (N : isNaN (entry_error e) = true).
    { rewrite Herr, <- Hsim. apply isNaN_abs, isNaN_sub_l.
      apply (openLoop_NaN pk (S n)); [reflexivity|lia]. }
    rewrite <- He in N. apply lt_not_nan in Hinf. destruct Hinf. congruence. }
  destruct Hopt as [Hrate Herr].
  (* the run *)
  assert (Hrun : length (timeSeriesData sim) = 1801%nat
                 /\ (forall j dp, nth_error (timeSeriesData sim) j = Some dp ->
                       isNaN (plasma dp) = true
                       /\ ((0 < j)%nat -> isNaN (ce dp) = true))
                 /\ isNaN (finalCe (performance sim)) = true
                 /\ (length (dosageAdjustments sim) <= 1)%nat).
  { clear Hrec Hr Hc Ho.
    pose proof (simulateCompleteProtocol_loop p pk NaN (optimalRate opt)
                  (finalParamsOf target pp)) as Hl.
    rewrite Hs in Hl.
    pose proof (RunInv_loop p pk NaN (optimalRate opt)
                            (finalParamsOf target pp) 1801) as Hinv.
    pose proof (sample_NaN p pk (optimalRate opt) (finalParamsOf target pp))
      as Hnan.
    pose proof (events_NaN p pk (optimalRate opt) (finalParamsOf target pp))
      as Hev.
    destruct (evaluatePerformance_run _ (targetCe (finalParamsOf target pp))
                (inv_length _ _ _ _ Hinv)
                (fun j dp Hj => proj1 (inv_samples _ _ _ _ Hinv j dp Hj)))
      as (final & Hfinal & _ & _ & Hfce & _).
    pose proof (inv_length _ _ _ _ Hinv) as Hlen.
    clear Hinv.
    generalize dependent (protocolLoop p pk NaN (optimalRate opt)
                                       (finalParamsOf target pp) 1801).
    intros st Hl. injection Hl as ->.
    cbn [timeSeriesData dosageAdjustments performance].
    intros Hnan Hev Hfinal Hfce Hlen.
    split; [exact Hlen|]. split; [exact Hnan|]. split; [|exact Hev].
    etransitivity; [exact (f_equal isNaN Hfce)|].
    apply (Hnan 1800%nat final Hfinal). lia. }
  destruct Hrun as (Hlen & Hnan & Hfce & Hev).
  rewrite Hrec.
  cbn [optimalContinuousRate optimizationResult simulationData
       res_performance res_dosageAdjustments].
  split; [exact Hrate|]. split; [exact Herr|]. split; [exact Hlen|].
  split; [exact Hnan|]. split; [exact Hfce|exact Hev].
Qed.

(** The theorem at the reference patient. *)
Lemma calculateBolusProtocol_NaN_dose_witness :
  exists r,
    calculateBolusProtocol (fun x _ => x * x) (fun _ _ _ _ _ => 0.12)
                           refPatient NaN 1 noProtocolParams = Returned r
    /\ optimalContinuousRate r = 1
    /\ isNaN (finalCe (res_performance r)) = true.
Proof.
  destruct (calculateBolusProtocol_NaN_dose (fun x _ => x * x)
              (fun _ _ _ _ _ => 0.12) refPatient 1 noProtocolParams 199)
    as (r & Hr & H1 & _ & _ & _ & H2 & _); try (vm_compute; reflexivity).
  exists r. auto.
Defined.

(** * What [validate] accepts *)

Lemma length_zero {A : Type} (s : list A) :
  (length s =? 0)%nat = true <-> s = [].
Proof.
  destruct s; cbn; split; intros H; try reflexivity; discriminate.
Qed.

Lemma idMissing_spec (p : Patient) :
  idMissing p = true <-> trim (patientId p) = [].
Proof.
  unfold idMissing. rewrite orb_true_iff, !length_zero. split.
  - intros [->|H]; [reflexivity|exact H].
  - auto.
Qed.

(** Nothing is left of a string exactly when all its code units are
    white space. *)
Lemma trimStart_blank (s : jsString) :
  trimStart s = [] <-> forallb isWhiteSpace s = true.
Proof.
  induction s as [|c s IH]; cbn [trimStart forallb].
  - split; reflexivity.
  - destruct (isWhiteSpace c); cbn [andb]; [exact IH|].
    split; discriminate.
Qed.

Lemma trimStart_head (s : jsString) (c : codeUnit) (rest : jsString) :
  trimStart s = c :: rest -> isWhiteSpace c = false.
Proof.
  induction s as [|d s IH]; cbn [trimStart]; [discriminate|].
  destruct (isWhiteSpace d) eqn:E; [exact IH|].
  intros H. injection H as <- _. exact E.
Qed.

Lemma trim_blank (s : jsString) :
  trim s = [] <-> forallb isWhiteSpace s = true.
Proof.
  rewrite <- trimStart_blank. unfold trim, trimEnd. split.
  - intros H.
    destruct (trimStart s) as [|c rest] eqn:E; [reflexivity|].
    destruct (trimStart (rev (c :: rest))) as [|d r] eqn:E2;
      [|cbn [rev] in H; destruct (rev r); discriminate].
    apply trimStart_blank in E2.
    assert (Hc : isWhiteSpace c = true).
    { apply (proj1 (forallb_forall _ _) E2).
      apply (proj1 (in_rev _ _)). left. reflexivity. }
    rewrite (trimStart_head _ _ _ E) in Hc. discriminate.
  - intros ->. reflexivity.
Qed.

(** An ID of one ideographic space, U+3000, is reported as missing. *)
Lemma ideographic_space_missing
      (Math_pow : number -> number -> number) (p : Patient) :
  patientId p = [0x3000%N] ->
  In MissingPatientId (errors (validate Math_pow p)).
Proof.
  intros H. rewrite validate_errors.
  unfold idMissing. rewrite H. left. reflexivity.
Qed.

(** X19: [validate] accepts the patients whose ID is not blank once
    trimmed, that is, has a code unit that is not white space, and
    whose age, weight and BMI are each within [18, 80], [40, 120] and
    [16, 40], or NaN: a value that is NaN passes its range check.
    [isValid] holds exactly when [errors] is empty; the errors come in
    the order ID, age, weight, BMI; the ID is reported as missing
    exactly when it is empty or made of white space only. *)
Theorem validate_accepts
        (Math_pow : number -> number -> number) (p : Patient) :
  (isValid (validate Math_pow p) = true
   <-> trim (patientId p) <> []
       /\ (isNaN (age p) = true
           \/ (le 18 (age p) = true /\ le (age p) 80 = true))
       /\ (isNaN (weight p) = true
           \/ (le 40 (weight p) = true /\ le (weight p) 120 = true))
       /\ (isNaN (getBMI Math_pow p) = true
           \/ (le 16 (getBMI Math_pow p) = true
               /\ le (getBMI Math_pow p) 40 = true)))
  /\ (isValid (validate Math_pow p) = true
      <-> errors (validate Math_pow p) = [])
  /\ errors (validate Math_pow p)
     = (if idMissing p then [MissingPatientId] else [])
       ++ (if ageOutOfRange p then [AgeOutOfRange] else [])
       ++ (if weightOutOfRange p then [WeightOutOfRange] else [])
       ++ (if bmiOutOfRange Math_pow p
           then [BmiOutOfRange (getBMI Math_pow p)] else [])
  /\ (trim (patientId p) = []
      <-> forallb isWhiteSpace (patientId p) = true)
  /\ (In MissingPatientId (errors (validate Math_pow p))
      <-> forallb isWhiteSpace (patientId p) = true).
Proof.
  pose proof (validate_errors Math_pow p) as Herrors.
  split; [|split; [|split; [|split]]].
  - rewrite validate_isValid, negb_true_iff, !orb_false_iff.
    unfold ageOutOfRange, weightOutOfRange, bmiOutOfRange.
    rewrite !range_check by reflexivity. unfold accepted.
    rewrite <- not_true_iff_false, idMissing_spec. tauto.
  - rewrite validate_isValid, Herrors.
    destruct (idMissing p), (ageOutOfRange p), (weightOutOfRange p),
      (bmiOutOfRange Math_pow p); cbn; split; intros H;
      reflexivity || discriminate.
  - exact Herrors.
  - apply trim_blank.
  - rewrite Herrors, <- trim_blank, <- idMissing_spec. split.
    + destruct (idMissing p); [reflexivity|].
      destruct (ageOutOfRange p), (weightOutOfRange p),
        (bmiOutOfRange Math_pow p); cbn; intuition discriminate.
    + intros ->. left. reflexivity.
Qed.

(** * The clinical protocol and the alerts *)

Section Steps.

Variable Number_toString : number -> string.
Variable toFixed : number -> nat -> string.
Variable patient : Patient.

Lemma pushAdjustmentSteps_spec (index : nat)
      (adjustments : list DosageAdjustment) (protocol : list ClinicalStep) :
  let result := pushAdjustmentSteps toFixed patient index adjustments protocol in
  length result = (length protocol + length adjustments)%nat
  /\ map step result
     = map step protocol ++ seq (index + 3) (length adjustments)
  /\ (forall j, (j < length protocol)%nat ->
                nth_error result j = nth_error protocol j)
  /\ (forall k ev, nth_error adjustments k = Some ev ->
                   nth_error result (length protocol + k)
                   = Some (adjustmentStep toFixed patient (index + k) ev)).
Proof.
  revert index protocol.
  induction adjustments as [|a rest IH]; intros index protocol; cbv zeta.
  - cbn [pushAdjustmentSteps length seq]. rewrite Nat.add_0_r, app_nil_r.
    repeat split; try reflexivity. intros [|k] ev H; discriminate.
  - cbn [pushAdjustmentSteps].
    destruct (IH (S index) (protocol ++ [adjustmentStep toFixed patient index a]))
      as (Hlen & Hsteps & Hold & Hnew).
    rewrite length_app in *. cbn [length] in *.
    split; [lia|]. split; [|split].
    + rewrite Hsteps, map_app, <- app_assoc. reflexivity.
    + intros j Hj. rewrite Hold by lia. apply nth_error_app1. exact Hj.
    + intros [|k] ev Hk.
      * cbn [nth_error] in Hk. injection Hk as <-.
        rewrite Nat.add_0_r, Hold by lia.
        rewrite nth_error_app2, Nat.sub_diag, Nat.add_0_r by lia. reflexivity.
      * cbn [nth_error] in Hk. specialize (Hnew k ev Hk).
        replace (length protocol + S k)%nat
          with (length protocol + 1 + k)%nat by lia.
        rewrite Hnew. do 2 f_equal. lia.
Qed.

End Steps.

(** X20: the clinical protocol has two entries more than there are
    adjustments, numbered 1, 2, 3, ... in order: the bolus, the start of
    the infusion, then one entry for each adjustment in the order of the
    log, which prints its new rate, its total dose, its time and its
    reduction. *)
Theorem generateClinicalProtocol_steps
        (Number_toString : number -> string)
        (toFixed : number -> nat -> string)
        (bolusDoseMg continuousRate : number)
        (adjustments : list DosageAdjustment) (patient : Patient) :
  let protocol :=
    generateClinicalProtocol Number_toString toFixed bolusDoseMg
                             continuousRate adjustments patient in
  length protocol = (2 + length adjustments)%nat
  /\ map step protocol = seq 1 (2 + length adjustments)
  /\ (exists first second,
        nth_error protocol 0 = Some first
        /\ nth_error protocol 1 = Some second
        /\ dose first = (Number_toString bolusDoseMg ++ " mg")%string
        /\ totalDose first = dose first
        /\ dose second = (toFixed continuousRate 2%nat ++ " mg/kg/hr")%string
        /\ totalDose second
           = (toFixed (continuousRate * weight patient) 1%nat ++ " mg/hr")%string)
  /\ forall k ev, nth_error adjustments k = Some ev ->
        exists entry,
          nth_error protocol (k + 2) = Some entry
          /\ step entry = (k + 3)%nat
          /\ dose entry = (toFixed (newRate ev) 2%nat ++ " mg/kg/hr")%string
          /\ totalDose entry
             = (toFixed (newRate ev * weight patient) 1%nat ++ " mg/hr")%string
          /\ timing entry = (toFixed (adj_time ev) 0%nat ++ "分後")%string
          /\ notes entry
             = (toFixed (reductionPercent ev) 0%nat ++ "%減量")%string.
Proof.
  cbv zeta. unfold generateClinicalProtocol. cbn [app].
  match goal with
  | |- context [pushAdjustmentSteps _ _ _ _ ?acc] =>
      destruct (pushAdjustmentSteps_spec toFixed patient 0 adjustments acc)
        as (Hlen & Hsteps & Hold & Hnew)
  end.
  cbn [length map step Nat.add] in Hlen, Hsteps, Hold, Hnew.
  split; [exact Hlen|]. split; [exact Hsteps|]. split.
  - do 2 eexists.
    split; [rewrite Hold by lia; reflexivity|].
    split; [rewrite Hold by lia; reflexivity|].
    cbn [dose totalDose]. repeat split; reflexivity.
  - intros k ev Hk. eexists.
    split; [rewrite Nat.add_comm; exact (Hnew k ev Hk)|].
    cbn [step dose totalDose timing notes adjustmentStep Nat.add].
    repeat split; reflexivity.
Qed.

Section Alerts.

Variable toFixed : number -> nat -> string.

Lemma pushAdjustmentAlerts_spec (adjustments : list DosageAdjustment)
      (m : BolusAlertManager) :
  let m' := pushAdjustmentAlerts toFixed adjustments m in
  isAudioEnabled m' = isAudioEnabled m
  /\ isBolusAlertEnabled m' = isBolusAlertEnabled m
  /\ length (alerts m') = (length (alerts m) + 2 * length adjustments)%nat
  /\ (forall j, (j < length (alerts m))%nat ->
                nth_error (alerts m') j = nth_error (alerts m) j)
  /\ (forall k ev, nth_error adjustments k = Some ev ->
        nth_error (alerts m') (length (alerts m) + 2 * k)
        = Some (warningAlert toFixed ev)
        /\ nth_error (alerts m') (length (alerts m) + 2 * k + 1)
           = Some (adjustmentAlert toFixed ev)).
Proof.
  revert m. induction adjustments as [|a rest IH]; intros m; cbv zeta.
  - cbn [pushAdjustmentAlerts length].
    split; [reflexivity|]. split; [reflexivity|]. split; [lia|].
    split; [reflexivity|]. intros [|k] ev H; discriminate.
  - cbn [pushAdjustmentAlerts].
    destruct (IH (pushAlert (pushAlert m (warningAlert toFixed a))
                            (adjustmentAlert toFixed a)))
      as (Haudio & Hflag & Hlen & Hold & Hnew).
    cbn [pushAlert alerts isAudioEnabled isBolusAlertEnabled] in *.
    rewrite !length_app in *. cbn [length] in *.
    split; [exact Haudio|]. split; [exact Hflag|]. split; [lia|]. split.
    + intros j Hj. rewrite Hold by lia.
      rewrite <- app_assoc. apply nth_error_app1. exact Hj.
    + intros [|k] ev Hk.
      * cbn [nth_error] in Hk. injection Hk as <-.
        rewrite !Hold by lia. rewrite <- app_assoc. split.
        -- rewrite nth_error_app2 by lia.
           replace (length (alerts m) + 2 * 0 - length (alerts m))%nat
             with 0%nat by lia.
           reflexivity.
        -- rewrite nth_error_app2 by lia.
           replace (length (alerts m) + 2 * 0 + 1 - length (alerts m))%nat
             with 1%nat by lia.
           reflexivity.
      * cbn [nth_error] in Hk. destruct (Hnew k ev Hk) as [Hw Ha].
        replace (length (alerts m) + 2 * S k)%nat
          with (length (alerts m) + 1 + 1 + 2 * k)%nat by lia.
        split; [exact Hw|exact Ha].
Qed.

End Alerts.

(** X21: [generateBolusAlerts] discards the alerts of an earlier call
    and keeps the switch. With the bolus alerts off, or a protocol of
    two entries or more, it returns the alerts it stores: when the bolus
    alerts are on, the bolus alert and the infusion start alert of the
    first two protocol entries; then for each adjustment, in order, a
    warning 2 minutes before its time and the adjustment alert at its
    time. With the bolus alerts on and fewer than two protocol entries,
    reading the missing entry throws a TypeError, after as many alerts
    were stored as there are entries. *)
Theorem generateBolusAlerts_alerts
        (toFixed : number -> nat -> string)
        (m : BolusAlertManager)
        (dosageAdjustments : list DosageAdjustment)
        (clinicalProtocol : list ClinicalStep) :
  let result := generateBolusAlerts toFixed m dosageAdjustments clinicalProtocol in
  let first := if isBolusAlertEnabled m then 2%nat else 0%nat in
  isBolusAlertEnabled (fst result) = isBolusAlertEnabled m
  /\ (isBolusAlertEnabled m = false \/ (2 <= length clinicalProtocol)%nat ->
      snd result = AlertsReturned (alerts (fst result))
      /\ length (alerts (fst result))
         = (first + 2 * length dosageAdjustments)%nat
      /\ (isBolusAlertEnabled m = true ->
          exists entry1 entry2,
            nth_error clinicalProtocol 0 = Some entry1
            /\ nth_error clinicalProtocol 1 = Some entry2
            /\ nth_error (alerts (fst result)) 0 = Some (bolusAlert entry1)
            /\ nth_error (alerts (fst result)) 1
               = Some (continuousStartAlert entry2))
      /\ forall k ev, nth_error dosageAdjustments k = Some ev ->
           exists before at_time,
             nth_error (alerts (fst result)) (first + 2 * k) = Some before
             /\ nth_error (alerts (fst result)) (first + 2 * k + 1)
                = Some at_time
             /\ alert_type before = type_warning
             /\ alert_time before = adj_time ev - 2
             /\ alert_adjustment before = Some ev
             /\ alert_type at_time = type_adjustment
             /\ alert_time at_time = adj_time ev
             /\ alert_adjustment at_time = Some ev)
  /\ (isBolusAlertEnabled m = true -> (length clinicalProtocol < 2)%nat ->
      snd result = TypeErrorThrown
      /\ length (alerts (fst result)) = length clinicalProtocol)
  /\ result
     = generateBolusAlerts toFixed
         {| alerts := []; isAudioEnabled := isAudioEnabled m;
            isBolusAlertEnabled := isBolusAlertEnabled m |}
         dosageAdjustments clinicalProtocol.
Proof.
  cbv zeta. unfold generateBolusAlerts.
  cbn [isBolusAlertEnabled isAudioEnabled].
  set (m0 := {| alerts := []; isAudioEnabled := isAudioEnabled m;
                isBolusAlertEnabled := isBolusAlertEnabled m |}).
  assert (Hadj : forall m1 k ev,
             nth_error dosageAdjustments k = Some ev ->
             exists before at_time,
               nth_error (alerts (pushAdjustmentAlerts toFixed
                                    dosageAdjustments m1))
                         (length (alerts m1) + 2 * k) = Some before
               /\ nth_error (alerts (pushAdjustmentAlerts toFixed
                                       dosageAdjustments m1))
                            (length (alerts m1) + 2 * k + 1) = Some at_time
               /\ alert_type before = type_warning
               /\ alert_time before = adj_time ev - 2
               /\ alert_adjustment before = Some ev
               /\ alert_type at_time = type_adjustment
               /\ alert_time at_time = adj_time ev
               /\ alert_adjustment at_time = Some ev).
  { intros m1 k ev Hk.
    destruct (pushAdjustmentAlerts_spec toFixed dosageAdjustments m1)
      as (_ & _ & _ & _ & Hnew).
    destruct (Hnew k ev Hk) as [Hw Ha].
    exists (warningAlert toFixed ev), (adjustmentAlert toFixed ev).
    repeat split; assumption. }
  destruct (isBolusAlertEnabled m) eqn:Eflag.
  - destruct clinicalProtocol as [|entry1 [|entry2 others]];
      cbn [nth_error length fst snd].
    + split; [reflexivity|]. split; [intros [H|H]; [discriminate|lia]|].
      split; [auto|reflexivity].
    + split; [reflexivity|]. split; [intros [H|H]; [discriminate|lia]|].
      split; [auto|reflexivity].
    + set (m2 := pushAlert (pushAlert m0 (bolusAlert entry1))
                           (continuousStartAlert entry2)).
      destruct (pushAdjustmentAlerts_spec toFixed dosageAdjustments m2)
        as (_ & Hflag & Hlen & Hold & _).
      split; [rewrite Hflag; reflexivity|]. split; [|split; [lia|reflexivity]].
      intros _. split; [reflexivity|]. split; [exact Hlen|]. split.
      * intros _. exists entry1, entry2.
        split; [reflexivity|]. split; [reflexivity|].
        split;
          [exact (eq_trans (Hold 0%nat ltac:(cbn; lia)) eq_refl)
          |exact (eq_trans (Hold 1%nat ltac:(cbn; lia)) eq_refl)].
      * intros k ev Hk. exact (Hadj m2 k ev Hk).
  - cbn [fst snd].
    destruct (pushAdjustmentAlerts_spec toFixed dosageAdjustments m0)
      as (_ & Hflag & Hlen & _ & _).
    split; [rewrite Hflag; reflexivity|]. split; [|split; [discriminate|reflexivity]].
    intros _. split; [reflexivity|]. split; [exact Hlen|].
    split; [discriminate|].
    intros k ev Hk. exact (Hadj m0 k ev Hk).
Qed.

Lemma append_assoc (s1 s2 s3 : string) :
  ((s1 ++ s2) ++ s3 = s1 ++ (s2 ++ s3))%string.
Proof.
  induction s1 as [|c s1 IH]; [reflexivity|].
  cbn [append]. rewrite IH. reflexivity.
Qed.

(** X22: on the clinical protocol [generateClinicalProtocol] builds
    for the same adjustments, [generateBolusAlerts] never throws: it
    returns two alerts for each adjustment, and two more when the bolus
    alerts are on, the first of which prints the dose of step 1. *)
Theorem alerts_of_clinical_protocol
        (Number_toString : number -> string)
        (toFixed : number -> nat -> string)
        (m : BolusAlertManager)
        (bolusDoseMg continuousRate : number)
        (adjustments : list DosageAdjustment) (patient : Patient) :
  let protocol :=
    generateClinicalProtocol Number_toString toFixed bolusDoseMg
                             continuousRate adjustments patient in
  let result := generateBolusAlerts toFixed m adjustments protocol in
  snd result = AlertsReturned (alerts (fst result))
  /\ length (alerts (fst result))
     = ((if isBolusAlertEnabled m then 2 else 0) + 2 * length adjustments)%nat
  /\ (isBolusAlertEnabled m = true ->
      exists a,
        nth_error (alerts (fst result)) 0 = Some a
        /\ alert_type a = type_bolus
        /\ message a
           = (Number_toString bolusDoseMg ++ " mg"
              ++ "を瞬時静脈内投与してください。")%string).
Proof.
  cbv zeta. unfold generateClinicalProtocol. cbn [app].
  match goal with
  | |- context [pushAdjustmentSteps _ _ _ _ ?acc] =>
      destruct (pushAdjustmentSteps_spec toFixed patient 0 adjustments acc)
        as (_ & _ & Hold & _);
      set (protocol := pushAdjustmentSteps toFixed patient 0 adjustments acc)
        in *
  end.
  pose proof (Hold 0%nat ltac:(cbn; lia)) as H0.
  pose proof (Hold 1%nat ltac:(cbn; lia)) as H1.
  cbn [nth_error] in H0, H1.
  change (match protocol with [] => None | x :: _ => Some x end)
    with (nth_error protocol 0) in H0.
  change (match protocol with
          | [] => None
          | _ :: l => match l with [] => None | x :: _ => Some x end
          end)
    with (nth_error protocol 1) in H1.
  unfold generateBolusAlerts. rewrite H0, H1.
  cbn [isBolusAlertEnabled isAudioEnabled].
  set (m0 := {| alerts := []; isAudioEnabled := isAudioEnabled m;
                isBolusAlertEnabled := isBolusAlertEnabled m |}).
  destruct (isBolusAlertEnabled m) eqn:Eflag; cbn [fst snd].
  - match goal with
    | |- context [pushAdjustmentAlerts toFixed adjustments ?m2] =>
        destruct (pushAdjustmentAlerts_spec toFixed adjustments m2)
          as (_ & _ & Hlen & Holda & _)
    end.
    split; [reflexivity|]. split; [exact Hlen|].
    intros _. eexists.
    split; [exact (eq_trans (Holda 0%nat ltac:(cbn; lia)) eq_refl)|].
    split; [reflexivity|].
    cbn [message bolusAlert dose]. apply append_assoc.
  - destruct (pushAdjustmentAlerts_spec toFixed adjustments m0)
      as (_ & _ & Hlen & _ & _).
    split; [reflexivity|]. split; [exact Hlen|]. discriminate.
Qed.

(** * The recommendation of a run *)

Lemma sameLevel_eq (a b : Recommendation) : sameLevel a b = true -> a = b.
Proof. destruct a, b; intros H; reflexivity || discriminate. Qed.

(** The score of [w] points out of 1201, with and without the two
    bonuses, has the level of the points and the bonuses together. *)
Lemma level_table :
  forallb (fun w =>
             let accuracy := (of_nat w / 1201) * 100 in
             sameLevel (levelOfScore accuracy) (levelOfPoints w)
             && sameLevel (levelOfScore (accuracy + 10))
                          (levelOfPoints (w + 120))
             && sameLevel (levelOfScore (accuracy + 15))
                          (levelOfPoints (w + 180))
             && sameLevel (levelOfScore (accuracy + 10 + 15))
                          (levelOfPoints (w + 120 + 180)))
          (seq 0 1202) = true.
Proof. vm_compute. reflexivity. Qed.

Lemma recommendation_points (series : list DataPoint) (target : number)
      (count : nat) :
  length series = 1801%nat ->
  (forall j dp, nth_error series j = Some dp ->
                time dp = toFixed1 (stepTime j)) ->
  let within :=
    length (filter (fun point =>
                      le (Math_abs (ce point - target)) (target * 0.1))
                   (skipn 600 series)) in
  let simple := (count =? 1)%nat in
  let close :=
    lt (Math_abs (finalCe (evaluatePerformance series target) - 1.0)) 0.1 in
  let points :=
    (within + (if simple then 120 else 0) + (if close then 180 else 0))%nat in
  (within <= 1201)%nat
  /\ getRecommendationLevel (evaluatePerformance series target) count
     = (if (1081 <=? points)%nat then Recommended
        else if (901 <=? points)%nat then Good
        else if (721 <=? points)%nat then Acceptable
        else NeedsReview).
Proof.
  intros Hlen Htime.
  destruct (evaluatePerformance_run series target Hlen Htime)
    as (final & _ & _ & Hcount & _ & _ & _ & _ & Hacc).
  cbv zeta.
  remember (evaluatePerformance series target) as perf eqn:Eperf.
  remember (length (filter (fun point =>
                              le (Math_abs (ce point - target)) (target * 0.1))
                           (skipn 600 series))) as w eqn:Ew.
  assert (Hw : (w <= 1201)%nat).
  { rewrite Ew, <- Hcount. apply filter_length_le. }
  split; [exact Hw|].
  pose proof (proj1 (forallb_forall _ _) level_table w) as T.
  cbv beta zeta in T. specialize (T ltac:(apply in_seq; lia)).
  rewrite <- Hacc in T.
  apply andb_prop in T. destruct T as [T T4].
  apply andb_prop in T. destruct T as [T T3].
  apply andb_prop in T. destruct T as [T1 T2].
  apply sameLevel_eq in T1, T2, T3, T4.
  unfold levelOfPoints in T1, T2, T3, T4.
  unfold getRecommendationLevel. fold (levelOfScore).
  destruct (count =? 1)%nat;
    destruct (lt (Math_abs (finalCe perf - 1.0)) 0.1);
    rewrite ?Nat.add_0_r.
  - exact T4.
  - exact T2.
  - exact T3.
  - exact T1.
Qed.

(** X23: the recommendation of a run, counted in points of its
    maintenance period: to the number of its 1201 points that are within
    10 % of the target, add 120 when exactly one adjustment was made and
    180 when the final concentration is less than 0.1 away from 1.0; the
    level is [Recommended] from 1081 points, [Good] from 901,
    [Acceptable] from 721, and [NeedsReview] below. *)
Theorem recommendation_of_run
        (patient : Patient) (pkParams : PKParameters)
        (bolusDoseMg initialRate : number) (params : ThresholdParams) :
  exists r,
    simulateCompleteProtocol patient pkParams bolusDoseMg initialRate params
    = Some r
    /\ let within :=
         length (filter (fun point =>
                           le (Math_abs (ce point - targetCe params))
                              (targetCe params * 0.1))
                        (skipn 600 (timeSeriesData r))) in
       let simple := (length (dosageAdjustments r) =? 1)%nat in
       let close := lt (Math_abs (finalCe (performance r) - 1.0)) 0.1 in
       let points :=
         (within + (if simple then 120 else 0)
          + (if close then 180 else 0))%nat in
       (within <= 1201)%nat
       /\ getRecommendationLevel (performance r)
                                 (length (dosageAdjustments r))
          = (if (1081 <=? points)%nat then Recommended
             else if (901 <=? points)%nat then Good
             else if (721 <=? points)%nat then Acceptable
             else NeedsReview).
Proof.
  rewrite simulateCompleteProtocol_loop.
  pose proof (RunInv_loop patient pkParams bolusDoseMg initialRate params 1801)
    as Hinv.
  eexists. split; [reflexivity|].
  cbn [timeSeriesData dosageAdjustments performance].
  exact (recommendation_points _ (targetCe params) _
           (inv_length _ _ _ _ Hinv)
           (fun j dp Hj => proj1 (inv_samples _ _ _ _ Hinv j dp Hj))).
Qed.
